(** * HVF on Apple Silicon: slot table, register transfer and exit dispatch

    A shallow embedding of [target/arm/hvf.c].  Unsigned 64-bit C values are
    integers of [Z] kept in [0, 2^64); every C addition that can wrap is
    written with [u64].  Pointers into the slot array are indices.  Calls into
    Hypervisor.framework and into the memory bus are recorded in a log, and
    what they return is a parameter of the development. *)

From stdpp Require Import base option numbers list.
From Stdlib Require Import ZArith Lia Bool.

Local Open Scope Z_scope.

(** ** Machine integers *)

Definition two64 : Z := 2 ^ 64.

(** uint64_t arithmetic wraps. *)
Definition u64 (x : Z) : Z := x mod two64.

Definition is_u64 (x : Z) : Prop := 0 <= x < two64.

(** ** Outcomes: a C function returns, or the process is terminated by
    [abort()] / [qemu_abort()].  Both carry the state reached. *)

Inductive outcome (S A : Type) : Type :=
| Returned (a : A) (s : S)
| Aborted (s : S).
Arguments Returned {S A} a s.
Arguments Aborted {S A} s.

Definition prog (S A : Type) : Type := S -> outcome S A.

Definition ret {S A} (a : A) : prog S A := fun s => Returned a s.

Definition bind {S A B} (m : prog S A) (k : A -> prog S B) : prog S B :=
  fun s => match m s with
           | Returned a s' => k a s'
           | Aborted s' => Aborted s'
           end.

(** abort(), qemu_abort(...) *)
Definition abort {S A} : prog S A := fun s => Aborted s.

Notation "'let*' x ':=' m 'in' k" := (bind m (fun x => k))
  (at level 10, x name, m at level 100, k at level 200).
Notation "m ';;' k" := (bind m (fun _ => k))
  (at level 100, k at level 200, right associativity).

(** The state an outcome ends in, and whether it is a return. *)
Definition final {S A} (o : outcome S A) : S :=
  match o with Returned _ s => s | Aborted s => s end.

Definition returned {S A} (o : outcome S A) : bool :=
  match o with Returned _ _ => true | Aborted _ => false end.

(** ** Memory slots *)

Module Mem.

(** #define HVF_MAX_SLOTS 512 *)
Definition HVF_MAX_SLOTS : nat := 512.

(** hv_return_t: HV_SUCCESS is 0 in Hypervisor.framework. *)
Definition HV_SUCCESS : Z := 0.

(** HV_MEMORY_READ | HV_MEMORY_WRITE | HV_MEMORY_EXEC *)
Definition HV_MEMORY_RWX : Z := 7.

(** typedef struct hvf_slot *)
Record hvf_slot : Type := {
  slot_start : Z;
  slot_size : Z;
  slot_mem : Z;
  slot_id : nat
}.

(** struct mac_slot *)
Record mac_slot : Type := {
  present : bool;
  mac_size : Z;
  gpa_start : Z;
  gva : Z;
  hva : Z
}.

(** The memory primitives of the hardware layer the file calls. *)
Inductive hv_call : Type :=
| hv_vm_map (uva gpa size flags : Z)
| hv_vm_unmap (gpa size : Z)
| hv_vm_protect (gpa size flags : Z).

(** [hvf_state->slots] (with [num_slots] its length), the file-scope
    [mac_slots] array, and the calls made to the hardware layer so far
    (oldest first). *)
Record hvf_mem : Type := {
  slots : list hvf_slot;
  mac_slots : list mac_slot;
  hv_log : list hv_call
}.

Definition free_slot (x : nat) : hvf_slot :=
  {| slot_start := 0; slot_size := 0; slot_mem := 0; slot_id := x |}.

Definition zero_mac_slot : mac_slot :=
  {| present := false; mac_size := 0; gpa_start := 0; gva := 0; hva := 0 |}.

(** hvf_accel_init: every slot gets size 0 and its own index as id;
    [mac_slots] is zero-initialised static storage. *)
Definition hvf_accel_init : hvf_mem :=
  {| slots := map free_slot (seq 0 HVF_MAX_SLOTS);
     mac_slots := replicate HVF_MAX_SLOTS zero_mac_slot;
     hv_log := [] |}.

Definition with_slots (f : list hvf_slot -> list hvf_slot) (st : hvf_mem) : hvf_mem :=
  {| slots := f (slots st); mac_slots := mac_slots st; hv_log := hv_log st |}.

Definition with_mac_slots (f : list mac_slot -> list mac_slot) (st : hvf_mem) : hvf_mem :=
  {| slots := slots st; mac_slots := f (mac_slots st); hv_log := hv_log st |}.

Definition slot_at (st : hvf_mem) (i : nat) : hvf_slot :=
  default (free_slot i) (slots st !! i).

Definition mac_at (st : hvf_mem) (i : nat) : mac_slot :=
  default zero_mac_slot (mac_slots st !! i).

Definition set_size (v : Z) (s : hvf_slot) : hvf_slot :=
  {| slot_start := slot_start s; slot_size := v; slot_mem := slot_mem s;
     slot_id := slot_id s |}.

(** mem->mem = ...; mem->start = ...; mem->size = ... *)
Definition fill_slot (m g sz : Z) (s : hvf_slot) : hvf_slot :=
  {| slot_start := g; slot_size := sz; slot_mem := m; slot_id := slot_id s |}.

Definition set_present (b : bool) (m : mac_slot) : mac_slot :=
  {| present := b; mac_size := mac_size m; gpa_start := gpa_start m;
     gva := gva m; hva := hva m |}.

(** The test of the loop in hvf_find_overlap_slot; [slot->start + slot->size]
    is a uint64_t sum. *)
Definition overlap_test (start end_ : Z) (s : hvf_slot) : bool :=
  negb (slot_size s =? 0)
  && (start <? u64 (slot_start s + slot_size s))
  && (slot_start s <? end_).

Fixpoint find_overlap_from (x : nat) (l : list hvf_slot) (start end_ : Z)
  : option nat :=
  match l with
  | [] => None
  | s :: l' => if overlap_test start end_ s then Some x
               else find_overlap_from (S x) l' start end_
  end.

(** hvf_find_overlap_slot: the index of the first slot whose range meets
    [start, end), or None for NULL. *)
Definition hvf_find_overlap_slot (st : hvf_mem) (start end_ : Z) : option nat :=
  find_overlap_from 0 (slots st) start end_.

Fixpoint next_free_from (x : nat) (l : list hvf_slot) (mem : option nat)
  : option nat :=
  match l with
  | [] => mem
  | s :: l' => if slot_size s =? 0 then Some x
               else next_free_from (S x) l' (Some x)
  end.

(** hvf_next_free_slot: the first slot of size 0; when there is none the loop
    leaves [mem] at the last slot, and that is what is returned. *)
Definition hvf_next_free_slot (st : hvf_mem) : option nat :=
  next_free_from 0 (slots st) None.

Fixpoint gpa2hva_from (l : list mac_slot) (gpa : Z) : option Z :=
  match l with
  | [] => None
  | mslot :: l' =>
      if negb (present mslot) then gpa2hva_from l' gpa
      else if (gpa_start mslot <=? gpa)
              && (gpa <? u64 (gpa_start mslot + mac_size mslot))
      then Some (u64 (hva mslot + (gpa - gpa_start mslot)))
      else gpa2hva_from l' gpa
  end.

(** hvf_gpa2hva: [Some p] for [*found = true] and the pointer returned,
    [None] for [*found = false]. *)
Definition hvf_gpa2hva (st : hvf_mem) (gpa : Z) : option Z :=
  gpa2hva_from (mac_slots st) gpa.

(** One pass of the loop body of hvf_hva2gpa: the fragment this slot adds. *)
Definition hva2gpa_slot (hva_num length : Z) (mslot : mac_slot)
  : option (Z * Z) :=
  if negb (present mslot) then None else
  let hva_start_num := hva mslot in
  if (hva_start_num <=? hva_num)
     && (hva_num <? u64 (hva_start_num + mac_size mslot))
  then Some (u64 (gpa_start mslot + u64 (hva_num - hva_start_num)),
             Z.min length (u64 (mac_size mslot - u64 (hva_num - hva_start_num))))
  else if (u64 (hva_num + length) <=? u64 (hva_start_num + mac_size mslot))
          && (hva_start_num <? u64 (hva_num + length))
  then Some (gpa_start mslot, u64 (u64 (hva_num + length) - hva_start_num))
  else if (u64 (hva_start_num + mac_size mslot) <? u64 (hva_num + length))
          && (hva_num <? hva_start_num)
  then Some (gpa_start mslot, mac_size mslot)
  else None.

Fixpoint hva2gpa_from (l : list mac_slot) (hva_num length : Z)
  : list (Z * Z) :=
  match l with
  | [] => []
  | mslot :: l' =>
      match hva2gpa_slot hva_num length mslot with
      | Some f => f :: hva2gpa_from l' hva_num length
      | None => hva2gpa_from l' hva_num length
      end
  end.

(** hvf_hva2gpa: the returned count, and the entries written to the
    caller's [gpa]/[size] arrays (only the first [array_size] are stored). *)
Definition hvf_hva2gpa (st : hvf_mem) (hva_num length : Z) (array_size : nat)
  : nat * list (Z * Z) :=
  let all := hva2gpa_from (mac_slots st) hva_num length in
  (List.length all, take array_size all).

(** MemoryRegionSection, with what the file reads of its MemoryRegion:
    memory_region_is_ram, memory_region_is_user_backed,
    memory_region_get_ram_ptr. *)
Record MemoryRegionSection : Type := {
  mr_is_ram : bool;
  mr_is_user_backed : bool;
  mr_ram_ptr : Z;
  offset_within_region : Z;
  offset_within_address_space : Z;
  section_size : Z
}.

Section HardwareLayer.

(** The status the hardware layer returns for a call, given the calls made
    before it. *)
Variable hv_status : list hv_call -> hv_call -> Z.

Definition M (A : Type) : Type := prog hvf_mem A.

Definition hv (c : hv_call) : M Z := fun st =>
  Returned (hv_status (hv_log st) c)
           {| slots := slots st; mac_slots := mac_slots st;
              hv_log := hv_log st ++ [c] |}.

(** assert_hvf_ok: qemu_abort unless the status is HV_SUCCESS. *)
Definition assert_hvf_ok (r : Z) : M unit :=
  if r =? HV_SUCCESS then ret tt else abort.

Definition read_slot (i : nat) : M hvf_slot := fun st => Returned (slot_at st i) st.

Definition write_slot (i : nat) (s : hvf_slot) : M unit := fun st =>
  Returned tt (with_slots <[i := s]> st).

Definition read_mac (i : nat) : M mac_slot := fun st => Returned (mac_at st i) st.

Definition write_mac (i : nat) (m : mac_slot) : M unit := fun st =>
  Returned tt (with_mac_slots <[i := m]> st).

Definition find_overlap_slot (start end_ : Z) : M (option nat) := fun st =>
  Returned (hvf_find_overlap_slot st start end_) st.

Definition next_free_slot : M (option nat) := fun st =>
  Returned (hvf_next_free_slot st) st.

(** __hvf_set_memory_with_flags_locked(slot, flags); [slot] is the index the
    pointer designates. *)
Definition __hvf_set_memory_with_flags_locked (slot : nat) (flags : Z) : M Z :=
  let* s := read_slot slot in
  let* macslot := read_mac (slot_id s) in
  (if present macslot && negb (mac_size macslot =? slot_size s)
   then write_mac (slot_id s) (set_present false macslot);;
        let* unmapres := hv (hv_vm_unmap (gpa_start macslot) (mac_size macslot)) in
        assert_hvf_ok unmapres
   else ret tt);;
  if slot_size s =? 0 then ret 0 else
  let* macslot := read_mac (slot_id s) in
  write_mac (slot_id s)
    {| present := true; mac_size := slot_size s; gpa_start := slot_start s;
       gva := gva macslot; hva := slot_mem s |};;
  let* mapres := hv (hv_vm_map (slot_mem s) (slot_start s) (slot_size s) flags) in
  assert_hvf_ok mapres;;
  ret 0.

(** __hvf_set_memory(slot) *)
Definition __hvf_set_memory (slot : nat) : M Z :=
  __hvf_set_memory_with_flags_locked slot HV_MEMORY_RWX.

(** The tail of hvf_map_safe, from [mem = hvf_next_free_slot()] on.  A NULL
    [mem] (an empty table) is a fault on the first dereference. *)
Definition map_into_free_slot (uva gpa size flags : Z) : M Z :=
  let* mem := next_free_slot in
  match mem with
  | None => abort
  | Some mem =>
      let* s := read_slot mem in
      if negb (slot_size s =? 0) then abort else
      write_slot mem (fill_slot uva gpa size s);;
      let* res := __hvf_set_memory_with_flags_locked mem flags in
      ret res
  end.

(** hvf_map_safe(hva, gpa, size, flags) *)
Definition hvf_map_safe (uva gpa size flags : Z) : M Z :=
  let* mem := find_overlap_slot gpa (u64 (gpa + size)) in
  match mem with
  | Some mem =>
      let* s := read_slot mem in
      if (slot_mem s =? uva) && (slot_start s =? gpa) && (slot_size s =? size)
      then ret HV_SUCCESS
      else if (slot_start s =? gpa) && (slot_size s =? size)
      then write_slot mem (set_size 0 s);;
           __hvf_set_memory_with_flags_locked mem 0;;
           map_into_free_slot uva gpa size flags
      else abort
  | None => map_into_free_slot uva gpa size flags
  end.

(** hvf_unmap_safe(gpa, size) *)
Definition hvf_unmap_safe (gpa size : Z) : M Z :=
  let* mem := find_overlap_slot gpa (u64 (gpa + size)) in
  match mem with
  | Some mem =>
      let* s := read_slot mem in
      if negb (slot_start s =? gpa) || negb (slot_size s =? size)
      then abort
      else write_slot mem (set_size 0 s);;
           let* res := __hvf_set_memory_with_flags_locked mem 0 in
           ret res
  | None => ret 0
  end.

(** hvf_protect_safe(gpa, size, flags) *)
Definition hvf_protect_safe (gpa size flags : Z) : M Z :=
  hv (hv_vm_protect gpa size flags).

(** hvf_remap_safe(hva, gpa, size, flags); check_hvf_ok only prints. *)
Definition hvf_remap_safe (uva gpa size flags : Z) : M Z :=
  hv (hv_vm_unmap gpa size);;
  hv (hv_vm_map uva gpa size flags).

(** hvf_set_phys_mem(section, add) *)
Definition hvf_set_phys_mem (section : MemoryRegionSection) (add : bool) : M unit :=
  if negb (mr_is_ram section) then ret tt else
  if mr_is_user_backed section then ret tt else
  let gpa := offset_within_address_space section in
  let size := section_size section in
  let ptr := u64 (mr_ram_ptr section + offset_within_region section) in
  let* mem := find_overlap_slot gpa (u64 (gpa + size)) in
  let* same :=
    match mem with
    | Some mem =>
        let* s := read_slot mem in
        ret (add && (slot_size s =? size) && (slot_start s =? gpa)
             && (slot_mem s =? ptr))
    | None => ret false
    end in
  if same then ret tt else
  match mem with
  | Some mem =>
      let* s := read_slot mem in
      write_slot mem (set_size 0 s);;
      let* r := __hvf_set_memory mem in
      if negb (r =? 0) then abort else ret tt
  | None => ret tt
  end;;
  if negb add then ret tt else
  let* mem := next_free_slot in
  match mem with
  | None => abort
  | Some mem =>
      let* s := read_slot mem in
      write_slot mem (fill_slot ptr gpa size s);;
      let* r := __hvf_set_memory mem in
      if negb (r =? 0) then abort else ret tt
  end.

(** hvf_region_add / hvf_region_del *)
Definition hvf_region_add (section : MemoryRegionSection) : M unit :=
  hvf_set_phys_mem section true.

Definition hvf_region_del (section : MemoryRegionSection) : M unit :=
  hvf_set_phys_mem section false.

(** The four ways the slot table is changed. *)
Inductive mem_op : Type :=
| op_map (uva gpa size flags : Z)
| op_unmap (gpa size : Z)
| op_region_add (section : MemoryRegionSection)
| op_region_del (section : MemoryRegionSection).

Definition run_op (op : mem_op) : M unit :=
  match op with
  | op_map uva gpa size flags => hvf_map_safe uva gpa size flags;; ret tt
  | op_unmap gpa size => hvf_unmap_safe gpa size;; ret tt
  | op_region_add section => hvf_region_add section
  | op_region_del section => hvf_region_del section
  end.

Fixpoint run_ops (ops : list mem_op) : M unit :=
  match ops with
  | [] => ret tt
  | op :: ops' => run_op op;; run_ops ops'
  end.

End HardwareLayer.

End Mem.

(** ** vCPU registers and exits *)

Module Cpu.

(** *** Syndrome layout.  [esr.h] is not among the sources: these are the
    ARMv8 ESR_ELx fields the file decodes, at their architectural bits. *)
Definition ESR_ELx_EC_SHIFT : Z := 26.
Definition ESR_ELx_EC_MASK : Z := Z.shiftl 0x3F 26.
Definition ESR_ELx_EC (esr : Z) : Z :=
  Z.shiftr (Z.land esr ESR_ELx_EC_MASK) ESR_ELx_EC_SHIFT.

Definition ESR_ELx_EC_WFx : Z := 0x01.
Definition ESR_ELx_EC_CP15_32 : Z := 0x03.
Definition ESR_ELx_EC_CP15_64 : Z := 0x04.
Definition ESR_ELx_EC_CP14_MR : Z := 0x05.
Definition ESR_ELx_EC_CP14_LS : Z := 0x06.
Definition ESR_ELx_EC_CP14_64 : Z := 0x0C.
Definition ESR_ELx_EC_HVC32 : Z := 0x12.
Definition ESR_ELx_EC_SMC32 : Z := 0x13.
Definition ESR_ELx_EC_HVC64 : Z := 0x16.
Definition ESR_ELx_EC_SMC64 : Z := 0x17.
Definition ESR_ELx_EC_SYS64 : Z := 0x18.
Definition ESR_ELx_EC_IABT_LOW : Z := 0x20.
Definition ESR_ELx_EC_DABT_LOW : Z := 0x24.
Definition ESR_ELx_EC_BREAKPT_LOW : Z := 0x30.
Definition ESR_ELx_EC_SOFTSTP_LOW : Z := 0x32.
Definition ESR_ELx_EC_WATCHPT_LOW : Z := 0x34.
Definition ESR_ELx_EC_BKPT32 : Z := 0x38.
Definition ESR_ELx_EC_BRK64 : Z := 0x3C.

Definition ESR_ELx_ISV : Z := Z.shiftl 1 24.
Definition ESR_ELx_SAS_SHIFT : Z := 22.
Definition ESR_ELx_SAS : Z := Z.shiftl 3 22.
Definition ESR_ELx_SSE : Z := Z.shiftl 1 21.
Definition ESR_ELx_SRT_SHIFT : Z := 16.
Definition ESR_ELx_SRT_MASK : Z := Z.shiftl 0x1F 16.
Definition ESR_ELx_EA : Z := Z.shiftl 1 9.
Definition ESR_ELx_CM : Z := Z.shiftl 1 8.
Definition ESR_ELx_S1PTW : Z := Z.shiftl 1 7.
Definition ESR_ELx_WNR : Z := Z.shiftl 1 6.
Definition ESR_ELx_FSC_TYPE : Z := 0x3C.
Definition ESR_ELx_FSC_ACCESS : Z := 0x08.

Definition ESR_ELx_SYS64_ISS_DIR_MASK : Z := 0x1.
Definition ESR_ELx_SYS64_ISS_DIR_WRITE : Z := 0x0.
Definition ESR_ELx_SYS64_ISS_RT_SHIFT : Z := 5.
Definition ESR_ELx_SYS64_ISS_RT_MASK : Z := Z.shiftl 0x1F 5.
Definition ESR_ELx_SYS64_ISS_SYS_MASK : Z := 0x3FFC1E.

(** PSTATE bits of the emulator's cpu.h. *)
Definition PSTATE_SP : Z := 1.
Definition PSTATE_nRW : Z := Z.shiftl 1 4.

(** hv_exit_reason_t *)
Definition HV_EXIT_REASON_CANCELED : Z := 0.
Definition HV_EXIT_REASON_EXCEPTION : Z := 1.
Definition HV_EXIT_REASON_VTIMER_ACTIVATED : Z := 2.

(** *** The register names of the hardware layer *)

Inductive hv_reg_t : Type :=
| HV_REG_X0 | HV_REG_X1 | HV_REG_X2 | HV_REG_X3 | HV_REG_X4 | HV_REG_X5
| HV_REG_X6 | HV_REG_X7 | HV_REG_X8 | HV_REG_X9 | HV_REG_X10 | HV_REG_X11
| HV_REG_X12 | HV_REG_X13 | HV_REG_X14 | HV_REG_X15 | HV_REG_X16 | HV_REG_X17
| HV_REG_X18 | HV_REG_X19 | HV_REG_X20 | HV_REG_X21 | HV_REG_X22 | HV_REG_X23
| HV_REG_X24 | HV_REG_X25 | HV_REG_X26 | HV_REG_X27 | HV_REG_X28 | HV_REG_X29
| HV_REG_X30 | HV_REG_PC | HV_REG_FPCR | HV_REG_FPSR | HV_REG_CPSR.

Inductive hv_simd_fp_reg_t : Type :=
| HV_SIMD_FP_REG_Q0 | HV_SIMD_FP_REG_Q1 | HV_SIMD_FP_REG_Q2 | HV_SIMD_FP_REG_Q3
| HV_SIMD_FP_REG_Q4 | HV_SIMD_FP_REG_Q5 | HV_SIMD_FP_REG_Q6 | HV_SIMD_FP_REG_Q7
| HV_SIMD_FP_REG_Q8 | HV_SIMD_FP_REG_Q9 | HV_SIMD_FP_REG_Q10 | HV_SIMD_FP_REG_Q11
| HV_SIMD_FP_REG_Q12 | HV_SIMD_FP_REG_Q13 | HV_SIMD_FP_REG_Q14 | HV_SIMD_FP_REG_Q15
| HV_SIMD_FP_REG_Q16 | HV_SIMD_FP_REG_Q17 | HV_SIMD_FP_REG_Q18 | HV_SIMD_FP_REG_Q19
| HV_SIMD_FP_REG_Q20 | HV_SIMD_FP_REG_Q21 | HV_SIMD_FP_REG_Q22 | HV_SIMD_FP_REG_Q23
| HV_SIMD_FP_REG_Q24 | HV_SIMD_FP_REG_Q25 | HV_SIMD_FP_REG_Q26 | HV_SIMD_FP_REG_Q27
| HV_SIMD_FP_REG_Q28 | HV_SIMD_FP_REG_Q29 | HV_SIMD_FP_REG_Q30 | HV_SIMD_FP_REG_Q31.

Inductive hv_sys_reg_t : Type :=
| HV_SYS_REG_SP_EL0 | HV_SYS_REG_SP_EL1 | HV_SYS_REG_ELR_EL1 | HV_SYS_REG_SPSR_EL1
| HV_SYS_REG_APDAKEYHI_EL1 | HV_SYS_REG_APDAKEYLO_EL1
| HV_SYS_REG_APDBKEYHI_EL1 | HV_SYS_REG_APDBKEYLO_EL1
| HV_SYS_REG_APGAKEYHI_EL1 | HV_SYS_REG_APGAKEYLO_EL1
| HV_SYS_REG_APIAKEYHI_EL1 | HV_SYS_REG_APIAKEYLO_EL1
| HV_SYS_REG_APIBKEYHI_EL1 | HV_SYS_REG_APIBKEYLO_EL1
| HV_SYS_REG_CNTKCTL_EL1 | HV_SYS_REG_CNTV_CVAL_EL0 | HV_SYS_REG_CONTEXTIDR_EL1
| HV_SYS_REG_CPACR_EL1 | HV_SYS_REG_CSSELR_EL1 | HV_SYS_REG_ESR_EL1
| HV_SYS_REG_FAR_EL1 | HV_SYS_REG_MAIR_EL1 | HV_SYS_REG_MDSCR_EL1
| HV_SYS_REG_PAR_EL1 | HV_SYS_REG_SCTLR_EL1 | HV_SYS_REG_TCR_EL1
| HV_SYS_REG_TPIDRRO_EL0 | HV_SYS_REG_TPIDR_EL0 | HV_SYS_REG_TPIDR_EL1
| HV_SYS_REG_TTBR0_EL1 | HV_SYS_REG_TTBR1_EL1 | HV_SYS_REG_VBAR_EL1.

Definition hv_reg_eq_dec (a b : hv_reg_t) : {a = b} + {a <> b}.
Proof. decide equality. Defined.

Definition hv_simd_fp_reg_eq_dec (a b : hv_simd_fp_reg_t) : {a = b} + {a <> b}.
Proof. decide equality. Defined.

Definition hv_sys_reg_eq_dec (a b : hv_sys_reg_t) : {a = b} + {a <> b}.
Proof. decide equality. Defined.

(** The fields of CPUARMState the transfer reads and writes besides xregs,
    pc, pstate and the vector registers: sp_el[0], sp_el[1], elr_el[1],
    banked_spsr[aarch64_banked_spsr_index(1)], keys.*, cp15.*. *)
Inductive env_field : Type :=
| sp_el_0 | sp_el_1 | elr_el_1 | banked_spsr_el1
| keys_apda_hi | keys_apda_lo | keys_apdb_hi | keys_apdb_lo
| keys_apga_hi | keys_apga_lo | keys_apia_hi | keys_apia_lo
| keys_apib_hi | keys_apib_lo
| cp15_c14_cntkctl | cp15_contextidr_el_1 | cp15_cpacr_el1 | cp15_csselr_el_1
| cp15_esr_el_1 | cp15_far_el_1 | cp15_mair_el_1 | cp15_mdscr_el1
| cp15_par_el_1 | cp15_sctlr_el_1 | cp15_tcr_el_1_raw_tcr
| cp15_tpidrro_el_0 | cp15_tpidr_el_0 | cp15_tpidr_el_1
| cp15_ttbr0_el_1 | cp15_ttbr1_el_1 | cp15_vbar_el_1.

Definition env_field_eq_dec (a b : env_field) : {a = b} + {a <> b}.
Proof. decide equality. Defined.

(** CPUARMState *)
Record CPUARMState : Type := {
  xregs : list Z;
  pc : Z;
  pstate : Z;
  vfp_zregs : list Z;
  fpsr : Z;
  fpcr : Z;
  field : env_field -> Z
}.

(** The per-vCPU context of the hardware layer behind [cpu->hvf_fd]. *)
Record hv_vcpu : Type := {
  reg : hv_reg_t -> Z;
  sys_reg : hv_sys_reg_t -> Z;
  simd_fp_reg : hv_simd_fp_reg_t -> Z;
  pending_irq : bool;
  pending_fiq : bool
}.

(** hv_vcpu_exit_t, with its exception record inline. *)
Record hv_vcpu_exit_t : Type := {
  reason : Z;
  syndrome : Z;
  virtual_address : Z;
  physical_address : Z
}.

(** A transaction on the memory bus: address_space_rw on
    address_space_memory, and the virtual timer line. *)
Inductive bus_event : Type :=
| bus_read (gpa : Z) (len : Z)
| bus_write (gpa : Z) (len : Z) (data : list Z)
| vtimer_irq (level : Z).

(** CPUState, as far as the file uses it. *)
Record CPUState : Type := {
  env : CPUARMState;
  hvf_fd : hv_vcpu;
  hvf_vcpu_exit_info : hv_vcpu_exit_t;
  hvf_vcpu_dirty : bool;
  hvf_irq_pending : bool;
  hvf_fiq_pending : bool;
  bus_log : list bus_event
}.

Definition with_env (f : CPUARMState -> CPUARMState) (c : CPUState) : CPUState :=
  {| env := f (env c); hvf_fd := hvf_fd c;
     hvf_vcpu_exit_info := hvf_vcpu_exit_info c;
     hvf_vcpu_dirty := hvf_vcpu_dirty c; hvf_irq_pending := hvf_irq_pending c;
     hvf_fiq_pending := hvf_fiq_pending c; bus_log := bus_log c |}.

Definition with_fd (f : hv_vcpu -> hv_vcpu) (c : CPUState) : CPUState :=
  {| env := env c; hvf_fd := f (hvf_fd c);
     hvf_vcpu_exit_info := hvf_vcpu_exit_info c;
     hvf_vcpu_dirty := hvf_vcpu_dirty c; hvf_irq_pending := hvf_irq_pending c;
     hvf_fiq_pending := hvf_fiq_pending c; bus_log := bus_log c |}.

Definition set_dirty (b : bool) (c : CPUState) : CPUState :=
  {| env := env c; hvf_fd := hvf_fd c;
     hvf_vcpu_exit_info := hvf_vcpu_exit_info c;
     hvf_vcpu_dirty := b; hvf_irq_pending := hvf_irq_pending c;
     hvf_fiq_pending := hvf_fiq_pending c; bus_log := bus_log c |}.

Definition log_bus (e : bus_event) (c : CPUState) : CPUState :=
  {| env := env c; hvf_fd := hvf_fd c;
     hvf_vcpu_exit_info := hvf_vcpu_exit_info c;
     hvf_vcpu_dirty := hvf_vcpu_dirty c; hvf_irq_pending := hvf_irq_pending c;
     hvf_fiq_pending := hvf_fiq_pending c; bus_log := bus_log c ++ [e] |}.

Definition set_xregs (v : list Z) (e : CPUARMState) : CPUARMState :=
  {| xregs := v; pc := pc e; pstate := pstate e; vfp_zregs := vfp_zregs e;
     fpsr := fpsr e; fpcr := fpcr e; field := field e |}.

Definition set_pc (v : Z) (e : CPUARMState) : CPUARMState :=
  {| xregs := xregs e; pc := v; pstate := pstate e; vfp_zregs := vfp_zregs e;
     fpsr := fpsr e; fpcr := fpcr e; field := field e |}.

Definition set_pstate (v : Z) (e : CPUARMState) : CPUARMState :=
  {| xregs := xregs e; pc := pc e; pstate := v; vfp_zregs := vfp_zregs e;
     fpsr := fpsr e; fpcr := fpcr e; field := field e |}.

Definition set_vfp_zregs (v : list Z) (e : CPUARMState) : CPUARMState :=
  {| xregs := xregs e; pc := pc e; pstate := pstate e; vfp_zregs := v;
     fpsr := fpsr e; fpcr := fpcr e; field := field e |}.

Definition set_fpsr (v : Z) (e : CPUARMState) : CPUARMState :=
  {| xregs := xregs e; pc := pc e; pstate := pstate e; vfp_zregs := vfp_zregs e;
     fpsr := v; fpcr := fpcr e; field := field e |}.

Definition set_fpcr (v : Z) (e : CPUARMState) : CPUARMState :=
  {| xregs := xregs e; pc := pc e; pstate := pstate e; vfp_zregs := vfp_zregs e;
     fpsr := fpsr e; fpcr := v; field := field e |}.

Definition set_field (f : env_field) (v : Z) (e : CPUARMState) : CPUARMState :=
  {| xregs := xregs e; pc := pc e; pstate := pstate e; vfp_zregs := vfp_zregs e;
     fpsr := fpsr e; fpcr := fpcr e;
     field := fun g => if env_field_eq_dec f g then v else field e g |}.

Definition set_reg (r : hv_reg_t) (v : Z) (h : hv_vcpu) : hv_vcpu :=
  {| reg := fun r' => if hv_reg_eq_dec r r' then v else reg h r';
     sys_reg := sys_reg h; simd_fp_reg := simd_fp_reg h;
     pending_irq := pending_irq h; pending_fiq := pending_fiq h |}.

Definition set_sys_reg (r : hv_sys_reg_t) (v : Z) (h : hv_vcpu) : hv_vcpu :=
  {| reg := reg h;
     sys_reg := fun r' => if hv_sys_reg_eq_dec r r' then v else sys_reg h r';
     simd_fp_reg := simd_fp_reg h;
     pending_irq := pending_irq h; pending_fiq := pending_fiq h |}.

Definition set_simd_fp_reg (r : hv_simd_fp_reg_t) (v : Z) (h : hv_vcpu) : hv_vcpu :=
  {| reg := reg h; sys_reg := sys_reg h;
     simd_fp_reg := fun r' => if hv_simd_fp_reg_eq_dec r r' then v
                              else simd_fp_reg h r';
     pending_irq := pending_irq h; pending_fiq := pending_fiq h |}.

Definition set_pending (irq fiq : bool) (h : hv_vcpu) : hv_vcpu :=
  {| reg := reg h; sys_reg := sys_reg h; simd_fp_reg := simd_fp_reg h;
     pending_irq := irq; pending_fiq := fiq |}.

Definition xreg (e : CPUARMState) (i : nat) : Z := default 0 (xregs e !! i).
Definition qreg (e : CPUARMState) (i : nat) : Z := default 0 (vfp_zregs e !! i).

Definition M (A : Type) : Type := prog CPUState A.

Definition get_env : M CPUARMState := fun c => Returned (env c) c.

Definition modify_env (f : CPUARMState -> CPUARMState) : M unit :=
  fun c => Returned tt (with_env f c).

Definition get_exit_info : M hv_vcpu_exit_t :=
  fun c => Returned (hvf_vcpu_exit_info c) c.

(** The register accessors of the hardware layer; a vCPU context keeps what
    was last set. *)
Definition hv_vcpu_set_reg (r : hv_reg_t) (v : Z) : M unit :=
  fun c => Returned tt (with_fd (set_reg r v) c).
Definition hv_vcpu_get_reg (r : hv_reg_t) : M Z :=
  fun c => Returned (reg (hvf_fd c) r) c.
Definition hv_vcpu_set_sys_reg (r : hv_sys_reg_t) (v : Z) : M unit :=
  fun c => Returned tt (with_fd (set_sys_reg r v) c).
Definition hv_vcpu_get_sys_reg (r : hv_sys_reg_t) : M Z :=
  fun c => Returned (sys_reg (hvf_fd c) r) c.
Definition hv_vcpu_set_simd_fp_reg (r : hv_simd_fp_reg_t) (v : Z) : M unit :=
  fun c => Returned tt (with_fd (set_simd_fp_reg r v) c).
Definition hv_vcpu_get_simd_fp_reg (r : hv_simd_fp_reg_t) : M Z :=
  fun c => Returned (simd_fp_reg (hvf_fd c) r) c.

Fixpoint for_each {A : Type} (l : list A) (body : A -> M unit) : M unit :=
  match l with
  | [] => ret tt
  | x :: l' => body x;; for_each l' body
  end.

(** regno_to_hv_xreg *)
Definition regno_to_hv_xreg (i : nat) : hv_reg_t :=
  match i with
  | 0 => HV_REG_X0 | 1 => HV_REG_X1 | 2 => HV_REG_X2 | 3 => HV_REG_X3
  | 4 => HV_REG_X4 | 5 => HV_REG_X5 | 6 => HV_REG_X6 | 7 => HV_REG_X7
  | 8 => HV_REG_X8 | 9 => HV_REG_X9 | 10 => HV_REG_X10 | 11 => HV_REG_X11
  | 12 => HV_REG_X12 | 13 => HV_REG_X13 | 14 => HV_REG_X14 | 15 => HV_REG_X15
  | 16 => HV_REG_X16 | 17 => HV_REG_X17 | 18 => HV_REG_X18 | 19 => HV_REG_X19
  | 20 => HV_REG_X20 | 21 => HV_REG_X21 | 22 => HV_REG_X22 | 23 => HV_REG_X23
  | 24 => HV_REG_X24 | 25 => HV_REG_X25 | 26 => HV_REG_X26 | 27 => HV_REG_X27
  | 28 => HV_REG_X28 | 29 => HV_REG_X29 | 30 => HV_REG_X30
  | _ => HV_REG_X30
  end%nat.

(** regno_to_hv_simd_fp_reg_type, case by case as written (the switch has no
    default; it is only called with i < 32). *)
Definition regno_to_hv_simd_fp_reg_type (i : nat) : hv_simd_fp_reg_t :=
  match i with
  | 0 => HV_SIMD_FP_REG_Q0 | 1 => HV_SIMD_FP_REG_Q1
  | 2 => HV_SIMD_FP_REG_Q2 | 3 => HV_SIMD_FP_REG_Q3
  | 4 => HV_SIMD_FP_REG_Q4 | 5 => HV_SIMD_FP_REG_Q5
  | 6 => HV_SIMD_FP_REG_Q6 | 7 => HV_SIMD_FP_REG_Q7
  | 8 => HV_SIMD_FP_REG_Q8 | 9 => HV_SIMD_FP_REG_Q9
  | 10 => HV_SIMD_FP_REG_Q10 | 11 => HV_SIMD_FP_REG_Q11
  | 12 => HV_SIMD_FP_REG_Q12 | 13 => HV_SIMD_FP_REG_Q13
  | 14 => HV_SIMD_FP_REG_Q14 | 15 => HV_SIMD_FP_REG_Q15
  | 16 => HV_SIMD_FP_REG_Q16 | 17 => HV_SIMD_FP_REG_Q17
  | 18 => HV_SIMD_FP_REG_Q18 | 19 => HV_SIMD_FP_REG_Q19
  | 20 => HV_SIMD_FP_REG_Q20 | 21 => HV_SIMD_FP_REG_Q21
  | 22 => HV_SIMD_FP_REG_Q22 | 23 => HV_SIMD_FP_REG_Q23
  | 24 => HV_SIMD_FP_REG_Q24 | 25 => HV_SIMD_FP_REG_Q25
  | 26 => HV_SIMD_FP_REG_Q26 | 27 => HV_SIMD_FP_REG_Q27
  | 28 => HV_SIMD_FP_REG_Q28 | 29 => HV_SIMD_FP_REG_Q29
  | 30 => HV_SIMD_FP_REG_Q20
  | _ => HV_SIMD_FP_REG_Q31
  end%nat.

(** *** Helpers of the emulator's CPU model.  They are declared in
    internals.h and cpu.h, which are not among the sources; the processor
    state and the FP status and control words are kept as one value each. *)

(** Modelled from the spec: pstate_read is absent from the sources; the
    catalog lists the processor state as one register. *)
Definition pstate_read (e : CPUARMState) : Z := pstate e.

(** Modelled from the spec: pstate_write is absent from the sources. *)
Definition pstate_write (val : Z) (e : CPUARMState) : CPUARMState :=
  set_pstate val e.

(** Modelled from the spec: vfp_get_fpsr, vfp_set_fpsr, vfp_get_fpcr and
    vfp_set_fpcr are absent from the sources; the catalog lists the SIMD/FP
    status and control as one register each. *)
Definition vfp_get_fpsr (e : CPUARMState) : Z := fpsr e.
Definition vfp_set_fpsr (val : Z) (e : CPUARMState) : CPUARMState := set_fpsr val e.
Definition vfp_get_fpcr (e : CPUARMState) : Z := fpcr e.
Definition vfp_set_fpcr (val : Z) (e : CPUARMState) : CPUARMState := set_fpcr val e.

Definition sp_el (el : nat) : env_field :=
  match el with 0%nat => sp_el_0 | _ => sp_el_1 end.

(** Modelled from the spec: aarch64_save_sp is absent from the sources; the
    catalog keeps a stack pointer per privilege level, and the file's comment
    says the current one is also kept in xregs[31].  The stack pointer in use
    is stored to its per-level copy. *)
Definition aarch64_save_sp (el : nat) (e : CPUARMState) : CPUARMState :=
  if negb (Z.land (pstate e) PSTATE_SP =? 0)
  then set_field (sp_el el) (xreg e 31) e
  else set_field sp_el_0 (xreg e 31) e.

(** Modelled from the spec: aarch64_restore_sp is absent from the sources;
    the inverse of aarch64_save_sp. *)
Definition aarch64_restore_sp (el : nat) (e : CPUARMState) : CPUARMState :=
  if negb (Z.land (pstate e) PSTATE_SP =? 0)
  then set_xregs (<[31%nat := field e (sp_el el)]> (xregs e)) e
  else set_xregs (<[31%nat := field e sp_el_0]> (xregs e)) e.

Definition put_sys_reg (r : hv_sys_reg_t) (f : env_field) : M unit :=
  let* e := get_env in hv_vcpu_set_sys_reg r (field e f).

Definition get_sys_reg (r : hv_sys_reg_t) (f : env_field) : M unit :=
  let* v := hv_vcpu_get_sys_reg r in modify_env (set_field f v).

(** hvf_put_registers; HVF_CHECKED_CALL only prints on an error status. *)
Definition hvf_put_registers : M Z :=
  for_each (seq 0 31) (fun i =>
    let* e := get_env in hv_vcpu_set_reg (regno_to_hv_xreg i) (xreg e i));;
  modify_env (aarch64_save_sp 1);;
  put_sys_reg HV_SYS_REG_SP_EL0 sp_el_0;;
  put_sys_reg HV_SYS_REG_SP_EL1 sp_el_1;;
  (let* e := get_env in hv_vcpu_set_reg HV_REG_CPSR (pstate_read e));;
  (let* e := get_env in hv_vcpu_set_reg HV_REG_PC (pc e));;
  put_sys_reg HV_SYS_REG_ELR_EL1 elr_el_1;;
  put_sys_reg HV_SYS_REG_SPSR_EL1 banked_spsr_el1;;
  for_each (seq 0 32) (fun i =>
    let* e := get_env in
    hv_vcpu_set_simd_fp_reg (regno_to_hv_simd_fp_reg_type i) (qreg e i));;
  (let* e := get_env in hv_vcpu_set_reg HV_REG_FPSR (vfp_get_fpsr e));;
  (let* e := get_env in hv_vcpu_set_reg HV_REG_FPCR (vfp_get_fpcr e));;
  put_sys_reg HV_SYS_REG_APDAKEYHI_EL1 keys_apda_hi;;
  put_sys_reg HV_SYS_REG_APDAKEYLO_EL1 keys_apda_lo;;
  put_sys_reg HV_SYS_REG_APDBKEYHI_EL1 keys_apdb_hi;;
  put_sys_reg HV_SYS_REG_APDBKEYLO_EL1 keys_apdb_lo;;
  put_sys_reg HV_SYS_REG_APGAKEYHI_EL1 keys_apga_hi;;
  put_sys_reg HV_SYS_REG_APGAKEYLO_EL1 keys_apga_lo;;
  put_sys_reg HV_SYS_REG_APIAKEYHI_EL1 keys_apia_hi;;
  put_sys_reg HV_SYS_REG_APIAKEYLO_EL1 keys_apia_lo;;
  put_sys_reg HV_SYS_REG_APIBKEYHI_EL1 keys_apib_hi;;
  put_sys_reg HV_SYS_REG_APIBKEYLO_EL1 keys_apib_lo;;
  put_sys_reg HV_SYS_REG_CNTKCTL_EL1 cp15_c14_cntkctl;;
  put_sys_reg HV_SYS_REG_CONTEXTIDR_EL1 cp15_contextidr_el_1;;
  put_sys_reg HV_SYS_REG_CPACR_EL1 cp15_cpacr_el1;;
  put_sys_reg HV_SYS_REG_CSSELR_EL1 cp15_csselr_el_1;;
  put_sys_reg HV_SYS_REG_ESR_EL1 cp15_esr_el_1;;
  put_sys_reg HV_SYS_REG_FAR_EL1 cp15_far_el_1;;
  put_sys_reg HV_SYS_REG_MAIR_EL1 cp15_mair_el_1;;
  put_sys_reg HV_SYS_REG_MDSCR_EL1 cp15_mdscr_el1;;
  put_sys_reg HV_SYS_REG_PAR_EL1 cp15_par_el_1;;
  put_sys_reg HV_SYS_REG_SCTLR_EL1 cp15_sctlr_el_1;;
  put_sys_reg HV_SYS_REG_TCR_EL1 cp15_tcr_el_1_raw_tcr;;
  put_sys_reg HV_SYS_REG_TPIDRRO_EL0 cp15_tpidrro_el_0;;
  put_sys_reg HV_SYS_REG_TPIDR_EL0 cp15_tpidr_el_0;;
  put_sys_reg HV_SYS_REG_TPIDR_EL1 cp15_tpidr_el_1;;
  put_sys_reg HV_SYS_REG_TTBR0_EL1 cp15_ttbr0_el_1;;
  put_sys_reg HV_SYS_REG_TTBR1_EL1 cp15_ttbr1_el_1;;
  put_sys_reg HV_SYS_REG_VBAR_EL1 cp15_vbar_el_1;;
  ret 0.

(** hvf_get_registers; aborts when the hardware reports AArch32 state. *)
Definition hvf_get_registers : M Z :=
  for_each (seq 0 31) (fun i =>
    let* v := hv_vcpu_get_reg (regno_to_hv_xreg i) in
    modify_env (fun e => set_xregs (<[i := v]> (xregs e)) e));;
  get_sys_reg HV_SYS_REG_SP_EL0 sp_el_0;;
  get_sys_reg HV_SYS_REG_SP_EL1 sp_el_1;;
  let* val := hv_vcpu_get_reg HV_REG_CPSR in
  (if negb (Z.land val PSTATE_nRW =? 0) then abort else ret tt);;
  modify_env (pstate_write val);;
  modify_env (aarch64_restore_sp 1);;
  (let* v := hv_vcpu_get_reg HV_REG_PC in modify_env (set_pc v));;
  get_sys_reg HV_SYS_REG_ELR_EL1 elr_el_1;;
  get_sys_reg HV_SYS_REG_SPSR_EL1 banked_spsr_el1;;
  for_each (seq 0 32) (fun i =>
    let* v := hv_vcpu_get_simd_fp_reg (regno_to_hv_simd_fp_reg_type i) in
    modify_env (fun e => set_vfp_zregs (<[i := v]> (vfp_zregs e)) e));;
  (let* v := hv_vcpu_get_reg HV_REG_FPSR in
   modify_env (vfp_set_fpsr (v mod 2 ^ 32)));;
  (let* v := hv_vcpu_get_reg HV_REG_FPCR in
   modify_env (vfp_set_fpcr (v mod 2 ^ 32)));;
  get_sys_reg HV_SYS_REG_APDAKEYHI_EL1 keys_apda_hi;;
  get_sys_reg HV_SYS_REG_APDAKEYLO_EL1 keys_apda_lo;;
  get_sys_reg HV_SYS_REG_APDBKEYHI_EL1 keys_apdb_hi;;
  get_sys_reg HV_SYS_REG_APDBKEYLO_EL1 keys_apdb_lo;;
  get_sys_reg HV_SYS_REG_APGAKEYHI_EL1 keys_apga_hi;;
  get_sys_reg HV_SYS_REG_APGAKEYLO_EL1 keys_apga_lo;;
  get_sys_reg HV_SYS_REG_APIAKEYHI_EL1 keys_apia_hi;;
  get_sys_reg HV_SYS_REG_APIAKEYLO_EL1 keys_apia_lo;;
  get_sys_reg HV_SYS_REG_APIBKEYHI_EL1 keys_apib_hi;;
  get_sys_reg HV_SYS_REG_APIBKEYLO_EL1 keys_apib_lo;;
  get_sys_reg HV_SYS_REG_CNTKCTL_EL1 cp15_c14_cntkctl;;
  get_sys_reg HV_SYS_REG_CONTEXTIDR_EL1 cp15_contextidr_el_1;;
  get_sys_reg HV_SYS_REG_CPACR_EL1 cp15_cpacr_el1;;
  get_sys_reg HV_SYS_REG_CSSELR_EL1 cp15_csselr_el_1;;
  get_sys_reg HV_SYS_REG_ESR_EL1 cp15_esr_el_1;;
  get_sys_reg HV_SYS_REG_FAR_EL1 cp15_far_el_1;;
  get_sys_reg HV_SYS_REG_MAIR_EL1 cp15_mair_el_1;;
  get_sys_reg HV_SYS_REG_MDSCR_EL1 cp15_mdscr_el1;;
  get_sys_reg HV_SYS_REG_PAR_EL1 cp15_par_el_1;;
  get_sys_reg HV_SYS_REG_SCTLR_EL1 cp15_sctlr_el_1;;
  get_sys_reg HV_SYS_REG_TCR_EL1 cp15_tcr_el_1_raw_tcr;;
  get_sys_reg HV_SYS_REG_TPIDRRO_EL0 cp15_tpidrro_el_0;;
  get_sys_reg HV_SYS_REG_TPIDR_EL0 cp15_tpidr_el_0;;
  get_sys_reg HV_SYS_REG_TPIDR_EL1 cp15_tpidr_el_1;;
  get_sys_reg HV_SYS_REG_TTBR0_EL1 cp15_ttbr0_el_1;;
  get_sys_reg HV_SYS_REG_TTBR1_EL1 cp15_ttbr1_el_1;;
  get_sys_reg HV_SYS_REG_VBAR_EL1 cp15_vbar_el_1;;
  ret 0.

(** *** Little-endian bytes of a C object *)

Fixpoint le_to_Z (bs : list Z) : Z :=
  match bs with
  | [] => 0
  | b :: bs' => b + 256 * le_to_Z bs'
  end.

Fixpoint Z_to_le (n : nat) (v : Z) : list Z :=
  match n with
  | O => []
  | S n' => v mod 256 :: Z_to_le n' (v / 256)
  end.

(** memcpy of [bs] over the start of [buf]. *)
Definition store_bytes (bs buf : list Z) : list Z :=
  bs ++ drop (length bs) buf.

Section Exits.

(** The bytes a bus read of [len] bytes at [gpa] delivers, given the
    transactions before it. *)
Variable bus_data : list bus_event -> Z -> Z -> list Z.

(** What the eight bytes of the local array [data_buf] of hvf_handle_mmio
    hold on entry: the array has no initialiser. *)
Variable data_buf_uninit : list Z.

(** arm_is_psci_call and arm_handle_psci_call belong to the emulator's PSCI
    code. *)
Variable arm_is_psci_call : CPUARMState -> bool.
Variable arm_handle_psci_call : CPUARMState -> CPUARMState.

(** hv_vcpu_run: status, vCPU context after the run, exit record. *)
Variable hv_vcpu_run : hv_vcpu -> Z * hv_vcpu * hv_vcpu_exit_t.

(** The slot table the abort handler consults. *)
Variable mem : Mem.hvf_mem.

(** address_space_rw(&address_space_memory, gpa, ..., buf, len, 0) *)
Definition address_space_read (gpa len : Z) : M (list Z) := fun c =>
  Returned (take (Z.to_nat len) (bus_data (bus_log c) gpa len))
           (log_bus (bus_read gpa len) c).

(** address_space_rw(&address_space_memory, gpa, ..., buf, len, 1) *)
Definition address_space_write (gpa len : Z) (data : list Z) : M unit := fun c =>
  Returned tt (log_bus (bus_write gpa len data) c).

(** hvf_skip_instr *)
Definition hvf_skip_instr : M unit :=
  modify_env (fun e => set_pc (u64 (pc e + 4)) e).

(** hvf_read_rt *)
Definition hvf_read_rt (c : CPUState) (rt : Z) : Z :=
  if rt =? 31 then 0 else xreg (env c) (Z.to_nat rt).

(** hvf_write_rt *)
Definition hvf_write_rt (rt : Z) (val : Z) : M unit := fun c =>
  if negb (rt =? 31)
  then Returned tt
         (with_env (fun e => set_xregs (<[Z.to_nat rt := val]> (xregs e)) e) c)
  else Returned tt c.

(** hvf_handle_wfx sleeps until the virtual timer deadline; it changes
    neither the registers nor the flags of the vCPU. *)
Definition hvf_handle_wfx : M unit := ret tt.

(** hvf_handle_cp, hvf_handle_smc, hvf_handle_guest_debug *)
Definition hvf_handle_cp : M unit := abort.
Definition hvf_handle_smc : M unit := abort.
Definition hvf_handle_guest_debug : M unit := abort.

(** hvf_handle_hvc *)
Definition hvf_handle_hvc : M unit :=
  let* e := get_env in
  if arm_is_psci_call e then modify_env arm_handle_psci_call
  else modify_env (fun e => set_xregs (<[0%nat := u64 (-1)]> (xregs e)) e).

(** hvf_vcpu_get_hsr: the syndrome as a uint32_t. *)
Definition hvf_vcpu_get_hsr (c : CPUState) : Z :=
  syndrome (hvf_vcpu_exit_info c) mod 2 ^ 32.

(** hvf_handle_sys_reg *)
Definition hvf_handle_sys_reg : M unit :=
  let* esr := (fun c => Returned (hvf_vcpu_get_hsr c) c) in
  let is_write :=
    Z.land esr ESR_ELx_SYS64_ISS_DIR_MASK =? ESR_ELx_SYS64_ISS_DIR_WRITE in
  let rt := Z.shiftr (Z.land esr ESR_ELx_SYS64_ISS_RT_MASK)
                     ESR_ELx_SYS64_ISS_RT_SHIFT in
  let sys := Z.land esr ESR_ELx_SYS64_ISS_SYS_MASK in
  (if (sys =? 0x280406) || (sys =? 0x280400)
   then if negb is_write then hvf_write_rt rt 0 else ret tt
   else abort);;
  hvf_skip_instr.

(** hvf_vcpu_dabt_get_as *)
Definition hvf_vcpu_dabt_get_as (c : CPUState) : Z :=
  Z.shiftl 1 (Z.shiftr (Z.land (hvf_vcpu_get_hsr c) ESR_ELx_SAS)
                       ESR_ELx_SAS_SHIFT).

(** hvf_vcpu_dabt_get_rd *)
Definition hvf_vcpu_dabt_get_rd (c : CPUState) : Z :=
  Z.shiftr (Z.land (hvf_vcpu_get_hsr c) ESR_ELx_SRT_MASK) ESR_ELx_SRT_SHIFT.

(** hvf_decode_hsr: (is_write, len, sign_extend, rt) *)
Definition hvf_decode_hsr : M (bool * Z * bool * Z) := fun c =>
  let esr := hvf_vcpu_get_hsr c in
  let is_extabt := negb (Z.land ESR_ELx_EA esr =? 0) in
  let is_ss1tw := negb (Z.land ESR_ELx_S1PTW esr =? 0) in
  if is_extabt then Aborted c else
  if is_ss1tw then Aborted c else
  let access_size := hvf_vcpu_dabt_get_as c in
  if access_size <? 0 then Aborted c else
  let is_write := negb (Z.land esr ESR_ELx_WNR =? 0) in
  let sign_extend := negb (Z.land esr ESR_ELx_SSE =? 0) in
  let rt := hvf_vcpu_dabt_get_rd c in
  match hvf_skip_instr c with
  | Returned _ c' => Returned (is_write, access_size, sign_extend, rt) c'
  | Aborted c' => Aborted c'
  end.

(** hvf_handle_mmio.  In the read path the cases 2 and 4 of the switch
    assign the masked value to [data], which is not read again ([None]
    stands for a [data] left unassigned); [val] goes to the register. *)
Definition hvf_handle_mmio : M unit :=
  let* info := get_exit_info in
  let gpa := physical_address info in
  let esr := syndrome info mod 2 ^ 32 in
  let dabt_valid := negb (Z.land esr ESR_ELx_ISV =? 0) in
  if negb dabt_valid then abort else
  let* d := hvf_decode_hsr in
  let '(is_write, len, sign_extend, rt) := d in
  if is_write
  then
    let* c := (fun c => Returned c c) in
    let guest_reg_val := hvf_read_rt c rt in
    let data :=
      if len =? 1 then Z.land guest_reg_val 0xff
      else if len =? 2 then Z.land guest_reg_val 0xffff
      else if len =? 4 then Z.land guest_reg_val 0xffffffff
      else guest_reg_val in
    address_space_write gpa len (Z_to_le (Z.to_nat len) data)
  else
    let* bytes := address_space_read gpa len in
    let data_buf := store_bytes bytes data_buf_uninit in
    let val := le_to_Z (take 8 data_buf) in
    let '(val, data) :=
      if len =? 1 then (Z.land val 0xff, None)
      else if len =? 2 then (val, Some (Z.land val 0xffff))
      else if len =? 4 then (val, Some (Z.land val 0xffffffff))
      else (val, None) in
    hvf_write_rt rt val.

(** hvf_handle_guest_abort *)
Definition hvf_handle_guest_abort (ec : Z) : M unit :=
  let* info := get_exit_info in
  let gpa := physical_address info in
  let slot := Mem.hvf_find_overlap_slot mem gpa (u64 (gpa + 1)) in
  let esr := syndrome info mod 2 ^ 32 in
  let fault_status := Z.land esr ESR_ELx_FSC_TYPE in
  let is_iabt := ESR_ELx_EC_IABT_LOW =? ec in
  let is_cm := negb (Z.land esr ESR_ELx_CM =? 0) in
  if ESR_ELx_FSC_ACCESS =? fault_status then abort else
  match slot with
  | None =>
      if is_iabt then abort else
      if is_cm then abort else
      hvf_handle_mmio
  | Some _ => abort
  end.

Definition ec_in (ec : Z) (l : list Z) : bool := existsb (Z.eqb ec) l.

(** hvf_handle_exception *)
Definition hvf_handle_exception : M unit :=
  hvf_get_registers;;
  let* info := get_exit_info in
  let ec := ESR_ELx_EC (syndrome info mod 2 ^ 32) in
  (if ec =? ESR_ELx_EC_WFx then hvf_handle_wfx
   else if ec_in ec [ESR_ELx_EC_CP15_32; ESR_ELx_EC_CP15_64; ESR_ELx_EC_CP14_MR;
                     ESR_ELx_EC_CP14_LS; ESR_ELx_EC_CP14_64]
   then hvf_handle_cp
   else if ec_in ec [ESR_ELx_EC_HVC32; ESR_ELx_EC_HVC64] then hvf_handle_hvc
   else if ec_in ec [ESR_ELx_EC_SMC32; ESR_ELx_EC_SMC64] then hvf_handle_smc
   else if ec =? ESR_ELx_EC_SYS64 then hvf_handle_sys_reg
   else if ec_in ec [ESR_ELx_EC_IABT_LOW; ESR_ELx_EC_DABT_LOW]
   then hvf_handle_guest_abort ec
   else if ec_in ec [ESR_ELx_EC_SOFTSTP_LOW; ESR_ELx_EC_WATCHPT_LOW;
                     ESR_ELx_EC_BREAKPT_LOW; ESR_ELx_EC_BKPT32; ESR_ELx_EC_BRK64]
   then hvf_handle_guest_debug
   else hvf_get_registers;; hvf_put_registers;; abort);;
  hvf_put_registers;;
  ret tt.

(** hvf_inject_interrupts *)
Definition hvf_inject_interrupts : M unit := fun c =>
  Returned tt (with_fd (set_pending (hvf_irq_pending c) (hvf_fiq_pending c)) c).

(** The body of the do-while loop of hvf_vcpu_exec up to the call of
    hv_vcpu_run: the state in which the hardware is entered. *)
Definition hvf_vcpu_exec_enter : M unit :=
  (let* c := (fun c => Returned c c) in
   if hvf_vcpu_dirty c
   then hvf_put_registers;; (fun c => Returned tt (set_dirty false c))
   else ret tt);;
  hvf_inject_interrupts;;
  let* pc := hv_vcpu_get_reg HV_REG_PC in
  address_space_read pc 8;;
  ret tt.

(** hv_vcpu_run and the test of its status. *)
Definition hvf_vcpu_exec_run : M unit := fun c =>
  let '(r, fd, info) := hv_vcpu_run (hvf_fd c) in
  let c' := {| env := env c; hvf_fd := fd; hvf_vcpu_exit_info := info;
               hvf_vcpu_dirty := hvf_vcpu_dirty c;
               hvf_irq_pending := hvf_irq_pending c;
               hvf_fiq_pending := hvf_fiq_pending c; bus_log := bus_log c |} in
  if negb (r =? 0) then Aborted c' else Returned tt c'.

(** The switch on the exit reason that ends the loop body. *)
Definition hvf_vcpu_exec_exit : M unit :=
  let* info := get_exit_info in
  if reason info =? HV_EXIT_REASON_CANCELED then ret tt
  else if reason info =? HV_EXIT_REASON_EXCEPTION
  then hvf_handle_exception;; (fun c => Returned tt (set_dirty true c))
  else if reason info =? HV_EXIT_REASON_VTIMER_ACTIVATED
  then (fun c => Returned tt (log_bus (vtimer_irq 1) c))
  else abort.

(** [n] turns of the loop of hvf_vcpu_exec ([ret] stays 0, so the loop only
    ends by an abort). *)
Fixpoint hvf_vcpu_exec_turns (n : nat) : M unit :=
  match n with
  | O => ret tt
  | S n' => hvf_vcpu_exec_enter;; hvf_vcpu_exec_run;; hvf_vcpu_exec_exit;;
            hvf_vcpu_exec_turns n'
  end.

End Exits.

(** *** The dirty-flag protocol.  [run_on_cpu] runs its callback on the
    thread of the vCPU and waits for it; it is modelled as the call. *)

(** __hvf_cpu_synchronize_state *)
Definition __hvf_cpu_synchronize_state : M unit :=
  (let* c := (fun c => Returned c c) in
   if negb (hvf_vcpu_dirty c) then hvf_get_registers;; ret tt else ret tt);;
  (fun c => Returned tt (set_dirty true c)).

(** hvf_cpu_synchronize_state *)
Definition hvf_cpu_synchronize_state : M unit :=
  let* c := (fun c => Returned c c) in
  if negb (hvf_vcpu_dirty c) then __hvf_cpu_synchronize_state else ret tt.

(** __hvf_cpu_synchronize_post_reset, hvf_cpu_synchronize_post_reset *)
Definition __hvf_cpu_synchronize_post_reset : M unit :=
  hvf_put_registers;; (fun c => Returned tt (set_dirty false c)).

Definition hvf_cpu_synchronize_post_reset : M unit :=
  __hvf_cpu_synchronize_post_reset.

(** _hvf_cpu_synchronize_post_init, hvf_cpu_synchronize_post_init *)
Definition _hvf_cpu_synchronize_post_init : M unit :=
  hvf_put_registers;; (fun c => Returned tt (set_dirty false c)).

Definition hvf_cpu_synchronize_post_init : M unit :=
  _hvf_cpu_synchronize_post_init.

(** hvf_cpu_clean_state *)
Definition hvf_cpu_clean_state : M unit :=
  fun c => Returned tt (set_dirty false c).

Definition set_irq_pending (irq fiq : bool) (c : CPUState) : CPUState :=
  {| env := env c; hvf_fd := hvf_fd c;
     hvf_vcpu_exit_info := hvf_vcpu_exit_info c;
     hvf_vcpu_dirty := hvf_vcpu_dirty c; hvf_irq_pending := irq;
     hvf_fiq_pending := fiq; bus_log := bus_log c |}.

Section InterruptLines.

(** The two case labels of the switch in hvf_vcpu_set_irq, from the
    emulator's cpu.h, and qemu_cpu_is_self. *)
Variable ARM_CPU_IRQ ARM_CPU_FIQ : Z.
Variable qemu_cpu_is_self : CPUState -> bool.

(** hvf_vcpu_set_irq; the result tells whether the vCPU was forced out of
    its run and kicked (hv_vcpus_exit, qemu_cpu_kick).  [level] is an int
    stored into a bool. *)
Definition hvf_vcpu_set_irq (irq level : Z) : M bool := fun c =>
  if irq =? ARM_CPU_IRQ
  then Returned (negb (hvf_irq_pending c) && negb (level =? 0)
                 && negb (qemu_cpu_is_self c))
                (set_irq_pending (negb (level =? 0)) (hvf_fiq_pending c) c)
  else if irq =? ARM_CPU_FIQ
  then Returned (negb (hvf_fiq_pending c) && negb (level =? 0)
                 && negb (qemu_cpu_is_self c))
                (set_irq_pending (hvf_irq_pending c) (negb (level =? 0)) c)
  else Aborted c.

End InterruptLines.

End Cpu.

(** * Vocabulary of the statements *)

Import Mem.

Definition active (s : hvf_slot) : Prop := slot_size s <> 0.

(** An active slot's range lies in the 64-bit address space, its end
    included. *)
Definition slot_fits (s : hvf_slot) : Prop :=
  0 <= slot_start s /\ 0 < slot_size s /\ slot_start s + slot_size s < two64.

Definition ranges_disjoint (a asz b bsz : Z) : Prop :=
  a + asz <= b \/ b + bsz <= a.

Definition slots_disjoint (l : list hvf_slot) : Prop :=
  forall i j s t, i <> j -> l !! i = Some s -> l !! j = Some t ->
    active s -> active t ->
    ranges_disjoint (slot_start s) (slot_size s) (slot_start t) (slot_size t).

Definition slots_fit (l : list hvf_slot) : Prop :=
  forall i s, l !! i = Some s -> active s -> slot_fits s.

Definition slots_wf (l : list hvf_slot) : Prop :=
  slots_fit l /\ slots_disjoint l.

(** [g, g+sz) meets the range of the active slot [s]. *)
Definition meets (g sz : Z) (s : hvf_slot) : Prop :=
  active s /\ g < slot_start s + slot_size s /\ slot_start s < g + sz.

Definition meets_at_most_one (l : list hvf_slot) (g sz : Z) : Prop :=
  forall i j s t, l !! i = Some s -> l !! j = Some t ->
    meets g sz s -> meets g sz t -> i = j.

(** What a caller must respect for the table to stay overlap-free: ranges
    that end below 2^64, and a region added over at most one active slot. *)
Definition op_admissible (st : hvf_mem) (op : mem_op) : Prop :=
  match op with
  | op_map _ gpa size _ => 0 <= gpa /\ 0 <= size /\ gpa + size < two64
  | op_region_add section =>
      0 <= offset_within_address_space section /\ 0 <= section_size section
      /\ offset_within_address_space section + section_size section < two64
      /\ meets_at_most_one (slots st) (offset_within_address_space section)
           (section_size section)
  | op_unmap _ _ | op_region_del _ => True
  end.

Inductive reachable (hv_status : list hv_call -> hv_call -> Z) : hvf_mem -> Prop :=
| reach_init : reachable hv_status hvf_accel_init
| reach_step st op st' :
    reachable hv_status st -> op_admissible st op ->
    run_op hv_status op st = Returned tt st' ->
    reachable hv_status st'.

Definition hv_always_ok : list hv_call -> hv_call -> Z := fun _ _ => HV_SUCCESS.

Definition ram_section (gpa size ptr : Z) : MemoryRegionSection :=
  {| mr_is_ram := true; mr_is_user_backed := false; mr_ram_ptr := ptr;
     offset_within_region := 0; offset_within_address_space := gpa;
     section_size := size |}.

Definition ids_ok (l : list hvf_slot) : Prop :=
  forall i s, l !! i = Some s -> slot_id s = i.

(** What the mirror of slot [s] must hold. *)
Definition mirrors (s : hvf_slot) (m : mac_slot) : Prop :=
  if slot_size s =? 0 then present m = false
  else present m = true /\ mac_size m = slot_size s
       /\ gpa_start m = slot_start s /\ hva m = slot_mem s.

Definition mirror_ok (st : hvf_mem) : Prop :=
  length (mac_slots st) = length (slots st)
  /\ forall i s m, slots st !! i = Some s -> mac_slots st !! i = Some m ->
       mirrors s m.

Definition table_ok (st : hvf_mem) : Prop :=
  slots_wf (slots st) /\ ids_ok (slots st) /\ mirror_ok st.

Definition log_call (c : hv_call) (st : hvf_mem) : hvf_mem :=
  {| slots := slots st; mac_slots := mac_slots st; hv_log := hv_log st ++ [c] |}.

(** The state after the unmap half of the hardware commit. *)
Definition released (i : nat) (m : mac_slot) (st : hvf_mem) : hvf_mem :=
  log_call (hv_vm_unmap (gpa_start m) (mac_size m))
    (with_mac_slots <[i := set_present false m]> st).

(** The state after the map half of the hardware commit. *)
Definition committed (i : nat) (s : hvf_slot) (m : mac_slot) (flags : Z)
    (st : hvf_mem) : hvf_mem :=
  log_call (hv_vm_map (slot_mem s) (slot_start s) (slot_size s) flags)
    (with_mac_slots
       <[i := {| present := true; mac_size := slot_size s;
                 gpa_start := slot_start s; gva := gva m; hva := slot_mem s |}]>
       st).

(** The hardware layer answers HV_SUCCESS to call [c] made in state [st]. *)
Definition hv_accepts (hv_status : list hv_call -> hv_call -> Z)
    (st : hvf_mem) (c : hv_call) : bool :=
  hv_status (hv_log st) c =? HV_SUCCESS.

(** mem->size = 0 followed by the commit of slot [i]. *)
Definition free_slot_state (i : nat) (s : hvf_slot) (m : mac_slot)
    (st : hvf_mem) : hvf_mem :=
  released i m (with_slots <[i := set_size 0 s]> st).

(** The fields of slot [j] set, followed by its commit. *)
Definition fill_slot_state (j : nat) (sj : hvf_slot) (mj : mac_slot)
    (uva gpa size flags : Z) (st : hvf_mem) : hvf_mem :=
  let st1 := with_slots <[j := fill_slot uva gpa size sj]> st in
  if size =? 0 then st1
  else committed j (fill_slot uva gpa size sj) mj flags st1.

(** The spec's view of the mapper: the list of (gpa, size, host pointer)
    mappings in force.  A map call of non-zero size puts its triple in force,
    in place of a mapping of the same range; an unmap call removes the
    mapping of exactly that range. *)
Record mapping : Type := { m_gpa : Z; m_size : Z; m_hva : Z }.

Inductive map_call : Type :=
| call_map (uva gpa size flags : Z)
| call_unmap (gpa size : Z).

Definition same_range (gpa size : Z) (x : mapping) : bool :=
  (m_gpa x =? gpa) && (m_size x =? size).

Definition mappings_step (M : list mapping) (c : map_call) : list mapping :=
  match c with
  | call_map uva gpa size _ =>
      if size =? 0 then M
      else {| m_gpa := gpa; m_size := size; m_hva := uva |}
           :: List.filter (fun x => negb (same_range gpa size x)) M
  | call_unmap gpa size => List.filter (fun x => negb (same_range gpa size x)) M
  end.

Definition mappings_after (cs : list map_call) : list mapping :=
  fold_left mappings_step cs [].

Definition covers (x : Z) (m : mapping) : Prop :=
  m_gpa m <= x < m_gpa m + m_size m.

(** A map call is given a range that ends below 2^64. *)
Definition call_fits (c : map_call) : Prop :=
  match c with
  | call_map _ gpa size _ => 0 <= gpa /\ 0 <= size /\ gpa + size < two64
  | call_unmap _ _ => True
  end.

Definition run_call (hv_status : list hv_call -> hv_call -> Z) (c : map_call)
  : prog hvf_mem unit :=
  match c with
  | call_map uva gpa size flags => hvf_map_safe hv_status uva gpa size flags;; ret tt
  | call_unmap gpa size => hvf_unmap_safe hv_status gpa size;; ret tt
  end.

Fixpoint run_calls (hv_status : list hv_call -> hv_call -> Z)
    (cs : list map_call) : prog hvf_mem unit :=
  match cs with
  | [] => ret tt
  | c :: cs' => run_call hv_status c;; run_calls hv_status cs'
  end.

(** The active slots are the mappings in force. *)
Definition slot_of (x : mapping) (s : hvf_slot) : Prop :=
  active s /\ slot_start s = m_gpa x /\ slot_size s = m_size x
  /\ slot_mem s = m_hva x.

Definition models (st : hvf_mem) (M : list mapping) : Prop :=
  forall x, In x M <-> exists i s, slots st !! i = Some s /\ slot_of x s.

(** The host range of mirror slot [m] lies in the address space and misses
    [h, h+len). *)
Definition host_range_misses (h len : Z) (m : mac_slot) : Prop :=
  0 <= hva m /\ 0 <= mac_size m /\ hva m + mac_size m < two64
  /\ (hva m + mac_size m <= h \/ h + len <= hva m).

(** The table after mapping host 0x7000 at guest [0x2000, 0x3000). *)
Definition one_mapping : hvf_mem :=
  final (run_calls hv_always_ok [call_map 0x7000 0x2000 0x1000 7] hvf_accel_init).

Definition one_mapping_slot : hvf_slot :=
  {| slot_start := 0x2000; slot_size := 0x1000; slot_mem := 0x7000; slot_id := 0 |}.

Definition sample_calls : list map_call :=
  [call_map 0x7000 0x1000 0x1000 7; call_map 0x9000 0x4000 0x2000 7;
   call_unmap 0x1000 0x1000].

(** Two mapped ranges whose host memory is adjacent, the later host range
    in the slot of lower index. *)
Definition reversed_pair : hvf_mem :=
  final (run_calls hv_always_ok
           [call_map 0x11000 0x3000 0x1000 7; call_map 0x10000 0x1000 0x1000 7]
           hvf_accel_init).

(** The same host memory mapped at two guest ranges, next to a third. *)
Definition aliased_triple : hvf_mem :=
  final (run_calls hv_always_ok
           [call_map 0x10000 0x1000 0x1000 7; call_map 0x11000 0x3000 0x1000 7;
            call_map 0x10000 0x5000 0x1000 7]
           hvf_accel_init).

Definition pair_low : mac_slot :=
  {| present := true; mac_size := 0x1000; gpa_start := 0x1000; gva := 0;
     hva := 0x10000 |}.

Definition pair_high : mac_slot :=
  {| present := true; mac_size := 0x1000; gpa_start := 0x3000; gva := 0;
     hva := 0x11000 |}.

Import Cpu.

(** A program that always returns the value [v]. *)
Definition returns {A} (m : M A) (v : A) : Prop :=
  forall c, exists c', m c = Returned v c'.

Definition total {A} (m : M A) : Prop :=
  forall c, exists a c', m c = Returned a c'.

(** A vCPU whose vector register i holds i, stopped with the given syndrome
    and faulting guest-physical address. *)
Definition sample_env : CPUARMState :=
  {| xregs := replicate 32 0; pc := 0x40001000; pstate := 0x5;
     vfp_zregs := map Z.of_nat (seq 0 32); fpsr := 0; fpcr := 0;
     field := fun _ => 0 |}.

Definition sample_fd : hv_vcpu :=
  {| reg := fun _ => 0; sys_reg := fun _ => 0; simd_fp_reg := fun _ => 0;
     pending_irq := false; pending_fiq := false |}.

Definition sample_cpu (esr gpa : Z) : CPUState :=
  {| env := sample_env; hvf_fd := sample_fd;
     hvf_vcpu_exit_info := {| reason := HV_EXIT_REASON_EXCEPTION; syndrome := esr;
                              virtual_address := 0; physical_address := gpa |};
     hvf_vcpu_dirty := false; hvf_irq_pending := false;
     hvf_fiq_pending := false; bus_log := [] |}.

(** Data abort, valid syndrome, read into x5: two bytes; one byte with the
    sign-extension flag; one byte into register 31. *)
Definition esr_read16_x5 : Z := 0x91450000.

Definition esr_read8_signed_x5 : Z := 0x91250000.


(** Wait-for-event. *)
Definition esr_wfx : Z := 0x04000000.

(** ** Vocabulary of the further properties *)

(** [x] lies in the guest range of slot [s]. *)
Definition in_slot (x : Z) (s : hvf_slot) : Prop :=
  slot_start s <= x < slot_start s + slot_size s.

(** The hardware calls the commit of slot [s] over mirror [m] makes. *)
Definition commit_calls (s : hvf_slot) (m : mac_slot) (flags : Z) : list hv_call :=
  (if present m && negb (mac_size m =? slot_size s)
   then [hv_vm_unmap (gpa_start m) (mac_size m)] else [])
  ++ (if slot_size s =? 0 then []
      else [hv_vm_map (slot_mem s) (slot_start s) (slot_size s) flags]).

(** The table is in order except that the mirror of slot [i] may lag behind
    its slot. *)
Definition ok_but (i : nat) (st : hvf_mem) : Prop :=
  ids_ok (slots st) /\ length (mac_slots st) = length (slots st)
  /\ (forall k t n, k <> i -> slots st !! k = Some t ->
        mac_slots st !! k = Some n -> mirrors t n)
  /\ (forall m, mac_slots st !! i = Some m -> present m = true -> mac_size m <> 0).

(** A section of plain RAM: neither I/O nor user-backed. *)
Definition plain_ram (section : MemoryRegionSection) : Prop :=
  mr_is_ram section = true /\ mr_is_user_backed section = false.

(** The host pointer hvf_set_phys_mem computes for a section. *)
Definition section_ptr (section : MemoryRegionSection) : Z :=
  u64 (mr_ram_ptr section + offset_within_region section).

(** Every slot of the table in use: page i of guest memory backed by page i
    of a host block at 4 GiB. *)
Definition full_table_calls : list map_call :=
  map (fun i => call_map (0x100000000 + Z.of_nat i * 0x1000)
                         (Z.of_nat i * 0x1000) 0x1000 7)
      (seq 0 HVF_MAX_SLOTS).

Definition full_table : hvf_mem :=
  final (run_calls hv_always_ok full_table_calls hvf_accel_init).

Definition last_slot : hvf_slot :=
  {| slot_start := 0x1ff000; slot_size := 0x1000; slot_mem := 0x1001ff000;
     slot_id := 511 |}.

(** One mapping, with the size of its slot already set to 0 and the commit
    to the hardware layer still to come. *)
Definition one_mapping_freed : hvf_mem :=
  with_slots <[0%nat := set_size 0 one_mapping_slot]> one_mapping.

Definition one_mapping_mirror : mac_slot :=
  {| present := true; mac_size := 0x1000; gpa_start := 0x2000; gva := 0;
     hva := 0x7000 |}.

(** The system registers the register transfer copies, each with the
    CPUARMState field it is copied from and to, in the order of the code. *)
Definition sys_reg_fields : list (hv_sys_reg_t * env_field) :=
  [ (HV_SYS_REG_SP_EL0, sp_el_0); (HV_SYS_REG_SP_EL1, sp_el_1);
    (HV_SYS_REG_ELR_EL1, elr_el_1); (HV_SYS_REG_SPSR_EL1, banked_spsr_el1);
    (HV_SYS_REG_APDAKEYHI_EL1, keys_apda_hi);
    (HV_SYS_REG_APDAKEYLO_EL1, keys_apda_lo);
    (HV_SYS_REG_APDBKEYHI_EL1, keys_apdb_hi);
    (HV_SYS_REG_APDBKEYLO_EL1, keys_apdb_lo);
    (HV_SYS_REG_APGAKEYHI_EL1, keys_apga_hi);
    (HV_SYS_REG_APGAKEYLO_EL1, keys_apga_lo);
    (HV_SYS_REG_APIAKEYHI_EL1, keys_apia_hi);
    (HV_SYS_REG_APIAKEYLO_EL1, keys_apia_lo);
    (HV_SYS_REG_APIBKEYHI_EL1, keys_apib_hi);
    (HV_SYS_REG_APIBKEYLO_EL1, keys_apib_lo);
    (HV_SYS_REG_CNTKCTL_EL1, cp15_c14_cntkctl);
    (HV_SYS_REG_CONTEXTIDR_EL1, cp15_contextidr_el_1);
    (HV_SYS_REG_CPACR_EL1, cp15_cpacr_el1);
    (HV_SYS_REG_CSSELR_EL1, cp15_csselr_el_1);
    (HV_SYS_REG_ESR_EL1, cp15_esr_el_1); (HV_SYS_REG_FAR_EL1, cp15_far_el_1);
    (HV_SYS_REG_MAIR_EL1, cp15_mair_el_1);
    (HV_SYS_REG_MDSCR_EL1, cp15_mdscr_el1);
    (HV_SYS_REG_PAR_EL1, cp15_par_el_1);
    (HV_SYS_REG_SCTLR_EL1, cp15_sctlr_el_1);
    (HV_SYS_REG_TCR_EL1, cp15_tcr_el_1_raw_tcr);
    (HV_SYS_REG_TPIDRRO_EL0, cp15_tpidrro_el_0);
    (HV_SYS_REG_TPIDR_EL0, cp15_tpidr_el_0);
    (HV_SYS_REG_TPIDR_EL1, cp15_tpidr_el_1);
    (HV_SYS_REG_TTBR0_EL1, cp15_ttbr0_el_1);
    (HV_SYS_REG_TTBR1_EL1, cp15_ttbr1_el_1);
    (HV_SYS_REG_VBAR_EL1, cp15_vbar_el_1) ].

(** [c'] differs from [c] at most in the emulator's register file and the
    hardware context. *)
Definition same_frame (c c' : CPUState) : Prop :=
  hvf_vcpu_exit_info c' = hvf_vcpu_exit_info c
  /\ hvf_vcpu_dirty c' = hvf_vcpu_dirty c
  /\ hvf_irq_pending c' = hvf_irq_pending c
  /\ hvf_fiq_pending c' = hvf_fiq_pending c
  /\ bus_log c' = bus_log c.

(** What the hardware context [h'] holds after the registers of [e] have
    been pushed over [h]. *)
Definition pushed (e : CPUARMState) (h h' : hv_vcpu) : Prop :=
  (forall i, (i < 31)%nat -> reg h' (regno_to_hv_xreg i) = xreg e i)
  /\ reg h' HV_REG_PC = pc e /\ reg h' HV_REG_CPSR = pstate e
  /\ reg h' HV_REG_FPSR = fpsr e /\ reg h' HV_REG_FPCR = fpcr e
  /\ Forall (fun rf => sys_reg h' rf.1 = field (aarch64_save_sp 1 e) rf.2)
       sys_reg_fields
  /\ sys_reg h' HV_SYS_REG_CNTV_CVAL_EL0 = sys_reg h HV_SYS_REG_CNTV_CVAL_EL0
  /\ (forall i, (i < 32)%nat -> i <> 20%nat -> i <> 30%nat ->
        simd_fp_reg h' (regno_to_hv_simd_fp_reg_type i) = qreg e i)
  /\ simd_fp_reg h' HV_SIMD_FP_REG_Q20 = qreg e 30
  /\ simd_fp_reg h' HV_SIMD_FP_REG_Q30 = simd_fp_reg h HV_SIMD_FP_REG_Q30
  /\ pending_irq h' = pending_irq h /\ pending_fiq h' = pending_fiq h.

(** What the emulator's register file [e'] holds after the registers of
    the hardware context [h] have been pulled. *)
Definition pulled (h : hv_vcpu) (e' : CPUARMState) : Prop :=
  (forall i, (i < 31)%nat -> xreg e' i = reg h (regno_to_hv_xreg i))
  /\ xreg e' 31 = (if negb (Z.land (reg h HV_REG_CPSR) PSTATE_SP =? 0)
                   then sys_reg h HV_SYS_REG_SP_EL1
                   else sys_reg h HV_SYS_REG_SP_EL0)
  /\ length (xregs e') = 32%nat
  /\ pc e' = reg h HV_REG_PC /\ pstate e' = reg h HV_REG_CPSR
  /\ fpsr e' = reg h HV_REG_FPSR mod 2 ^ 32
  /\ fpcr e' = reg h HV_REG_FPCR mod 2 ^ 32
  /\ Forall (fun rf => field e' rf.2 = sys_reg h rf.1) sys_reg_fields
  /\ (forall i, (i < 32)%nat ->
        qreg e' i = simd_fp_reg h (regno_to_hv_simd_fp_reg_type i))
  /\ length (vfp_zregs e') = 32%nat.

(** A register file [e'] that a handler made from the pulled file [e]
    without touching the stack pointer, the processor state, the FP status
    and control, the system register fields and the vector registers. *)
Definition handler_frame (e e' : CPUARMState) : Prop :=
  xreg e' 31 = xreg e 31 /\ pstate e' = pstate e
  /\ fpsr e' = fpsr e /\ fpcr e' = fpcr e
  /\ (forall f, field e' f = field e f)
  /\ (forall i, qreg e' i = qreg e i).

(** The exception classes hvf_handle_exception has a working handler for. *)
Definition handled_class (ec : Z) : bool :=
  (ec =? ESR_ELx_EC_WFx) || ec_in ec [ESR_ELx_EC_HVC32; ESR_ELx_EC_HVC64]
  || (ec =? ESR_ELx_EC_SYS64)
  || ec_in ec [ESR_ELx_EC_IABT_LOW; ESR_ELx_EC_DABT_LOW].

(** The fields of the syndrome of a trapped system register access. *)
Definition sys64_rt (esr : Z) : Z :=
  Z.shiftr (Z.land esr ESR_ELx_SYS64_ISS_RT_MASK) ESR_ELx_SYS64_ISS_RT_SHIFT.

Definition sys64_is_write (esr : Z) : bool :=
  Z.land esr ESR_ELx_SYS64_ISS_DIR_MASK =? ESR_ELx_SYS64_ISS_DIR_WRITE.

Definition sys64_reg (esr : Z) : Z := Z.land esr ESR_ELx_SYS64_ISS_SYS_MASK.

(** OSDLR_EL1 and OSLAR_EL1 in the encoding of the syndrome. *)
Definition os_lock_reg (sys : Z) : bool := (sys =? 0x280406) || (sys =? 0x280400).

(** What makes hvf_handle_guest_abort take a stage-2 abort for an access to
    a device: a data abort with a valid syndrome, outside every slot, that
    is neither an access-flag fault, a cache maintenance operation, an
    external abort nor a fault on a stage-1 walk. *)
Definition mmio_abort (mem : Mem.hvf_mem) (ec : Z) (c : CPUState) : Prop :=
  let esr := hvf_vcpu_get_hsr c in
  let gpa := physical_address (hvf_vcpu_exit_info c) in
  Z.land esr ESR_ELx_FSC_TYPE <> ESR_ELx_FSC_ACCESS
  /\ Mem.hvf_find_overlap_slot mem gpa (u64 (gpa + 1)) = None
  /\ ec <> ESR_ELx_EC_IABT_LOW
  /\ Z.land esr ESR_ELx_CM = 0
  /\ Z.land esr ESR_ELx_ISV <> 0
  /\ Z.land ESR_ELx_EA esr = 0
  /\ Z.land ESR_ELx_S1PTW esr = 0.

(** An edit of the emulator's register file: general register [i] and the
    program counter. *)
Definition edit_registers (i : nat) (v p : Z) (e : CPUARMState) : CPUARMState :=
  set_pc p (set_xregs (<[i := v]> (xregs e)) e).

(** Hypervisor call (HVC64); secure monitor call (SMC64); read of OSLAR_EL1
    into x3; data abort, valid syndrome, write of two bytes from x5. *)
Definition esr_hvc : Z := 0x58000000.

Definition esr_smc : Z := 0x5C000000.

Definition esr_oslar_read_x3 : Z := 0x60280461.

Definition esr_write16_x5 : Z := 0x91450040.

(** The last page of the guest-physical address space, [2^64 - 0x1000,
    2^64), and the table after mapping host 0x7000 there. *)
Definition top_page : Z := 0xfffffffffffff000.

Definition top_page_mapping : hvf_mem :=
  final (run_calls hv_always_ok [call_map 0x7000 top_page 0x1000 7]
           hvf_accel_init).

Definition top_page_slot (x : nat) (uva : Z) : hvf_slot :=
  {| slot_start := top_page; slot_size := 0x1000; slot_mem := uva; slot_id := x |}.

(** The table after three region adds, the third over the two slots of
    the first two: slot 0 holds [0x800, 0x1800) and slot 1 [0x1000, 0x2000). *)
Definition straddled_table : hvf_mem :=
  final (run_ops hv_always_ok
           [op_region_add (ram_section 0x0 0x1000 0x100000);
            op_region_add (ram_section 0x1000 0x1000 0x200000);
            op_region_add (ram_section 0x800 0x1000 0x300000)]
           hvf_accel_init).

Definition straddled_slot_0 : hvf_slot :=
  {| slot_start := 0x800; slot_size := 0x1000; slot_mem := 0x300000; slot_id := 0 |}.

Definition straddled_slot_1 : hvf_slot :=
  {| slot_start := 0x1000; slot_size := 0x1000; slot_mem := 0x200000; slot_id := 1 |}.

(** A hardware layer that refuses every hv_vm_unmap. *)
Definition hv_refuses_unmap : list hv_call -> hv_call -> Z :=
  fun _ c => match c with hv_vm_unmap _ _ => 1 | _ => HV_SUCCESS end.

(** A program that leaves the hardware context as it finds it, whenever it
    returns. *)
Definition keeps_fd {A} (m : M A) : Prop :=
  forall c a c', m c = Returned a c' -> hvf_fd c' = hvf_fd c.

(** A vCPU stopped by a hypervisor call, whose hardware context holds 20 in
    Q20 and 30 in Q30. *)
Definition q_numbered_cpu : CPUState :=
  with_fd (fun h => set_simd_fp_reg HV_SIMD_FP_REG_Q30 30
                      (set_simd_fp_reg HV_SIMD_FP_REG_Q20 20 h))
          (sample_cpu esr_hvc 0).

(** * The slot table and the memory mapper *)

(** * Facts about the outcome monad *)

Lemma bind_Returned {S A B} (m : prog S A) (k : A -> prog S B) s b s' :
  bind m k s = Returned b s' ->
  exists a s1, m s = Returned a s1 /\ k a s1 = Returned b s'.
Proof.
  unfold bind. destruct (m s) as [a s1|s1]; [|discriminate].
  intros H. exists a, s1. split; [reflexivity|exact H].
Qed.

Lemma ret_Returned {S A} (a b : A) (s s' : S) :
  ret a s = Returned b s' -> a = b /\ s = s'.
Proof. unfold ret. intros H. injection H as -> ->. split; reflexivity. Qed.

Lemma u64_small x : 0 <= x < two64 -> u64 x = x.
Proof. intros H. unfold u64. apply Z.mod_small. exact H. Qed.

Lemma two64_pos : 0 < two64.
Proof. reflexivity. Qed.

(** * The slot table *)

Lemma overlap_test_true g sz s :
  0 <= g -> 0 <= sz -> g + sz < two64 -> (active s -> slot_fits s) ->
  overlap_test g (u64 (g + sz)) s = true <-> meets g sz s.
Proof.
  intros Hg Hsz Hfit Hs. unfold overlap_test, meets, active.
  rewrite (u64_small (g + sz)) by lia.
  destruct (Z.eqb_spec (slot_size s) 0) as [E|E]; simpl.
  - split; [discriminate|]. intros [H _]. contradiction.
  - destruct (Hs E) as (H1 & H2 & H3).
    rewrite (u64_small (slot_start s + slot_size s)) by lia.
    rewrite andb_true_iff, !Z.ltb_lt. tauto.
Qed.

Lemma overlap_test_active a b s : overlap_test a b s = true -> active s.
Proof.
  unfold overlap_test, active. intros H E. rewrite E in H. discriminate.
Qed.

Lemma find_overlap_from_Some l : forall x a b i,
  find_overlap_from x l a b = Some i ->
  exists k s, i = (x + k)%nat /\ l !! k = Some s /\ overlap_test a b s = true
    /\ forall j t, (j < k)%nat -> l !! j = Some t -> overlap_test a b t = false.
Proof.
  induction l as [|s0 l IH]; intros x a b i H; simpl in H; [discriminate|].
  destruct (overlap_test a b s0) eqn:E.
  - injection H as <-. exists 0%nat, s0. repeat split; [lia|assumption|].
    intros j t Hj. lia.
  - apply IH in H as (k & s & -> & Hk & Ht & Hmin).
    exists (S k), s. repeat split; [lia|assumption|assumption|].
    intros [|j] t Hj Hl; simpl in Hl.
    + injection Hl as <-. exact E.
    + apply (Hmin j); [lia|assumption].
Qed.

Lemma find_overlap_from_None l : forall x a b,
  find_overlap_from x l a b = None ->
  forall j t, l !! j = Some t -> overlap_test a b t = false.
Proof.
  induction l as [|s0 l IH]; intros x a b H j t Hl; [discriminate|].
  simpl in H. destruct (overlap_test a b s0) eqn:E; [discriminate|].
  destruct j as [|j]; simpl in Hl.
  - injection Hl as <-. exact E.
  - eapply IH; eassumption.
Qed.

Lemma hvf_find_overlap_slot_Some st a b i :
  hvf_find_overlap_slot st a b = Some i ->
  exists s, slots st !! i = Some s /\ overlap_test a b s = true
    /\ forall j t, (j < i)%nat -> slots st !! j = Some t -> overlap_test a b t = false.
Proof.
  intros H. apply find_overlap_from_Some in H as (k & s & -> & H).
  exists s. exact H.
Qed.

Lemma hvf_find_overlap_slot_None st a b :
  hvf_find_overlap_slot st a b = None ->
  forall j t, slots st !! j = Some t -> overlap_test a b t = false.
Proof. apply find_overlap_from_None. Qed.

Lemma next_free_from_spec l : forall x d r,
  next_free_from x l d = r ->
  match l with
  | [] => r = d
  | _ => exists k s, r = Some (x + k)%nat /\ l !! k = Some s
           /\ (slot_size s = 0 \/ forall j t, l !! j = Some t -> slot_size t <> 0)
  end.
Proof.
  induction l as [|s0 l IH]; intros x d r H; simpl in H; [congruence|].
  destruct (Z.eqb_spec (slot_size s0) 0) as [E|E].
  - exists 0%nat, s0. repeat split; [subst r; f_equal; lia| left; exact E].
  - specialize (IH (S x) (Some x) r H). destruct l as [|s1 l].
    + exists 0%nat, s0. repeat split; [subst r; f_equal; lia|].
      right. intros [|j] t Hl; simpl in Hl; [congruence|discriminate].
    + destruct IH as (k & s & -> & Hk & Hs). exists (S k), s.
      repeat split; [f_equal; lia|exact Hk|].
      destruct Hs as [Hs|Hs]; [left; exact Hs|right].
      intros [|j] t Hl; simpl in Hl; [congruence|]. eapply Hs; eassumption.
Qed.

Lemma hvf_next_free_slot_Some st i :
  hvf_next_free_slot st = Some i ->
  exists s, slots st !! i = Some s
    /\ (slot_size s = 0 \/ forall j t, slots st !! j = Some t -> slot_size t <> 0).
Proof.
  unfold hvf_next_free_slot. intros H. apply next_free_from_spec in H.
  destruct (slots st) as [|s0 l]; [discriminate|].
  destruct H as (k & s & H & Hk & Hs). injection H as ->. exists s. split; assumption.
Qed.

(** Freeing and filling one entry of the table. *)

Lemma lookup_insert_cases {A} (l : list A) i j x y :
  <[i := x]> l !! j = Some y ->
  (i = j /\ y = x /\ (i < length l)%nat) \/ (i <> j /\ l !! j = Some y).
Proof.
  destruct (decide (i = j)) as [->|Hne].
  - destruct (decide (j < length l)%nat) as [Hlt|Hge].
    + rewrite list_lookup_insert_eq by exact Hlt. intros [= <-]. left. auto.
    + rewrite list_insert_ge by lia. intros H.
      apply lookup_lt_Some in H. lia.
  - rewrite list_lookup_insert_ne by exact Hne. right. auto.
Qed.

Lemma slots_wf_free l i s :
  slots_wf l -> slots_wf (<[i := set_size 0 s]> l).
Proof.
  intros [Hfit Hdis]. split.
  - intros j t Hj Ht. apply lookup_insert_cases in Hj as [(-> & -> & _)|(Hne & Hj)].
    + exfalso. exact (Ht eq_refl).
    + eapply Hfit; eassumption.
  - intros j k t u Hjk Hj Hk Ht Hu.
    apply lookup_insert_cases in Hj as [(-> & -> & _)|(Hne & Hj)];
      [exfalso; exact (Ht eq_refl)|].
    apply lookup_insert_cases in Hk as [(-> & -> & _)|(Hne' & Hk)];
      [exfalso; exact (Hu eq_refl)|].
    eapply (Hdis j k); eassumption.
Qed.

Lemma ranges_disjoint_sym a asz b bsz :
  ranges_disjoint a asz b bsz -> ranges_disjoint b bsz a asz.
Proof. unfold ranges_disjoint. tauto. Qed.

Lemma slots_wf_fill l i s m g sz :
  slots_wf l ->
  (sz <> 0 -> 0 <= g /\ 0 < sz /\ g + sz < two64) ->
  (forall j t, j <> i -> l !! j = Some t -> active t ->
     ranges_disjoint g sz (slot_start t) (slot_size t)) ->
  slots_wf (<[i := fill_slot m g sz s]> l).
Proof.
  intros [Hfit Hdis] Hnew Hfree. split.
  - intros j t Hj Ht. apply lookup_insert_cases in Hj as [(-> & -> & _)|(Hne & Hj)].
    + apply Hnew. exact Ht.
    + eapply Hfit; eassumption.
  - intros j k t u Hjk Hj Hk Ht Hu.
    apply lookup_insert_cases in Hj as [(-> & -> & _)|(Hne & Hj)];
      apply lookup_insert_cases in Hk as [(-> & -> & _)|(Hne' & Hk)].
    + contradiction.
    + simpl. eapply Hfree; eauto.
    + simpl. apply ranges_disjoint_sym. eapply Hfree; eauto.
    + eapply (Hdis j k); eassumption.
Qed.

Lemma not_meets_disjoint g sz t :
  active t -> slot_fits t -> 0 <= sz -> ~ meets g sz t ->
  ranges_disjoint g sz (slot_start t) (slot_size t).
Proof.
  unfold meets, ranges_disjoint, slot_fits. intros Ha Hf Hsz Hn.
  destruct (Z_lt_dec g (slot_start t + slot_size t)) as [H1|H1]; [|lia].
  destruct (Z_lt_dec (slot_start t) (g + sz)) as [H2|H2]; [|lia].
  exfalso. apply Hn. auto.
Qed.

(** Stepping through a [Returned] run of sequenced commands. *)
Ltac case_if H :=
  match type of H with
  | (if ?c then _ else _) _ = _ => destruct c eqn:?
  end.

(** The first command only reads or writes the tables. *)
Ltac step_pure H :=
  let a := fresh "a" in let s1 := fresh "st" in let H1 := fresh "Hrun" in
  apply bind_Returned in H as (a & s1 & H1 & H);
  unfold read_slot, read_mac, write_slot, write_mac, find_overlap_slot,
    next_free_slot, ret in H1;
  injection H1 as <- <-.

Ltac finish H := apply ret_Returned in H as [_ <-].

Section MemFacts.

Variable hv_status : list hv_call -> hv_call -> Z.

Local Abbreviation set_memory := (__hvf_set_memory_with_flags_locked hv_status).

(** The hardware commit touches the mirror and the log only. *)
Lemma set_memory_slots i f st :
  slots (final (set_memory i f st)) = slots st.
Proof.
  unfold __hvf_set_memory_with_flags_locked, bind, read_slot, read_mac,
    write_mac, hv, assert_hvf_ok, ret, abort.
  repeat (match goal with
          | |- context [if ?c then _ else _] => destruct c
          end; simpl); reflexivity.
Qed.

Lemma set_memory_Returned_slots i f st r st' :
  set_memory i f st = Returned r st' -> slots st' = slots st.
Proof.
  intros H. rewrite <- (set_memory_slots i f st). rewrite H. reflexivity.
Qed.

Lemma slot_at_lookup st i s : slots st !! i = Some s -> slot_at st i = s.
Proof. unfold slot_at. intros ->. reflexivity. Qed.

(** The first command is the hardware commit: the slots stay. *)
Ltac step_commit H Hs :=
  let a := fresh "a" in let s1 := fresh "st" in
  apply bind_Returned in H as (a & s1 & Hs & H);
  apply set_memory_Returned_slots in Hs; simpl in Hs.

Lemma map_into_free_slot_slots st uva gpa size flags r st' :
  map_into_free_slot hv_status uva gpa size flags st = Returned r st' ->
  exists i s, slots st !! i = Some s /\ slot_size s = 0
    /\ hvf_next_free_slot st = Some i
    /\ slots st' = <[i := fill_slot uva gpa size s]> (slots st).
Proof.
  unfold map_into_free_slot. intros H. step_pure H.
  destruct (hvf_next_free_slot st) as [i|] eqn:Hfree; [|discriminate].
  destruct (hvf_next_free_slot_Some _ _ Hfree) as (s & Hs & _).
  step_pure H. rewrite (slot_at_lookup _ _ _ Hs) in H.
  destruct (Z.eqb_spec (slot_size s) 0) as [E|E]; simpl in H; [|discriminate].
  step_pure H. step_commit H Hst. finish H.
  exists i, s. repeat split; try assumption.
Qed.

Lemma map_into_free_slot_wf st uva gpa size flags r st' :
  slots_wf (slots st) ->
  (size <> 0 -> 0 <= gpa /\ 0 < size /\ gpa + size < two64) ->
  (forall j t, slots st !! j = Some t -> active t ->
     ranges_disjoint gpa size (slot_start t) (slot_size t)) ->
  map_into_free_slot hv_status uva gpa size flags st = Returned r st' ->
  slots_wf (slots st').
Proof.
  intros Hwf Hnew Hdis H.
  apply map_into_free_slot_slots in H as (i & s & _ & _ & _ & ->).
  apply slots_wf_fill; [assumption|assumption|].
  intros j t _. apply Hdis.
Qed.

Lemma find_None_disjoint st gpa size :
  slots_wf (slots st) -> 0 <= gpa -> 0 <= size -> gpa + size < two64 ->
  hvf_find_overlap_slot st gpa (u64 (gpa + size)) = None ->
  forall j t, slots st !! j = Some t -> active t ->
    ranges_disjoint gpa size (slot_start t) (slot_size t).
Proof.
  intros [Hfit _] Hg Hsz Hend Hnone j t Hj Ht.
  apply not_meets_disjoint; [assumption|eapply Hfit; eassumption|assumption|].
  intros Hm. apply overlap_test_true in Hm; try assumption.
  - rewrite (hvf_find_overlap_slot_None _ _ _ Hnone _ _ Hj) in Hm. discriminate.
  - intros _. eapply Hfit; eassumption.
Qed.

Lemma find_Some_meets st gpa size i :
  slots_wf (slots st) -> 0 <= gpa -> 0 <= size -> gpa + size < two64 ->
  hvf_find_overlap_slot st gpa (u64 (gpa + size)) = Some i ->
  exists s, slots st !! i = Some s /\ meets gpa size s /\ slot_fits s.
Proof.
  intros [Hfit _] Hg Hsz Hend H.
  apply hvf_find_overlap_slot_Some in H as (s & Hs & Ht & _).
  exists s. split; [assumption|]. pose proof (overlap_test_active _ _ _ Ht) as Ha.
  split; [|eapply Hfit; eassumption].
  apply overlap_test_true; try assumption. intros _. eapply Hfit; eassumption.
Qed.

(** The slots other than the one just freed are disjoint from its old range. *)
Lemma freed_range_disjoint l i s :
  slots_wf l -> l !! i = Some s -> active s ->
  forall j t, <[i := set_size 0 s]> l !! j = Some t -> active t ->
    ranges_disjoint (slot_start s) (slot_size s) (slot_start t) (slot_size t).
Proof.
  intros [_ Hdis] Hs Ha j t Hj Ht.
  apply lookup_insert_cases in Hj as [(-> & -> & _)|(Hne & Hj)];
    [exfalso; exact (Ht eq_refl)|].
  apply (Hdis i j); assumption.
Qed.

(** hvf_map_safe keeps the table well formed. *)
Lemma hvf_map_safe_wf st uva gpa size flags r st' :
  slots_wf (slots st) -> 0 <= gpa -> 0 <= size -> gpa + size < two64 ->
  hvf_map_safe hv_status uva gpa size flags st = Returned r st' ->
  slots_wf (slots st').
Proof.
  intros Hwf Hg Hsz Hend H. unfold hvf_map_safe in H. step_pure H.
  assert (Hnew : size <> 0 -> 0 <= gpa /\ 0 < size /\ gpa + size < two64) by lia.
  destruct (hvf_find_overlap_slot st gpa (u64 (gpa + size))) as [i|] eqn:Hfind.
  - destruct (find_Some_meets _ _ _ _ Hwf Hg Hsz Hend Hfind) as (s & Hs & Hm & Hf).
    step_pure H. rewrite (slot_at_lookup _ _ _ Hs) in H.
    case_if H; [finish H; exact Hwf|].
    destruct ((slot_start s =? gpa) && (slot_size s =? size)) eqn:Hsame;
      [|discriminate].
    apply andb_true_iff in Hsame as [E1 E2].
    apply Z.eqb_eq in E1, E2.
    step_pure H. step_commit H Hst.
    eapply map_into_free_slot_wf; [| exact Hnew | | exact H].
    + rewrite Hst. apply slots_wf_free. exact Hwf.
    + rewrite Hst, <- E1, <- E2. apply freed_range_disjoint; try assumption.
      apply Hm.
  - eapply map_into_free_slot_wf; [exact Hwf|exact Hnew| |exact H].
    apply find_None_disjoint; assumption.
Qed.

(** hvf_unmap_safe only ever frees a slot. *)
Lemma hvf_unmap_safe_wf st gpa size r st' :
  slots_wf (slots st) ->
  hvf_unmap_safe hv_status gpa size st = Returned r st' ->
  slots_wf (slots st').
Proof.
  intros Hwf H. unfold hvf_unmap_safe in H. step_pure H.
  destruct (hvf_find_overlap_slot st gpa (u64 (gpa + size))) as [i|].
  - step_pure H. case_if H; [discriminate|].
    step_pure H. step_commit H Hst. finish H. rewrite Hst.
    apply slots_wf_free. exact Hwf.
  - finish H. exact Hwf.
Qed.

Lemma set_phys_mem_fill_wf st ptr gpa size st' :
  slots_wf (slots st) ->
  (size <> 0 -> 0 <= gpa /\ 0 < size /\ gpa + size < two64) ->
  (forall j t, slots st !! j = Some t -> active t ->
     ranges_disjoint gpa size (slot_start t) (slot_size t)) ->
  (let* mem := next_free_slot in
   match mem with
   | None => abort
   | Some mem =>
       let* s := read_slot mem in
       write_slot mem (fill_slot ptr gpa size s);;
       let* r := __hvf_set_memory hv_status mem in
       if negb (r =? 0) then abort else ret tt
   end) st = Returned tt st' ->
  slots_wf (slots st').
Proof.
  intros Hwf Hnew Hdis H. step_pure H.
  destruct (hvf_next_free_slot st) as [i|]; [|discriminate].
  step_pure H. step_pure H. step_commit H Hst.
  case_if H; [discriminate|]. finish H. rewrite Hst.
  apply slots_wf_fill; [assumption|assumption|].
  intros j t _. apply Hdis.
Qed.

(** hvf_set_phys_mem keeps the table well formed when the section added
    meets at most one active slot: only the first overlapping slot is reset. *)
Lemma hvf_set_phys_mem_wf st section add st' :
  slots_wf (slots st) ->
  (add = true ->
   0 <= offset_within_address_space section /\ 0 <= section_size section
   /\ offset_within_address_space section + section_size section < two64
   /\ meets_at_most_one (slots st) (offset_within_address_space section)
        (section_size section)) ->
  hvf_set_phys_mem hv_status section add st = Returned tt st' ->
  slots_wf (slots st').
Proof.
  intros Hwf Hadd H. unfold hvf_set_phys_mem in H.
  case_if H; [finish H; exact Hwf|].
  case_if H; [finish H; exact Hwf|].
  set (gpa := offset_within_address_space section) in *.
  set (size := section_size section) in *.
  step_pure H.
  destruct (hvf_find_overlap_slot st gpa (u64 (gpa + size))) as [i|] eqn:Hfind.
  - apply bind_Returned in H as (same & st1 & Hsame & H).
    step_pure Hsame. apply ret_Returned in Hsame as [<- <-].
    case_if H; [finish H; exact Hwf|].
    apply bind_Returned in H as (u & st2 & Hreset & H).
    step_pure Hreset. step_pure Hreset. step_commit Hreset Hst.
    case_if Hreset; [discriminate|]. finish Hreset.
    pose proof (slots_wf_free _ i (slot_at st i) Hwf) as Hwf1.
    rewrite <- Hst in Hwf1.
    destruct add; simpl in H; [|finish H; exact Hwf1].
    destruct (Hadd eq_refl) as (Hg & Hsz & Hend & Hone).
    eapply set_phys_mem_fill_wf; [exact Hwf1| | |exact H]; [lia|].
    rewrite Hst. intros j t Hj Ht.
    apply lookup_insert_cases in Hj as [(-> & -> & _)|(Hne & Hj)];
      [exfalso; exact (Ht eq_refl)|].
    destruct (find_Some_meets _ _ _ _ Hwf Hg Hsz Hend Hfind) as (s & Hs & Hm & _).
    apply not_meets_disjoint; [assumption| |assumption|].
    + destruct Hwf as [Hfit _]. eapply Hfit; eassumption.
    + intros Hm'. apply Hne. eapply Hone; eassumption.
  - apply bind_Returned in H as (same & st1 & Hsame & H).
    apply ret_Returned in Hsame as [<- <-]. simpl in H.
    apply bind_Returned in H as (u & st2 & Hreset & H).
    apply ret_Returned in Hreset as [_ <-].
    destruct add; simpl in H; [|finish H; exact Hwf].
    destruct (Hadd eq_refl) as (Hg & Hsz & Hend & Hone).
    eapply set_phys_mem_fill_wf; [exact Hwf| | |exact H]; [lia|].
    apply find_None_disjoint; assumption.
Qed.

End MemFacts.

(** ** Reachable tables *)

Lemma free_slots_inactive l :
  Forall (fun s => slot_size s = 0) (map free_slot l).
Proof. induction l; simpl; constructor; [reflexivity|assumption]. Qed.

Lemma hvf_accel_init_inactive i s :
  slots hvf_accel_init !! i = Some s -> slot_size s = 0.
Proof.
  intros Hs. pose proof (free_slots_inactive (seq 0 HVF_MAX_SLOTS)) as HF.
  rewrite Forall_lookup in HF. exact (HF i s Hs).
Qed.

Lemma hvf_accel_init_wf : slots_wf (slots hvf_accel_init).
Proof.
  split.
  - intros i s Hs Ha. exfalso. exact (Ha (hvf_accel_init_inactive i s Hs)).
  - intros i j s t _ Hs _ Ha. exfalso. exact (Ha (hvf_accel_init_inactive i s Hs)).
Qed.

Lemma run_op_wf hv_status st op st' :
  slots_wf (slots st) -> op_admissible st op ->
  run_op hv_status op st = Returned tt st' -> slots_wf (slots st').
Proof.
  intros Hwf Hop H. destruct op as [uva gpa size flags|gpa size|section|section];
    simpl in H, Hop.
  - apply bind_Returned in H as (r & st1 & H & Hret).
    apply ret_Returned in Hret as [_ <-]. destruct Hop as (? & ? & ?).
    eapply hvf_map_safe_wf; [exact Hwf| | | |exact H]; assumption.
  - apply bind_Returned in H as (r & st1 & H & Hret).
    apply ret_Returned in Hret as [_ <-].
    eapply hvf_unmap_safe_wf; [exact Hwf|exact H].
  - unfold hvf_region_add in H. eapply hvf_set_phys_mem_wf; [exact Hwf| |exact H].
    intros _. exact Hop.
  - unfold hvf_region_del in H. eapply hvf_set_phys_mem_wf; [exact Hwf| |exact H].
    discriminate.
Qed.

Lemma reachable_wf hv_status st : reachable hv_status st -> slots_wf (slots st).
Proof.
  induction 1 as [|st op st' _ IH Hop Hrun].
  - exact hvf_accel_init_wf.
  - eapply run_op_wf; eassumption.
Qed.

(** C3 (amended): in every state reached from the initial all-free table by
    map, unmap, region-add and region-remove operations that return, whose
    ranges end below 2^64 and whose added regions meet at most one active
    slot, the ranges of any two active slots are disjoint. *)
Theorem slots_disjoint_reachable hv_status st :
  reachable hv_status st -> slots_disjoint (slots st).
Proof. intros H. exact (proj2 (reachable_wf _ _ H)). Qed.

Lemma slots_disjoint_reachable_witness :
  slots_disjoint
    (slots (final (run_ops hv_always_ok
                     [op_region_add (ram_section 0x2000 0x1000 0x9000);
                      op_map 0x7000 0x1000 0x1000 7]
                     hvf_accel_init))).
Proof.
  apply (slots_disjoint_reachable hv_always_ok).
  apply (reach_step _
           (final (run_op hv_always_ok
                     (op_region_add (ram_section 0x2000 0x1000 0x9000))
                     hvf_accel_init))
           (op_map 0x7000 0x1000 0x1000 7)).
  - apply (reach_step _ hvf_accel_init
             (op_region_add (ram_section 0x2000 0x1000 0x9000))).
    + apply reach_init.
    + simpl. unfold two64. repeat split; try lia.
      intros i j s t Hi _ [Hs _] _. exfalso.
      exact (Hs (hvf_accel_init_inactive i s Hi)).
    + vm_compute. reflexivity.
  - simpl. unfold two64. lia.
  - vm_compute. reflexivity.
Defined.

(** C3 as stated fails: a region added over two active slots resets only the
    first one it finds and then shares addresses with the second. *)
Lemma slots_disjoint_counterexample :
  let o := run_ops hv_always_ok
             [op_region_add (ram_section 0x0 0x1000 0x100000);
              op_region_add (ram_section 0x1000 0x1000 0x200000);
              op_region_add (ram_section 0x800 0x1000 0x300000)]
             hvf_accel_init in
  (exists st, o = Returned tt st) /\ ~ slots_disjoint (slots (final o)).
Proof.
  split.
  - eexists. vm_compute. reflexivity.
  - intros H.
    specialize (H 0%nat 1%nat
      {| slot_start := 0x800; slot_size := 0x1000; slot_mem := 0x300000; slot_id := 0 |}
      {| slot_start := 0x1000; slot_size := 0x1000; slot_mem := 0x200000; slot_id := 1 |}).
    unfold ranges_disjoint, active in H. simpl slot_start in H. simpl slot_size in H.
    assert (0x800 + 0x1000 <= 0x1000 \/ 0x1000 + 0x1000 <= 0x800) as [|]; [|lia|lia].
    apply H; [lia| vm_compute; reflexivity | vm_compute; reflexivity | lia | lia].
Qed.

(** ** Mapping over an existing slot *)

Section MapOverSlot.

Variable hv_status : list hv_call -> hv_call -> Z.

(** With a well-formed table, the first overlapping slot found for the range
    of an active slot is that slot. *)
Lemma find_overlap_own_range st i s :
  slots_wf (slots st) -> slots st !! i = Some s -> active s ->
  hvf_find_overlap_slot st (slot_start s) (u64 (slot_start s + slot_size s))
  = Some i.
Proof.
  intros Hwf Hs Ha. pose proof Hwf as [Hfit Hdis].
  destruct (Hfit i s Hs Ha) as (H0 & Hsz & Hend).
  destruct (hvf_find_overlap_slot st (slot_start s)
              (u64 (slot_start s + slot_size s))) as [k|] eqn:Hfind.
  - destruct (find_Some_meets _ _ _ _ Hwf H0 (Z.lt_le_incl _ _ Hsz) Hend Hfind)
      as (t & Ht & (Hta & Hm1 & Hm2) & _).
    destruct (decide (k = i)) as [->|Hne]; [reflexivity|exfalso].
    destruct (Hdis k i t s Hne Ht Hs Hta Ha) as [H|H]; lia.
  - exfalso.
    assert (Hm : meets (slot_start s) (slot_size s) s)
      by (unfold meets; repeat split; [assumption|lia|lia]).
    apply overlap_test_true in Hm; [|lia|lia|lia|intros _; repeat split; assumption].
    rewrite (hvf_find_overlap_slot_None _ _ _ Hfind _ _ Hs) in Hm. discriminate.
Qed.

(** C5: in a table whose active ranges are pairwise disjoint and end below
    2^64, mapping again the triple of an active slot returns HV_SUCCESS and
    leaves the slot table, the mirror slots and the log of hardware calls as
    they were. *)
Theorem hvf_map_safe_same_triple st i s flags :
  slots_wf (slots st) -> slots st !! i = Some s -> active s ->
  hvf_map_safe hv_status (slot_mem s) (slot_start s) (slot_size s) flags st
  = Returned HV_SUCCESS st.
Proof.
  intros Hwf Hs Ha. unfold hvf_map_safe, bind, find_overlap_slot.
  rewrite (find_overlap_own_range _ _ _ Hwf Hs Ha).
  unfold read_slot. rewrite (slot_at_lookup _ _ _ Hs).
  rewrite !Z.eqb_refl. reflexivity.
Qed.

(** C7: in a table whose active ranges are pairwise disjoint and end below
    2^64, a request whose range ends below 2^64 and meets an active slot
    without having its start and size aborts, in the state it was called in:
    no slot is written and no hardware call is made. *)
Theorem hvf_map_safe_partial_overlap st uva gpa size flags j t :
  slots_wf (slots st) -> 0 <= gpa -> 0 <= size -> gpa + size < two64 ->
  slots st !! j = Some t -> meets gpa size t ->
  slot_start t <> gpa \/ slot_size t <> size ->
  hvf_map_safe hv_status uva gpa size flags st = Aborted st.
Proof.
  intros Hwf Hg Hsz Hend Ht Hm Hpart. pose proof Hwf as [Hfit Hdis].
  unfold hvf_map_safe, bind, find_overlap_slot.
  destruct (hvf_find_overlap_slot st gpa (u64 (gpa + size))) as [i|] eqn:Hfind.
  - destruct (find_Some_meets _ _ _ _ Hwf Hg Hsz Hend Hfind)
      as (s & Hs & (Hsa & Hm1 & Hm2) & Hsf).
    unfold read_slot. rewrite (slot_at_lookup _ _ _ Hs).
    assert (Hne : (slot_start s =? gpa) && (slot_size s =? size) = false).
    { apply andb_false_iff.
      destruct (Z.eqb_spec (slot_start s) gpa) as [E1|E1]; [|left; reflexivity].
      destruct (Z.eqb_spec (slot_size s) size) as [E2|E2]; [|right; reflexivity].
      exfalso. destruct (decide (i = j)) as [->|Hij].
      - rewrite Hs in Ht. injection Ht as <-. tauto.
      - destruct Hm as (Hta & Hm3 & Hm4).
        destruct (Hdis i j s t Hij Hs Ht Hsa Hta) as [H|H]; lia. }
    rewrite Hne. rewrite <- andb_assoc, Hne, andb_false_r. reflexivity.
  - exfalso. destruct Hm as (Hta & Hm3 & Hm4).
    destruct (find_None_disjoint _ _ _ Hwf Hg Hsz Hend Hfind j t Ht Hta) as [H|H];
      lia.
Qed.

End MapOverSlot.

(** C5 as stated fails.  The top page is mapped, by one map call on the
    initial table; mapping its triple again finds no overlap, because the end
    of the range wraps to 0, fills a second slot and calls hv_vm_map again.
    And slot 1 of the table left by a region added over two slots is active;
    mapping its triple again finds slot 0 first and aborts. *)
Lemma hvf_map_safe_same_triple_counterexample :
  let o := hvf_map_safe hv_always_ok 0x7000 top_page 0x1000 7 top_page_mapping in
  (slots top_page_mapping !! 0%nat = Some (top_page_slot 0 0x7000)
   /\ returned o = true
   /\ slots (final o) !! 1%nat = Some (top_page_slot 1 0x7000)
   /\ slots top_page_mapping !! 1%nat = Some (free_slot 1)
   /\ hv_log (final o)
      = hv_log top_page_mapping ++ [hv_vm_map 0x7000 top_page 0x1000 7])
  /\ (slots straddled_table !! 1%nat = Some straddled_slot_1
      /\ hvf_map_safe hv_always_ok 0x200000 0x1000 0x1000 7 straddled_table
         = Aborted straddled_table).
Proof. vm_compute. repeat split; reflexivity. Qed.

(** C7 as stated fails.  The request [0x2800, 2^64) cuts the slot [0x2000,
    0x3000) of the table with one mapping; its end wraps to 0, no overlap is
    found, and the request is written to slot 1 and mapped.  And on the table
    left by a region added over two slots, a request with the range of slot 0
    and another pointer cuts slot 1, and is remapped over slot 0. *)
Lemma hvf_map_safe_partial_overlap_counterexample :
  let o := hvf_map_safe hv_always_ok 0x8000 0x2800 (two64 - 0x2800) 7 one_mapping in
  let r := hvf_map_safe hv_always_ok 0x400000 0x800 0x1000 7 straddled_table in
  (slots one_mapping !! 0%nat = Some one_mapping_slot
   /\ meets 0x2800 (two64 - 0x2800) one_mapping_slot
   /\ slot_start one_mapping_slot <> 0x2800
   /\ returned o = true
   /\ slots (final o) !! 1%nat
      = Some {| slot_start := 0x2800; slot_size := two64 - 0x2800;
                slot_mem := 0x8000; slot_id := 1 |}
   /\ hv_log (final o)
      = hv_log one_mapping ++ [hv_vm_map 0x8000 0x2800 (two64 - 0x2800) 7])
  /\ (slots straddled_table !! 0%nat = Some straddled_slot_0
      /\ slots straddled_table !! 1%nat = Some straddled_slot_1
      /\ meets 0x800 0x1000 straddled_slot_1
      /\ slot_start straddled_slot_1 <> 0x800
      /\ returned r = true
      /\ slots (final r) !! 0%nat
         = Some {| slot_start := 0x800; slot_size := 0x1000;
                   slot_mem := 0x400000; slot_id := 0 |}
      /\ hv_log (final r)
         = hv_log straddled_table
           ++ [hv_vm_unmap 0x800 0x1000; hv_vm_map 0x400000 0x800 0x1000 7]).
Proof.
  cbv zeta. split; [split; [|split; [|split; [|split; [|split]]]]
                   |split; [|split; [|split; [|split; [|split; [|split]]]]]].
  - vm_compute. reflexivity.
  - unfold meets, active, two64. simpl. lia.
  - simpl. lia.
  - vm_compute. reflexivity.
  - vm_compute. reflexivity.
  - vm_compute. reflexivity.
  - vm_compute. reflexivity.
  - vm_compute. reflexivity.
  - unfold meets, active. simpl. lia.
  - simpl. lia.
  - vm_compute. reflexivity.
  - vm_compute. reflexivity.
  - vm_compute. reflexivity.
Qed.

(** ** The mirror slots *)

Section Commit.

Variable hv_status : list hv_call -> hv_call -> Z.

Local Abbreviation set_memory := (__hvf_set_memory_with_flags_locked hv_status).

Lemma mac_at_lookup st i m : mac_slots st !! i = Some m -> mac_at st i = m.
Proof. unfold mac_at. intros ->. reflexivity. Qed.

(** Committing a freed slot whose mirror is present: one hv_vm_unmap. *)
Lemma set_memory_release st i s m flags :
  slots st !! i = Some s -> slot_id s = i -> slot_size s = 0 ->
  mac_slots st !! i = Some m -> present m = true -> mac_size m <> 0 ->
  set_memory i flags st =
  if hv_status (hv_log st) (hv_vm_unmap (gpa_start m) (mac_size m)) =? HV_SUCCESS
  then Returned 0 (released i m st) else Aborted (released i m st).
Proof.
  intros Hs Hid Hsz Hm Hp Hmsz.
  unfold __hvf_set_memory_with_flags_locked, bind, read_slot, read_mac.
  rewrite (slot_at_lookup _ _ _ Hs), Hid, (mac_at_lookup _ _ _ Hm), Hp, Hsz.
  destruct (Z.eqb_spec (mac_size m) 0) as [E|_]; [contradiction|]. simpl.
  unfold assert_hvf_ok, released, log_call. simpl.
  destruct (_ =? HV_SUCCESS); reflexivity.
Qed.

(** Committing a free slot whose mirror is absent does nothing. *)
Lemma set_memory_idle st i s m flags :
  slots st !! i = Some s -> slot_id s = i -> slot_size s = 0 ->
  mac_slots st !! i = Some m -> present m = false ->
  set_memory i flags st = Returned 0 st.
Proof.
  intros Hs Hid Hsz Hm Hp.
  unfold __hvf_set_memory_with_flags_locked, bind, read_slot, read_mac.
  rewrite (slot_at_lookup _ _ _ Hs), Hid, (mac_at_lookup _ _ _ Hm), Hp, Hsz.
  reflexivity.
Qed.

(** Committing an active slot whose mirror is absent: one hv_vm_map. *)
Lemma set_memory_commit st i s m flags :
  slots st !! i = Some s -> slot_id s = i -> slot_size s <> 0 ->
  mac_slots st !! i = Some m -> present m = false ->
  set_memory i flags st =
  if hv_status (hv_log st)
       (hv_vm_map (slot_mem s) (slot_start s) (slot_size s) flags) =? HV_SUCCESS
  then Returned 0 (committed i s m flags st)
  else Aborted (committed i s m flags st).
Proof.
  intros Hs Hid Hsz Hm Hp.
  unfold __hvf_set_memory_with_flags_locked, bind, read_slot, read_mac.
  rewrite (slot_at_lookup _ _ _ Hs), Hid, (mac_at_lookup _ _ _ Hm), Hp.
  destruct (Z.eqb_spec (slot_size s) 0) as [E|_]; [contradiction|]. simpl.
  unfold assert_hvf_ok, committed, log_call, write_mac, hv, bind. simpl.
  rewrite (mac_at_lookup _ _ _ Hm).
  destruct (_ =? HV_SUCCESS); reflexivity.
Qed.

End Commit.

(** ** Freeing and claiming a slot, with the hardware commit *)

Lemma mirror_lookup st i s :
  mirror_ok st -> slots st !! i = Some s ->
  exists m, mac_slots st !! i = Some m /\ mirrors s m.
Proof.
  intros [Hlen Hmir] Hs. pose proof (lookup_lt_Some _ _ _ Hs) as Hlt.
  rewrite <- Hlen in Hlt. apply lookup_lt_is_Some in Hlt as [m Hm].
  exists m. split; [assumption|]. eapply Hmir; eassumption.
Qed.

Lemma mirrors_active s m :
  active s -> mirrors s m ->
  present m = true /\ mac_size m = slot_size s /\ gpa_start m = slot_start s
  /\ hva m = slot_mem s.
Proof.
  unfold mirrors, active. intros Ha. destruct (Z.eqb_spec (slot_size s) 0);
    [contradiction|tauto].
Qed.

Lemma mirrors_free s m : slot_size s = 0 -> mirrors s m -> present m = false.
Proof. unfold mirrors. intros ->. simpl. tauto. Qed.

Lemma ids_ok_insert l i s s' :
  ids_ok l -> l !! i = Some s -> slot_id s' = slot_id s -> ids_ok (<[i := s']> l).
Proof.
  intros Hid Hs Heq j t Hj.
  apply lookup_insert_cases in Hj as [(-> & -> & _)|(Hne & Hj)].
  - rewrite Heq. apply Hid. exact Hs.
  - apply Hid. exact Hj.
Qed.

Lemma table_ok_free st i s m :
  table_ok st -> slots st !! i = Some s -> mac_slots st !! i = Some m ->
  table_ok (free_slot_state i s m st).
Proof.
  intros (Hwf & Hid & Hlen & Hmir) Hs Hm. unfold free_slot_state, released.
  split; [|split; [|split]]; simpl.
  - apply slots_wf_free. exact Hwf.
  - eapply ids_ok_insert; [exact Hid|exact Hs|reflexivity].
  - rewrite !length_insert. exact Hlen.
  - intros j t n Hj Hn.
    apply lookup_insert_cases in Hj as [(-> & -> & _)|(Hne & Hj)].
    + apply lookup_insert_cases in Hn as [(_ & -> & _)|(Hne & _)];
        [|contradiction].
      unfold mirrors. simpl. reflexivity.
    + rewrite list_lookup_insert_ne in Hn by exact Hne.
      eapply Hmir; eassumption.
Qed.

Lemma table_ok_fill st j sj mj uva gpa size flags :
  table_ok st -> slots st !! j = Some sj -> slot_size sj = 0 ->
  mac_slots st !! j = Some mj ->
  (size <> 0 -> 0 <= gpa /\ 0 < size /\ gpa + size < two64) ->
  (forall k t, slots st !! k = Some t -> active t ->
     ranges_disjoint gpa size (slot_start t) (slot_size t)) ->
  table_ok (fill_slot_state j sj mj uva gpa size flags st).
Proof.
  intros (Hwf & Hid & Hlen & Hmir) Hs Hfree Hm Hnew Hdis.
  assert (Hwf' : slots_wf (<[j := fill_slot uva gpa size sj]> (slots st))).
  { apply slots_wf_fill; [assumption|assumption|]. intros k t _. apply Hdis. }
  assert (Hid' : ids_ok (<[j := fill_slot uva gpa size sj]> (slots st))).
  { eapply ids_ok_insert; [exact Hid|exact Hs|reflexivity]. }
  unfold fill_slot_state. destruct (Z.eqb_spec size 0) as [E|E].
  - split; [|split; [|split]]; simpl; try assumption.
    + rewrite length_insert. exact Hlen.
    + intros k t n Hk Hn.
      apply lookup_insert_cases in Hk as [(-> & -> & _)|(Hne & Hk)].
      * unfold mirrors. simpl. rewrite E. simpl.
        eapply mirrors_free; [exact Hfree|]. eapply Hmir; eassumption.
      * eapply Hmir; eassumption.
  - unfold committed. split; [|split; [|split]]; simpl; try assumption.
    + rewrite !length_insert. exact Hlen.
    + intros k t n Hk Hn.
      apply lookup_insert_cases in Hk as [(-> & -> & _)|(Hne & Hk)].
      * apply lookup_insert_cases in Hn as [(_ & -> & _)|(Hne & _)];
          [|contradiction].
        unfold mirrors. simpl. destruct (Z.eqb_spec size 0); [contradiction|].
        repeat split.
      * rewrite list_lookup_insert_ne in Hn by exact Hne.
        eapply Hmir; eassumption.
Qed.

Section Operations.

Variable hv_status : list hv_call -> hv_call -> Z.

Local Abbreviation set_memory := (__hvf_set_memory_with_flags_locked hv_status).

Local Abbreviation hv_ok := (hv_accepts hv_status).

(** mem->size = 0 and its commit, for an active slot of a table in order. *)
Lemma free_commit_eq st i s m flags :
  table_ok st -> slots st !! i = Some s -> active s ->
  mac_slots st !! i = Some m ->
  set_memory i flags (with_slots <[i := set_size 0 s]> st) =
  if hv_ok st (hv_vm_unmap (slot_start s) (slot_size s))
  then Returned 0 (free_slot_state i s m st)
  else Aborted (free_slot_state i s m st).
Proof.
  intros (Hwf & Hid & Hlen & Hmir) Hs Ha Hm.
  destruct (mirrors_active _ _ Ha (Hmir _ _ _ Hs Hm)) as (Hp & Hsz & Hg & _).
  rewrite (set_memory_release hv_status _ i (set_size 0 s) m).
  - unfold hv_accepts, free_slot_state. simpl. rewrite Hg, Hsz. reflexivity.
  - simpl. apply list_lookup_insert_eq. eapply lookup_lt_Some. exact Hs.
  - simpl. apply Hid. exact Hs.
  - reflexivity.
  - exact Hm.
  - exact Hp.
  - rewrite Hsz. exact Ha.
Qed.

(** The tail of hvf_map_safe when the first free slot is [j]. *)
Lemma map_into_free_slot_eq st j sj mj uva gpa size flags :
  table_ok st -> hvf_next_free_slot st = Some j ->
  slots st !! j = Some sj -> slot_size sj = 0 -> mac_slots st !! j = Some mj ->
  map_into_free_slot hv_status uva gpa size flags st =
  if (size =? 0) || hv_ok st (hv_vm_map uva gpa size flags)
  then Returned 0 (fill_slot_state j sj mj uva gpa size flags st)
  else Aborted (fill_slot_state j sj mj uva gpa size flags st).
Proof.
  intros (Hwf & Hid & Hlen & Hmir) Hnext Hs Hfree Hm.
  pose proof (mirrors_free _ _ Hfree (Hmir _ _ _ Hs Hm)) as Hp.
  unfold map_into_free_slot, bind at 1, next_free_slot. rewrite Hnext.
  unfold bind at 1, read_slot. rewrite (slot_at_lookup _ _ _ Hs), Hfree. simpl.
  unfold bind at 1, write_slot. unfold bind at 1.
  set (st1 := with_slots <[j := fill_slot uva gpa size sj]> st).
  assert (Hs1 : slots st1 !! j = Some (fill_slot uva gpa size sj)).
  { simpl. apply list_lookup_insert_eq. eapply lookup_lt_Some. exact Hs. }
  unfold fill_slot_state. fold st1. destruct (Z.eqb_spec size 0) as [E|E].
  - rewrite (set_memory_idle hv_status st1 j (fill_slot uva gpa size sj) mj);
      try assumption.
    + reflexivity.
    + simpl. apply Hid. exact Hs.
  - rewrite (set_memory_commit hv_status st1 j (fill_slot uva gpa size sj) mj);
      try assumption.
    + unfold hv_accepts. simpl. destruct (_ =? HV_SUCCESS); reflexivity.
    + simpl. apply Hid. exact Hs.
Qed.

(** When map_into_free_slot returns, it has claimed a free slot. *)
Lemma map_into_free_slot_inv st uva gpa size flags r st' :
  table_ok st ->
  map_into_free_slot hv_status uva gpa size flags st = Returned r st' ->
  exists j sj mj,
    hvf_next_free_slot st = Some j /\ slots st !! j = Some sj
    /\ slot_size sj = 0 /\ mac_slots st !! j = Some mj /\ r = 0
    /\ st' = fill_slot_state j sj mj uva gpa size flags st.
Proof.
  intros Hok H. pose proof H as H0.
  apply map_into_free_slot_slots in H as (j & sj & Hs & Hfree & Hnext & _).
  destruct Hok as (Hwf & Hid & Hmok).
  destruct (mirror_lookup _ _ _ Hmok Hs) as (mj & Hm & _).
  rewrite (map_into_free_slot_eq st j sj mj) in H0;
    [|split; [|split]; assumption|assumption..].
  destruct (_ || _); [|discriminate]. injection H0 as <- <-.
  exists j, sj, mj. repeat split; assumption.
Qed.

(** What a returning hvf_map_safe has done: nothing (same triple), a slot
    freed and one claimed (same range, other pointer), or one claimed. *)
Lemma hvf_map_safe_inv st uva gpa size flags r st' :
  table_ok st -> 0 <= gpa -> 0 <= size -> gpa + size < two64 ->
  hvf_map_safe hv_status uva gpa size flags st = Returned r st' ->
  (exists i s, slots st !! i = Some s /\ active s /\ slot_start s = gpa
     /\ slot_size s = size /\ slot_mem s = uva /\ st' = st)
  \/ (exists i s m j sj mj,
        slots st !! i = Some s /\ active s /\ slot_start s = gpa
        /\ slot_size s = size /\ mac_slots st !! i = Some m
        /\ slots (free_slot_state i s m st) !! j = Some sj /\ slot_size sj = 0
        /\ mac_slots (free_slot_state i s m st) !! j = Some mj
        /\ st' = fill_slot_state j sj mj uva gpa size flags
                   (free_slot_state i s m st))
  \/ (hvf_find_overlap_slot st gpa (u64 (gpa + size)) = None
      /\ exists j sj mj, slots st !! j = Some sj /\ slot_size sj = 0
           /\ mac_slots st !! j = Some mj
           /\ st' = fill_slot_state j sj mj uva gpa size flags st).
Proof.
  intros Hok Hg Hsz Hend H. pose proof Hok as (Hwf & Hid & Hmok).
  unfold hvf_map_safe in H. step_pure H.
  destruct (hvf_find_overlap_slot st gpa (u64 (gpa + size))) as [i|] eqn:Hfind.
  - destruct (find_Some_meets _ _ _ _ Hwf Hg Hsz Hend Hfind)
      as (s & Hs & (Ha & Hm1 & Hm2) & Hf).
    step_pure H. rewrite (slot_at_lookup _ _ _ Hs) in H.
    destruct (Z.eqb_spec (slot_start s) gpa) as [E1|E1];
      [|rewrite andb_false_r in H; discriminate].
    destruct (Z.eqb_spec (slot_size s) size) as [E2|E2];
      [|rewrite andb_false_r in H; discriminate].
    destruct (Z.eqb_spec (slot_mem s) uva) as [E3|E3]; simpl in H.
    + finish H. left. exists i, s. repeat split; assumption.
    + right. left. destruct (mirror_lookup _ _ _ Hmok Hs) as (m & Hm & _).
      step_pure H. apply bind_Returned in H as (r0 & st1 & Hfree & H).
      rewrite (free_commit_eq st i s m 0 Hok Hs Ha Hm) in Hfree.
      destruct (hv_ok _ _); [|discriminate]. injection Hfree as _ <-.
      apply map_into_free_slot_inv in H
        as (j & sj & mj & _ & Hsj & Hfj & Hmj & _ & ->);
        [|apply table_ok_free; assumption].
      exists i, s, m, j, sj, mj. repeat split; assumption.
  - right. right. split; [reflexivity|].
    apply map_into_free_slot_inv in H
      as (j & sj & mj & _ & Hsj & Hfj & Hmj & _ & ->); [|assumption].
    exists j, sj, mj. repeat split; assumption.
Qed.

(** What a returning hvf_unmap_safe has done: nothing, or one slot freed. *)
Lemma hvf_unmap_safe_inv st gpa size r st' :
  table_ok st ->
  hvf_unmap_safe hv_status gpa size st = Returned r st' ->
  (hvf_find_overlap_slot st gpa (u64 (gpa + size)) = None /\ st' = st)
  \/ (exists i s m, slots st !! i = Some s /\ active s /\ slot_start s = gpa
        /\ slot_size s = size /\ mac_slots st !! i = Some m
        /\ st' = free_slot_state i s m st).
Proof.
  intros Hok H. pose proof Hok as (Hwf & Hid & Hmok).
  unfold hvf_unmap_safe in H. step_pure H.
  destruct (hvf_find_overlap_slot st gpa (u64 (gpa + size))) as [i|] eqn:Hfind.
  - right. apply hvf_find_overlap_slot_Some in Hfind as (s & Hs & Ht & _).
    pose proof (overlap_test_active _ _ _ Ht) as Ha.
    step_pure H. rewrite (slot_at_lookup _ _ _ Hs) in H.
    destruct (Z.eqb_spec (slot_start s) gpa) as [E1|E1]; [|discriminate].
    destruct (Z.eqb_spec (slot_size s) size) as [E2|E2]; [|discriminate].
    simpl in H. destruct (mirror_lookup _ _ _ Hmok Hs) as (m & Hm & _).
    step_pure H. apply bind_Returned in H as (r0 & st1 & Hfree & H).
    rewrite (free_commit_eq st i s m 0 Hok Hs Ha Hm) in Hfree.
    destruct (hv_ok _ _); [|discriminate]. injection Hfree as _ <-.
    finish H. exists i, s, m. repeat split; assumption.
  - left. finish H. split; reflexivity.
Qed.

End Operations.

(** ** The table stays in order under map and unmap *)

Lemma free_slots_ids n : forall x i s,
  map free_slot (seq x n) !! i = Some s -> slot_id s = (x + i)%nat.
Proof.
  induction n as [|n IH]; intros x i s H; [discriminate|].
  destruct i as [|i]; simpl in H.
  - injection H as <-. simpl. lia.
  - apply IH in H. lia.
Qed.

Lemma hvf_accel_init_ok : table_ok hvf_accel_init.
Proof.
  split; [exact hvf_accel_init_wf|split; [|split]].
  - intros i s Hs. apply free_slots_ids in Hs. exact Hs.
  - change (length (replicate HVF_MAX_SLOTS zero_mac_slot)
            = length (map free_slot (seq 0 HVF_MAX_SLOTS))).
    rewrite length_replicate, length_map, length_seq. reflexivity.
  - intros i s m Hs Hm. unfold mirrors.
    rewrite (hvf_accel_init_inactive i s Hs).
    change (replicate HVF_MAX_SLOTS zero_mac_slot !! i = Some m) in Hm.
    apply lookup_replicate in Hm as [-> _]. reflexivity.
Qed.

Section Preservation.

Variable hv_status : list hv_call -> hv_call -> Z.

Lemma hvf_map_safe_ok st uva gpa size flags r st' :
  table_ok st -> 0 <= gpa -> 0 <= size -> gpa + size < two64 ->
  hvf_map_safe hv_status uva gpa size flags st = Returned r st' ->
  table_ok st'.
Proof.
  intros Hok Hg Hsz Hend H.
  assert (Hnew : size <> 0 -> 0 <= gpa /\ 0 < size /\ gpa + size < two64) by lia.
  destruct (hvf_map_safe_inv _ _ _ _ _ _ _ _ Hok Hg Hsz Hend H)
    as [(i & s & _ & _ & _ & _ & _ & ->)
       |[(i & s & m & j & sj & mj & Hs & Ha & E1 & E2 & Hm & Hsj & Hfj & Hmj & ->)
        |(Hnone & j & sj & mj & Hsj & Hfj & Hmj & ->)]].
  - exact Hok.
  - apply table_ok_fill; try assumption.
    + apply table_ok_free; assumption.
    + rewrite <- E1, <- E2. simpl.
      apply freed_range_disjoint; [apply Hok|assumption|assumption].
  - apply table_ok_fill; try assumption.
    apply find_None_disjoint; [apply Hok|assumption..].
Qed.

Lemma hvf_unmap_safe_ok st gpa size r st' :
  table_ok st ->
  hvf_unmap_safe hv_status gpa size st = Returned r st' ->
  table_ok st'.
Proof.
  intros Hok H.
  destruct (hvf_unmap_safe_inv _ _ _ _ _ _ Hok H)
    as [(_ & ->)|(i & s & m & Hs & _ & _ & _ & Hm & ->)].
  - exact Hok.
  - apply table_ok_free; assumption.
Qed.

End Preservation.

Lemma hvf_next_free_slot_free st i s :
  slots st !! i = Some s -> slot_size s = 0 ->
  exists j sj, hvf_next_free_slot st = Some j /\ slots st !! j = Some sj
               /\ slot_size sj = 0.
Proof.
  intros Hs Hfree. unfold hvf_next_free_slot.
  pose proof (next_free_from_spec (slots st) 0 None _ eq_refl) as H.
  destruct (slots st) as [|s0 l] eqn:El; [discriminate|].
  destruct H as (k & sk & Hr & Hk & [Hz|Hall]).
  - exists k, sk. rewrite Hr. repeat split; assumption.
  - exfalso. exact (Hall i s Hs Hfree).
Qed.

Section Remap.

Variable hv_status : list hv_call -> hv_call -> Z.

(** C6: in a table in order (active ranges pairwise disjoint and ending
    below 2^64, every slot carrying its index as id, the mirror slots in step
    with the slots), mapping another host pointer over the range of an active
    slot, with a hardware layer that accepts the two calls, returns after
    exactly one hv_vm_unmap followed by exactly one hv_vm_map; the mirror of
    that range is present and holds the new pointer, and no present mirror of
    that range holds another. *)
Theorem hvf_map_safe_new_host_ptr st i s uva flags :
  table_ok st -> slots st !! i = Some s -> active s -> slot_mem s <> uva ->
  hv_status (hv_log st) (hv_vm_unmap (slot_start s) (slot_size s)) = HV_SUCCESS ->
  hv_status (hv_log st ++ [hv_vm_unmap (slot_start s) (slot_size s)])
    (hv_vm_map uva (slot_start s) (slot_size s) flags) = HV_SUCCESS ->
  exists st',
    hvf_map_safe hv_status uva (slot_start s) (slot_size s) flags st
    = Returned 0 st'
    /\ hv_log st' = hv_log st ++ [hv_vm_unmap (slot_start s) (slot_size s);
                                  hv_vm_map uva (slot_start s) (slot_size s) flags]
    /\ (exists k m, mac_slots st' !! k = Some m /\ present m = true
          /\ gpa_start m = slot_start s /\ mac_size m = slot_size s
          /\ hva m = uva)
    /\ (forall k m, mac_slots st' !! k = Some m -> present m = true ->
          gpa_start m = slot_start s -> mac_size m = slot_size s ->
          hva m = uva).
Proof.
  intros Hok Hs Ha Hptr Hun Hmap. pose proof Hok as (Hwf & Hid & Hmok).
  destruct (mirror_lookup _ _ _ Hmok Hs) as (m & Hm & Hmir).
  set (st1 := free_slot_state i s m st).
  assert (Hok1 : table_ok st1) by (apply table_ok_free; assumption).
  assert (Hs1 : slots st1 !! i = Some (set_size 0 s)).
  { simpl. apply list_lookup_insert_eq. eapply lookup_lt_Some. exact Hs. }
  destruct (hvf_next_free_slot_free st1 i _ Hs1 eq_refl) as (j & sj & Hnext & Hsj & Hfj).
  destruct (mirror_lookup _ _ _ (proj2 (proj2 Hok1)) Hsj) as (mj & Hmj & _).
  set (st2 := fill_slot_state j sj mj uva (slot_start s) (slot_size s) flags st1).
  assert (Hlog1 : hv_log st1 = hv_log st ++ [hv_vm_unmap (slot_start s) (slot_size s)]).
  { destruct (mirrors_active _ _ Ha Hmir) as (_ & E1 & E2 & _).
    simpl. rewrite E1, E2. reflexivity. }
  assert (Hrun : hvf_map_safe hv_status uva (slot_start s) (slot_size s) flags st
                 = Returned 0 st2).
  { unfold hvf_map_safe, bind at 1, find_overlap_slot.
    rewrite (find_overlap_own_range _ _ _ Hwf Hs Ha).
    unfold bind at 1, read_slot. rewrite (slot_at_lookup _ _ _ Hs).
    destruct (Z.eqb_spec (slot_mem s) uva) as [E|_]; [contradiction|].
    rewrite !Z.eqb_refl. simpl. unfold bind at 1, write_slot. unfold bind at 1.
    rewrite (free_commit_eq hv_status st i s m 0 Hok Hs Ha Hm).
    unfold hv_accepts. rewrite Hun. simpl. fold st1.
    rewrite (map_into_free_slot_eq hv_status st1 j sj mj); try assumption.
    unfold hv_accepts. rewrite Hlog1, Hmap. rewrite orb_true_r. reflexivity. }
  assert (Hsz : (slot_size s =? 0) = false) by (apply Z.eqb_neq; exact Ha).
  assert (Hok2 : table_ok st2).
  { destruct (Hwf) as [Hfit _]. destruct (Hfit i s Hs Ha) as (? & ? & ?).
    apply table_ok_fill; try assumption; [intros _; repeat split; assumption|].
    simpl. apply freed_range_disjoint; assumption. }
  assert (Hsj2 : slots st2 !! j = Some (fill_slot uva (slot_start s) (slot_size s) sj)).
  { unfold st2, fill_slot_state. rewrite Hsz. simpl.
    apply list_lookup_insert_eq. rewrite length_insert.
    apply lookup_lt_Some in Hsj. simpl in Hsj. rewrite length_insert in Hsj.
    exact Hsj. }
  exists st2. split; [exact Hrun|]. split; [|split].
  - unfold st2, fill_slot_state. rewrite Hsz. simpl. simpl in Hlog1.
    rewrite Hlog1, <- app_assoc. reflexivity.
  - destruct (mirror_lookup _ _ _ (proj2 (proj2 Hok2)) Hsj2) as (m2 & Hm2 & Hmir2).
    apply mirrors_active in Hmir2 as (Hp & E1 & E2 & E3); [|exact Ha].
    exists j, m2. repeat split; assumption.
  - intros k mk Hk Hp Eg Esz.
    destruct Hok2 as ((Hfit2 & Hdis2) & _ & Hlen2 & Hmir2).
    pose proof (lookup_lt_Some _ _ _ Hk) as Hlt. rewrite Hlen2 in Hlt.
    apply lookup_lt_is_Some in Hlt as [t Ht].
    pose proof (Hmir2 _ _ _ Ht Hk) as Hmt. unfold mirrors in Hmt.
    destruct (Z.eqb_spec (slot_size t) 0) as [E|E]; [congruence|].
    destruct Hmt as (_ & E1 & E2 & E3).
    destruct (decide (k = j)) as [->|Hne].
    + rewrite Hsj2 in Ht. injection Ht as <-. rewrite E3. reflexivity.
    + exfalso. destruct (Hfit2 _ _ Ht E) as (? & ? & ?).
      destruct (Hdis2 k j t _ Hne Ht Hsj2 E Ha) as [H'|H']; simpl in H'; lia.
Qed.

End Remap.

(** C6 as stated fails.  Over the mapped top page, a map with another host
    pointer issues one hv_vm_map and no hv_vm_unmap, and leaves the mirror
    of the old pointer present beside the new one.  Over slot 1 of the table
    left by a region added over two slots it aborts without any hardware
    call.  And when the hardware layer refuses the unmap the process is
    terminated after it, before any map. *)
Lemma hvf_map_safe_new_host_ptr_counterexample :
  let o := hvf_map_safe hv_always_ok 0x8000 top_page 0x1000 7 top_page_mapping in
  let r := hvf_map_safe hv_refuses_unmap 0x8000 0x2000 0x1000 7 one_mapping in
  (slots top_page_mapping !! 0%nat = Some (top_page_slot 0 0x7000)
   /\ returned o = true
   /\ hv_log (final o)
      = hv_log top_page_mapping ++ [hv_vm_map 0x8000 top_page 0x1000 7]
   /\ mac_slots (final o) !! 0%nat
      = Some {| present := true; mac_size := 0x1000; gpa_start := top_page;
                gva := 0; hva := 0x7000 |}
   /\ mac_slots (final o) !! 1%nat
      = Some {| present := true; mac_size := 0x1000; gpa_start := top_page;
                gva := 0; hva := 0x8000 |})
  /\ (slots straddled_table !! 1%nat = Some straddled_slot_1
      /\ hvf_map_safe hv_always_ok 0x400000 0x1000 0x1000 7 straddled_table
         = Aborted straddled_table)
  /\ (slots one_mapping !! 0%nat = Some one_mapping_slot
      /\ returned r = false
      /\ hv_log (final r) = hv_log one_mapping ++ [hv_vm_unmap 0x2000 0x1000]).
Proof. vm_compute. repeat split; reflexivity. Qed.

(** ** Address translation against the mappings in force *)

Lemma slot_of_unique x y s : slot_of x s -> slot_of y s -> x = y.
Proof.
  intros (_ & E1 & E2 & E3) (_ & F1 & F2 & F3). destruct x, y. simpl in *.
  congruence.
Qed.

Lemma same_range_slot x s g sz :
  slot_of x s -> same_range g sz x = true <-> slot_start s = g /\ slot_size s = sz.
Proof.
  intros (_ & E1 & E2 & _). unfold same_range.
  rewrite andb_true_iff, !Z.eqb_eq, E1, E2. tauto.
Qed.

(** Two active slots of a well-formed table with one range are one slot. *)
Lemma same_range_same_slot l i j s t :
  slots_wf l -> l !! i = Some s -> l !! j = Some t -> active s -> active t ->
  slot_start s = slot_start t -> slot_size s = slot_size t -> i = j.
Proof.
  intros [Hfit Hdis] Hs Ht Ha Hb E1 E2.
  destruct (decide (i = j)) as [|Hne]; [assumption|exfalso].
  destruct (Hfit _ _ Hs Ha) as (? & ? & ?).
  destruct (Hdis i j s t Hne Hs Ht Ha Hb) as [H'|H']; lia.
Qed.

Lemma models_free st M i s m :
  table_ok st -> models st M -> slots st !! i = Some s -> active s ->
  models (free_slot_state i s m st)
    (List.filter (fun x => negb (same_range (slot_start s) (slot_size s) x)) M).
Proof.
  intros (Hwf & _) HM Hs Ha x. unfold models in HM.
  rewrite filter_In, HM, negb_true_iff. simpl. split.
  - intros [(k & t & Ht & Hx) Hdiff]. exists k, t. split; [|assumption].
    destruct (decide (i = k)) as [->|Hne].
    + exfalso. rewrite Hs in Ht. injection Ht as <-.
      assert (same_range (slot_start s) (slot_size s) x = true)
        by (apply (same_range_slot x s); [assumption|split; reflexivity]).
      congruence.
    + rewrite list_lookup_insert_ne by exact Hne. exact Ht.
  - intros (k & t & Ht & Hx).
    apply lookup_insert_cases in Ht as [(-> & -> & _)|(Hne & Ht)].
    + exfalso. destruct Hx as [Hx _]. exact (Hx eq_refl).
    + split; [exists k, t; split; assumption|].
      apply not_true_is_false. intros Hsame.
      apply (same_range_slot x t) in Hsame as [E1 E2]; [|assumption].
      apply Hne. eapply same_range_same_slot; try eassumption; [|congruence..].
      apply Hx.
Qed.

Lemma models_fill st M j sj mj uva gpa size flags :
  models st M -> slots st !! j = Some sj -> slot_size sj = 0 -> size <> 0 ->
  models (fill_slot_state j sj mj uva gpa size flags st)
    ({| m_gpa := gpa; m_size := size; m_hva := uva |} :: M).
Proof.
  intros HM Hsj Hfj Hsz x. unfold models in HM. unfold fill_slot_state.
  destruct (Z.eqb_spec size 0) as [|_]; [contradiction|]. simpl. rewrite HM.
  assert (Hnew : slot_of {| m_gpa := gpa; m_size := size; m_hva := uva |}
                   (fill_slot uva gpa size sj)) by (repeat split; assumption).
  split.
  - intros [<-|(k & t & Ht & Hx)].
    + exists j, (fill_slot uva gpa size sj). split; [|exact Hnew].
      apply list_lookup_insert_eq. eapply lookup_lt_Some. exact Hsj.
    + exists k, t. split; [|assumption].
      destruct (decide (j = k)) as [->|Hne].
      * exfalso. rewrite Hsj in Ht. injection Ht as <-.
        destruct Hx as [Hx _]. exact (Hx Hfj).
      * rewrite list_lookup_insert_ne by exact Hne. exact Ht.
  - intros (k & t & Ht & Hx).
    apply lookup_insert_cases in Ht as [(-> & -> & _)|(Hne & Ht)].
    + left. eapply slot_of_unique; eassumption.
    + right. exists k, t. split; assumption.
Qed.

Lemma models_fill_empty st M j sj mj uva gpa flags :
  models st M -> slots st !! j = Some sj -> slot_size sj = 0 ->
  models (fill_slot_state j sj mj uva gpa 0 flags st) M.
Proof.
  intros HM Hsj Hfj x. unfold models in HM. unfold fill_slot_state. simpl.
  rewrite HM. split.
  - intros (k & t & Ht & Hx). exists k, t. split; [|assumption].
    destruct (decide (j = k)) as [->|Hne].
    + exfalso. rewrite Hsj in Ht. injection Ht as <-.
      destruct Hx as [Hx _]. exact (Hx Hfj).
    + rewrite list_lookup_insert_ne by exact Hne. exact Ht.
  - intros (k & t & Ht & Hx).
    apply lookup_insert_cases in Ht as [(-> & -> & _)|(Hne & Ht)].
    + exfalso. destruct Hx as [Hx _]. exact (Hx eq_refl).
    + exists k, t. split; assumption.
Qed.

Lemma models_filter st M g sz :
  models st M ->
  (forall i s, slots st !! i = Some s -> active s ->
     ~ (slot_start s = g /\ slot_size s = sz)) ->
  models st (List.filter (fun x => negb (same_range g sz x)) M).
Proof.
  intros HM Hno x. unfold models in HM. rewrite filter_In, HM, negb_true_iff. split.
  - intros [H _]. exact H.
  - intros (k & t & Ht & Hx). split; [exists k, t; split; assumption|].
    apply not_true_is_false. intros Hsame.
    apply (same_range_slot x t) in Hsame; [|assumption].
    apply (Hno k t Ht); [apply Hx|assumption].
Qed.

Section Translation.

Variable hv_status : list hv_call -> hv_call -> Z.

Lemma run_call_models st M c st' :
  table_ok st -> models st M -> call_fits c ->
  run_call hv_status c st = Returned tt st' ->
  table_ok st' /\ models st' (mappings_step M c).
Proof.
  intros Hok HM Hfit H. pose proof Hok as (Hwf & Hid & Hmok).
  destruct c as [uva gpa size flags|gpa size]; simpl in H, Hfit.
  - apply bind_Returned in H as (r & st1 & H & Hret). finish Hret.
    destruct Hfit as (Hg & Hsz & Hend).
    split; [eapply hvf_map_safe_ok; [exact Hok| | | |exact H]; assumption|].
    destruct (hvf_map_safe_inv _ _ _ _ _ _ _ _ Hok Hg Hsz Hend H)
      as [(i & s & Hs & Ha & E1 & E2 & E3 & ->)
         |[(i & s & m & j & sj & mj & Hs & Ha & E1 & E2 & Hm & Hsj & Hfj & Hmj & ->)
          |(Hnone & j & sj & mj & Hsj & Hfj & Hmj & ->)]]; simpl.
    + (* the same triple again *)
      destruct (Z.eqb_spec size 0) as [E|E]; [exfalso; apply Ha; congruence|].
      intros x. simpl. rewrite filter_In, negb_true_iff. unfold models in HM.
      rewrite HM. split.
      * intros [<-|[Hx _]]; [|exact Hx]. exists i, s. repeat split; assumption.
      * intros (k & t & Ht & Hx).
        destruct (same_range gpa size x) eqn:Hsame.
        -- left. apply (same_range_slot x t) in Hsame as [F1 F2]; [|assumption].
           assert (k = i) as ->
             by (eapply same_range_same_slot; try eassumption;
                 [apply Hx|congruence..]).
           rewrite Hs in Ht. injection Ht as <-.
           destruct Hx as (_ & G1 & G2 & G3). destruct x; simpl in *. congruence.
        -- right. split; [exists k, t; split; assumption|reflexivity].
    + (* the same range, another pointer *)
      destruct (Z.eqb_spec size 0) as [E|E]; [exfalso; apply Ha; congruence|].
      apply models_fill; try assumption.
      rewrite <- E1, <- E2. apply models_free; assumption.
    + (* a fresh range *)
      destruct (Z.eqb_spec size 0) as [E|E].
      * subst size. apply models_fill_empty; assumption.
      * apply models_fill; try assumption. apply models_filter; [assumption|].
        intros k t Ht Hta [F1 F2].
        destruct (find_None_disjoint _ _ _ Hwf Hg Hsz Hend Hnone k t Ht Hta); lia.
  - apply bind_Returned in H as (r & st1 & H & Hret). finish Hret.
    split; [eapply hvf_unmap_safe_ok; [exact Hok|exact H]|].
    destruct (hvf_unmap_safe_inv _ _ _ _ _ _ Hok H)
      as [(Hnone & ->)|(i & s & m & Hs & Ha & E1 & E2 & Hm & ->)]; simpl.
    + apply models_filter; [assumption|]. intros k t Ht Hta [F1 F2].
      destruct Hwf as [Hfits _]. destruct (Hfits _ _ Ht Hta) as (? & ? & ?).
      assert (Hmeet : meets gpa size t) by (repeat split; [assumption|lia|lia]).
      apply overlap_test_true in Hmeet; [|lia|lia|lia|intros _; apply (Hfits _ _ Ht Hta)].
      rewrite (hvf_find_overlap_slot_None _ _ _ Hnone _ _ Ht) in Hmeet.
      discriminate.
    + rewrite <- E1, <- E2. apply models_free; assumption.
Qed.

Lemma run_calls_models cs : forall st M st',
  table_ok st -> models st M -> Forall call_fits cs ->
  run_calls hv_status cs st = Returned tt st' ->
  table_ok st' /\ models st' (fold_left mappings_step cs M).
Proof.
  induction cs as [|c cs IH]; intros st M st' Hok HM Hfit H; simpl in H.
  - finish H. split; assumption.
  - apply bind_Returned in H as ([] & st1 & Hc & H).
    apply Forall_cons in Hfit as [Hc_fit Hfit].
    destruct (run_call_models _ _ _ _ Hok HM Hc_fit Hc) as [Hok1 HM1].
    simpl. eapply IH; eassumption.
Qed.

Lemma hvf_accel_init_models : models hvf_accel_init [].
Proof.
  intros x. split; [intros []|].
  intros (i & s & Hs & Ha & _). exact (Ha (hvf_accel_init_inactive i s Hs)).
Qed.

End Translation.

Lemma gpa2hva_from_Some l gpa : forall v,
  gpa2hva_from l gpa = Some v ->
  exists k m, l !! k = Some m /\ present m = true
    /\ gpa_start m <= gpa < u64 (gpa_start m + mac_size m)
    /\ v = u64 (hva m + (gpa - gpa_start m)).
Proof.
  induction l as [|m l IH]; intros v H; simpl in H; [discriminate|].
  destruct (present m) eqn:Hp; simpl in H.
  - destruct (Z.leb_spec (gpa_start m) gpa) as [H1|H1]; simpl in H.
    + destruct (Z.ltb_spec gpa (u64 (gpa_start m + mac_size m))) as [H2|H2].
      * injection H as <-. exists 0%nat, m. repeat split; assumption.
      * apply IH in H as (k & m' & H). exists (S k), m'. exact H.
    + apply IH in H as (k & m' & H). exists (S k), m'. exact H.
  - apply IH in H as (k & m' & H). exists (S k), m'. exact H.
Qed.

Lemma gpa2hva_from_None l gpa :
  gpa2hva_from l gpa = None ->
  forall k m, l !! k = Some m -> present m = true ->
    ~ gpa_start m <= gpa < u64 (gpa_start m + mac_size m).
Proof.
  induction l as [|m0 l IH]; intros H k m Hk Hp Hin; [discriminate|].
  simpl in H. destruct k as [|k]; simpl in Hk.
  - injection Hk as ->. rewrite Hp in H. simpl in H.
    destruct (Z.leb_spec (gpa_start m) gpa) as [H1|H1]; [|lia]. simpl in H.
    destruct (Z.ltb_spec gpa (u64 (gpa_start m + mac_size m))) as [H2|H2];
      [discriminate|lia].
  - apply (IH) with (k := k) (m := m); try assumption.
    destruct (negb (present m0)); [assumption|].
    destruct ((gpa_start m0 <=? gpa) && _); [discriminate|assumption].
Qed.

(** In a table in order, the translation of [x] is decided by the one active
    slot that covers it. *)
Lemma hvf_gpa2hva_models st M x :
  table_ok st -> models st M ->
  (forall m, In m M -> covers x m ->
     hvf_gpa2hva st x = Some (u64 (m_hva m + (x - m_gpa m))))
  /\ ((forall m, In m M -> ~ covers x m) -> hvf_gpa2hva st x = None).
Proof.
  intros ((Hfit & Hdis) & Hid & Hlen & Hmir) HM. unfold hvf_gpa2hva.
  assert (Hback : forall k m, mac_slots st !! k = Some m -> present m = true ->
            gpa_start m <= x < u64 (gpa_start m + mac_size m) ->
            exists t, slots st !! k = Some t /\ active t
              /\ slot_start t <= x < slot_start t + slot_size t
              /\ hva m = slot_mem t /\ gpa_start m = slot_start t).
  { intros k m Hk Hp Hin.
    pose proof (lookup_lt_Some _ _ _ Hk) as Hlt. rewrite Hlen in Hlt.
    apply lookup_lt_is_Some in Hlt as [t Ht]. exists t.
    pose proof (Hmir _ _ _ Ht Hk) as Hmt. unfold mirrors in Hmt.
    destruct (Z.eqb_spec (slot_size t) 0) as [E|E]; [congruence|].
    destruct Hmt as (_ & E1 & E2 & E3). destruct (Hfit _ _ Ht E) as (? & ? & ?).
    rewrite E1, E2, u64_small in Hin by lia. repeat split; try assumption; lia. }
  split.
  - intros m Hm Hcov. apply HM in Hm as (i & s & Hs & Ha & E1 & E2 & E3).
    unfold covers in Hcov. rewrite <- E1, <- E2 in Hcov.
    destruct (gpa2hva_from (mac_slots st) x) as [v|] eqn:Hres.
    + apply gpa2hva_from_Some in Hres as (k & mk & Hk & Hp & Hin & ->).
      destruct (Hback _ _ Hk Hp Hin) as (t & Ht & Hta & Hint & F1 & F2).
      assert (k = i) as ->.
      { destruct (decide (k = i)) as [|Hne]; [assumption|exfalso].
        destruct (Hdis k i t s Hne Ht Hs Hta Ha) as [H'|H']; lia. }
      rewrite Hs in Ht. injection Ht as <-. rewrite F1, F2, E1, E3. reflexivity.
    + exfalso. pose proof (lookup_lt_Some _ _ _ Hs) as Hlt. rewrite <- Hlen in Hlt.
      apply lookup_lt_is_Some in Hlt as [mi Hmi].
      destruct (mirrors_active _ _ Ha (Hmir _ _ _ Hs Hmi)) as (Hp & F1 & F2 & _).
      apply (gpa2hva_from_None _ _ Hres i mi Hmi Hp).
      destruct (Hfit _ _ Hs Ha) as (? & ? & ?).
      rewrite F1, F2, u64_small by lia. exact Hcov.
  - intros Hnone. destruct (gpa2hva_from (mac_slots st) x) as [v|] eqn:Hres;
      [exfalso|reflexivity].
    apply gpa2hva_from_Some in Hres as (k & mk & Hk & Hp & Hin & _).
    destruct (Hback _ _ Hk Hp Hin) as (t & Ht & Hta & Hint & _).
    apply (Hnone {| m_gpa := slot_start t; m_size := slot_size t;
                    m_hva := slot_mem t |}).
    + apply HM. exists k, t. repeat split; assumption.
    + exact Hint.
Qed.

(** C8: after any sequence of map and unmap calls that returns (a call over
    a partly overlapping range aborts), every map range ending below 2^64,
    hvf_gpa2hva(x) is the host pointer of the mapping in force that covers x
    plus the offset of x in it, and not-found when none covers x. *)
Theorem hvf_gpa2hva_after_calls hv_status cs st x :
  Forall call_fits cs ->
  run_calls hv_status cs hvf_accel_init = Returned tt st ->
  (forall m, In m (mappings_after cs) -> covers x m ->
     hvf_gpa2hva st x = Some (u64 (m_hva m + (x - m_gpa m))))
  /\ ((forall m, In m (mappings_after cs) -> ~ covers x m) ->
      hvf_gpa2hva st x = None).
Proof.
  intros Hfit Hrun.
  destruct (run_calls_models hv_status cs _ [] _ hvf_accel_init_ok
              hvf_accel_init_models Hfit Hrun) as [Hok HM].
  apply hvf_gpa2hva_models; assumption.
Qed.

(** C8 as stated fails.  After the one map call of the top page, which
    returns, the mapping in force covers 2^64 - 0x800, but the end of the
    mirror's range wraps to 0 and hvf_gpa2hva reports not-found. *)
Lemma hvf_gpa2hva_counterexample :
  let cs := [call_map 0x7000 top_page 0x1000 7] in
  let m := {| m_gpa := top_page; m_size := 0x1000; m_hva := 0x7000 |} in
  run_calls hv_always_ok cs hvf_accel_init = Returned tt top_page_mapping
  /\ mappings_after cs = [m]
  /\ covers (two64 - 0x800) m
  /\ hvf_gpa2hva top_page_mapping (two64 - 0x800) = None.
Proof.
  cbv zeta. split; [|split; [|split]].
  - vm_compute. reflexivity.
  - vm_compute. reflexivity.
  - unfold covers, top_page, two64. simpl. lia.
  - vm_compute. reflexivity.
Qed.

(** ** Host ranges back to guest ranges *)

Lemma hva2gpa_from_omap l h len :
  hva2gpa_from l h len = omap (hva2gpa_slot h len) l.
Proof.
  induction l as [|m l IH]; simpl; [reflexivity|].
  rewrite IH. destruct (hva2gpa_slot h len m); reflexivity.
Qed.

Lemma omap_all_None {A B} (f : A -> option B) (l : list A) :
  (forall k x, l !! k = Some x -> f x = None) -> omap f l = [].
Proof.
  induction l as [|x l IH]; intros H; simpl; [reflexivity|].
  rewrite (H 0%nat x eq_refl). apply IH. intros k y Hk. exact (H (S k) y Hk).
Qed.

(** When exactly the entries at [p < q] contribute, the result is their two
    contributions in that order. *)
Lemma omap_two_hits {A B} (f : A -> option B) (l : list A) p q x y fx fy :
  (p < q)%nat -> l !! p = Some x -> l !! q = Some y ->
  f x = Some fx -> f y = Some fy ->
  (forall k z, k <> p -> k <> q -> l !! k = Some z -> f z = None) ->
  omap f l = [fx; fy].
Proof.
  intros Hpq Hp Hq Hfx Hfy Hrest.
  rewrite <- (take_drop_middle l p x Hp), omap_app. simpl. rewrite Hfx.
  assert (Hq' : drop (S p) l !! (q - S p)%nat = Some y).
  { rewrite lookup_drop. replace (S p + (q - S p))%nat with q by lia. exact Hq. }
  rewrite <- (take_drop_middle _ _ y Hq'), omap_app. simpl. rewrite Hfy.
  rewrite !omap_all_None; [reflexivity| | |].
  - intros k z Hk. rewrite lookup_drop, lookup_drop in Hk.
    apply (Hrest _ z) in Hk; [exact Hk|lia|lia].
  - intros k z Hk. pose proof (lookup_lt_Some _ _ _ Hk) as Hlt.
    rewrite length_take in Hlt. rewrite lookup_take_lt in Hk by lia.
    rewrite lookup_drop in Hk. apply (Hrest _ z) in Hk; [exact Hk|lia|lia].
  - intros k z Hk. pose proof (lookup_lt_Some _ _ _ Hk) as Hlt.
    rewrite length_take in Hlt. rewrite lookup_take_lt in Hk by lia.
    apply (Hrest _ z) in Hk; [exact Hk|lia|lia].
Qed.

Lemma hva2gpa_slot_misses h len m :
  0 <= h -> 0 < len -> h + len < two64 ->
  (present m = true -> host_range_misses h len m) ->
  hva2gpa_slot h len m = None.
Proof.
  intros Hh Hlen Hend Hmiss. unfold hva2gpa_slot.
  destruct (present m); simpl; [|reflexivity].
  destruct (Hmiss eq_refl) as (H0 & Hsz & Hfit & Hdis).
  rewrite (u64_small (hva m + mac_size m)), (u64_small (h + len)) by lia.
  destruct (Z.leb_spec (hva m) h), (Z.ltb_spec h (hva m + mac_size m)),
    (Z.leb_spec (h + len) (hva m + mac_size m)), (Z.ltb_spec (hva m) (h + len)),
    (Z.ltb_spec (hva m + mac_size m) (h + len)), (Z.ltb_spec h (hva m));
    simpl; try reflexivity; lia.
Qed.

(** C9 (amended): a host range that starts in mirror slot [a] and ends in
    mirror slot [b], whose host range follows that of [a], and that meets no
    other present mirror slot, yields exactly two fragments; their sizes sum
    to the length, the fragment of [a] ends at the guest end of [a], and the
    fragment of [b] starts at the guest start of [b].  They are stored in
    slot-index order, the fragment of [a] first only when [a] has the lower
    index. *)
Theorem hvf_hva2gpa_two_adjacent_slots st i j a b h len array_size :
  mac_slots st !! i = Some a -> mac_slots st !! j = Some b -> i <> j ->
  present a = true -> present b = true ->
  0 <= hva a -> 0 <= gpa_start a -> gpa_start a + mac_size a < two64 ->
  hva b = hva a + mac_size a -> hva b + mac_size b < two64 ->
  hva a <= h < hva b -> hva b < h + len <= hva b + mac_size b ->
  (forall k m, k <> i -> k <> j -> mac_slots st !! k = Some m ->
     present m = true -> host_range_misses h len m) ->
  let f1 := (gpa_start a + (h - hva a), hva b - h) in
  let f2 := (gpa_start b, h + len - hva b) in
  hvf_hva2gpa st h len array_size
  = (2%nat, take array_size (if decide (i < j)%nat then [f1; f2] else [f2; f1]))
  /\ snd f1 + snd f2 = len
  /\ fst f1 + snd f1 = gpa_start a + mac_size a
  /\ fst f2 = gpa_start b.
Proof.
  intros Ha Hb Hij Hpa Hpb Ha0 Hg0 Hgfit Hadj Hbfit Hstart Hend Hrest f1 f2.
  assert (Hfa : hva2gpa_slot h len a = Some f1).
  { unfold hva2gpa_slot. rewrite Hpa. simpl.
    rewrite (u64_small (hva a + mac_size a)) by lia.
    destruct (Z.leb_spec (hva a) h); [|lia].
    destruct (Z.ltb_spec h (hva a + mac_size a)); [|lia]. simpl.
    rewrite (u64_small (h - hva a)) by lia.
    rewrite (u64_small (gpa_start a + (h - hva a))) by lia.
    rewrite (u64_small (mac_size a - (h - hva a))) by lia.
    unfold f1. f_equal. f_equal. lia. }
  assert (Hfb : hva2gpa_slot h len b = Some f2).
  { unfold hva2gpa_slot. rewrite Hpb. simpl.
    destruct (Z.leb_spec (hva b) h); [lia|]. simpl.
    rewrite (u64_small (hva b + mac_size b)), (u64_small (h + len)) by lia.
    destruct (Z.leb_spec (h + len) (hva b + mac_size b)); [|lia].
    destruct (Z.ltb_spec (hva b) (h + len)); [|lia]. simpl.
    rewrite (u64_small (h + len - hva b)) by lia. reflexivity. }
  assert (Hnone : forall k m, k <> i -> k <> j -> mac_slots st !! k = Some m ->
                    hva2gpa_slot h len m = None).
  { intros k m Hki Hkj Hk. apply hva2gpa_slot_misses; [lia|lia|lia|].
    intros Hp. eapply Hrest; eassumption. }
  split; [|unfold f1, f2; simpl; lia].
  unfold hvf_hva2gpa. rewrite hva2gpa_from_omap.
  destruct (decide (i < j)%nat) as [Hlt|Hge].
  - rewrite (omap_two_hits _ _ i j a b f1 f2); try assumption. reflexivity.
  - rewrite (omap_two_hits _ _ j i b a f2 f1); try assumption; [reflexivity|lia|].
    intros k m Hkj Hki. apply Hnone; assumption.
Qed.

(** ** Concrete tables *)

Lemma run_calls_table_ok hv_status cs st :
  Forall call_fits cs ->
  run_calls hv_status cs hvf_accel_init = Returned tt st -> table_ok st.
Proof.
  intros Hfit Hrun.
  exact (proj1 (run_calls_models hv_status cs _ [] _ hvf_accel_init_ok
                  hvf_accel_init_models Hfit Hrun)).
Qed.

Lemma one_mapping_ok : table_ok one_mapping.
Proof.
  apply (run_calls_table_ok hv_always_ok [call_map 0x7000 0x2000 0x1000 7]).
  - repeat constructor; unfold two64; simpl; lia.
  - vm_compute. reflexivity.
Qed.

Lemma hvf_map_safe_same_triple_witness :
  hvf_map_safe hv_always_ok 0x7000 0x2000 0x1000 3 one_mapping
  = Returned HV_SUCCESS one_mapping.
Proof.
  apply (hvf_map_safe_same_triple hv_always_ok one_mapping 0 one_mapping_slot 3).
  - exact (proj1 one_mapping_ok).
  - vm_compute. reflexivity.
  - vm_compute. discriminate.
Defined.

Lemma hvf_map_safe_new_host_ptr_witness :
  exists st',
    hvf_map_safe hv_always_ok 0x8000 0x2000 0x1000 7 one_mapping = Returned 0 st'
    /\ hv_log st' = hv_log one_mapping
                    ++ [hv_vm_unmap 0x2000 0x1000; hv_vm_map 0x8000 0x2000 0x1000 7]
    /\ (exists k m, mac_slots st' !! k = Some m /\ present m = true
          /\ gpa_start m = 0x2000 /\ mac_size m = 0x1000 /\ hva m = 0x8000)
    /\ (forall k m, mac_slots st' !! k = Some m -> present m = true ->
          gpa_start m = 0x2000 -> mac_size m = 0x1000 -> hva m = 0x8000).
Proof.
  apply (hvf_map_safe_new_host_ptr hv_always_ok one_mapping 0 one_mapping_slot
           0x8000 7).
  - exact one_mapping_ok.
  - vm_compute. reflexivity.
  - vm_compute. discriminate.
  - vm_compute. discriminate.
  - reflexivity.
  - reflexivity.
Defined.

(** The scenario of the spec: region A at [0x2000, 0x3000), then region B
    at [0x2800, 0x3800) with another host pointer. *)
Lemma hvf_map_safe_partial_overlap_witness :
  hvf_map_safe hv_always_ok 0x8000 0x2800 0x1000 7 one_mapping
  = Aborted one_mapping.
Proof.
  apply (hvf_map_safe_partial_overlap hv_always_ok one_mapping 0x8000 0x2800
           0x1000 7 0 one_mapping_slot).
  - exact (proj1 one_mapping_ok).
  - lia.
  - lia.
  - unfold two64. lia.
  - vm_compute. reflexivity.
  - unfold meets, active. simpl. lia.
  - left. simpl. lia.
Defined.

Lemma hvf_gpa2hva_after_calls_witness :
  let st := final (run_calls hv_always_ok sample_calls hvf_accel_init) in
  hvf_gpa2hva st 0x4800 = Some 0x9800 /\ hvf_gpa2hva st 0x1800 = None.
Proof.
  assert (Hfit : Forall call_fits sample_calls)
    by (repeat constructor; unfold two64; simpl; lia).
  assert (Hrun : run_calls hv_always_ok sample_calls hvf_accel_init
                 = Returned tt (final (run_calls hv_always_ok sample_calls
                                         hvf_accel_init)))
    by (vm_compute; reflexivity).
  split.
  - apply (proj1 (hvf_gpa2hva_after_calls hv_always_ok sample_calls _ 0x4800
                    Hfit Hrun)
             {| m_gpa := 0x4000; m_size := 0x2000; m_hva := 0x9000 |}).
    + simpl. left. reflexivity.
    + unfold covers. simpl. lia.
  - apply (proj2 (hvf_gpa2hva_after_calls hv_always_ok sample_calls _ 0x1800
                    Hfit Hrun)).
    intros m [<-|[]]. unfold covers. simpl. lia.
Defined.

(** C9 as stated fails: the fragments come in slot-index order, so the first
    one stored can be that of the second slot; and a third slot on the same
    host memory adds a third fragment. *)
Lemma hvf_hva2gpa_counterexample :
  hvf_hva2gpa reversed_pair 0x10800 0x1000 2
  = (2%nat, [(0x3000, 0x800); (0x1800, 0x800)])
  /\ 0x3000 + 0x800 <> 0x1000 + 0x1000
  /\ hvf_hva2gpa aliased_triple 0x10800 0x1000 8
     = (3%nat, [(0x1800, 0x800); (0x3000, 0x800); (0x5800, 0x800)]).
Proof. vm_compute. repeat split; try reflexivity. discriminate. Qed.

Lemma reversed_pair_mirrors :
  mac_slots reversed_pair = pair_high :: pair_low :: replicate 510 zero_mac_slot.
Proof. vm_compute. reflexivity. Qed.

Lemma hvf_hva2gpa_two_adjacent_slots_witness :
  hvf_hva2gpa reversed_pair 0x10800 0x1000 2
  = (2%nat, [(0x3000, 0x800); (0x1800, 0x800)]).
Proof.
  refine (proj1 (hvf_hva2gpa_two_adjacent_slots reversed_pair 1 0
    pair_low pair_high 0x10800 0x1000 2 _ _ _ _ _ _ _ _ _ _ _ _ _)).
  - rewrite reversed_pair_mirrors. reflexivity.
  - rewrite reversed_pair_mirrors. reflexivity.
  - discriminate.
  - reflexivity.
  - reflexivity.
  - discriminate.
  - discriminate.
  - reflexivity.
  - reflexivity.
  - reflexivity.
  - split; [discriminate|reflexivity].
  - split; [reflexivity|discriminate].
  - intros k m Hk1 Hk0 Hk Hp. exfalso. rewrite reversed_pair_mirrors in Hk.
    destruct k as [|[|k]]; [contradiction|contradiction|].
    change (replicate 510 zero_mac_slot !! k = Some m) in Hk.
    apply lookup_replicate in Hk as [-> _]. discriminate.
Defined.

(** * The vCPU: register transfer and exits *)
(** * Facts about the vCPU *)

Lemma total_bind {A B} (m : M A) (k : A -> M B) :
  total m -> (forall a, total (k a)) -> total (bind m k).
Proof.
  intros Hm Hk c. destruct (Hm c) as (a & c1 & E). unfold bind. rewrite E.
  apply Hk.
Qed.

Lemma returns_bind {A B} (m : M A) (k : A -> M B) v :
  total m -> (forall a, returns (k a) v) -> returns (bind m k) v.
Proof.
  intros Hm Hk c. destruct (Hm c) as (a & c1 & E). unfold bind. rewrite E.
  apply Hk.
Qed.

Lemma total_for_each {A} (l : list A) (body : A -> M unit) :
  (forall x, total (body x)) -> total (for_each l body).
Proof.
  intros Hb. induction l as [|x l IH]; simpl.
  - intros c. exists tt, c. reflexivity.
  - apply total_bind; [apply Hb|intros _; exact IH].
Qed.

Lemma total_put_sys_reg r f : total (put_sys_reg r f).
Proof. intros c. eexists _, _. reflexivity. Qed.

Ltac totality :=
  repeat first
    [ apply returns_bind; [|intros ?]
    | apply total_for_each; intros ?
    | apply total_put_sys_reg
    | (intros ?; eexists _, _; reflexivity)
    | (intros ?; eexists _; reflexivity) ].

(** The push never aborts. *)
Lemma hvf_put_registers_returns : returns hvf_put_registers 0.
Proof. unfold hvf_put_registers. totality. Qed.

Section RunLoop.

Variable bus_data : list bus_event -> Z -> Z -> list Z.
Variable data_buf_uninit : list Z.
Variable arm_is_psci_call : CPUARMState -> bool.
Variable arm_handle_psci_call : CPUARMState -> CPUARMState.
Variable mem : Mem.hvf_mem.

Local Abbreviation handle_exception :=
  (hvf_handle_exception bus_data data_buf_uninit arm_is_psci_call
     arm_handle_psci_call mem).
Local Abbreviation exec_exit :=
  (hvf_vcpu_exec_exit bus_data data_buf_uninit arm_is_psci_call
     arm_handle_psci_call mem).

(** The exit switch on an exception: the handler, then the dirty mark. *)
Lemma hvf_vcpu_exec_exit_exception c :
  reason (hvf_vcpu_exit_info c) = HV_EXIT_REASON_EXCEPTION ->
  exec_exit c = (handle_exception;; (fun c => Returned tt (set_dirty true c))) c.
Proof.
  intros Hreason. unfold hvf_vcpu_exec_exit, get_exit_info.
  unfold bind at 1. rewrite Hreason. reflexivity.
Qed.

(** Entering the hardware with the dirty flag set: push, clear the flag,
    program the pending interrupts, read at the program counter. *)
Lemma hvf_vcpu_exec_enter_dirty c c2 :
  hvf_vcpu_dirty c = true -> hvf_put_registers c = Returned 0 c2 ->
  hvf_vcpu_exec_enter bus_data c
  = Returned tt
      (log_bus (bus_read (reg (hvf_fd c2) HV_REG_PC) 8)
         (with_fd (set_pending (hvf_irq_pending c2) (hvf_fiq_pending c2))
            (set_dirty false c2))).
Proof.
  intros Hd Hput. unfold hvf_vcpu_exec_enter.
  unfold bind at 1. unfold bind at 1. rewrite Hd.
  unfold bind at 1. rewrite Hput. reflexivity.
Qed.

End RunLoop.

(** ** The zero register as target of a trap *)

Lemma shiftl_1_nonneg k : 0 <= Z.shiftl 1 k.
Proof. apply Z.shiftl_nonneg. lia. Qed.

Section ZeroRegister.

Variable bus_data : list bus_event -> Z -> Z -> list Z.
Variable data_buf_uninit : list Z.

(** hvf_decode_hsr on a syndrome without the external-abort and
    stage-1-walk bits. *)
Lemma hvf_decode_hsr_ok c :
  Z.land ESR_ELx_EA (hvf_vcpu_get_hsr c) = 0 ->
  Z.land ESR_ELx_S1PTW (hvf_vcpu_get_hsr c) = 0 ->
  hvf_decode_hsr c =
  Returned (negb (Z.land (hvf_vcpu_get_hsr c) ESR_ELx_WNR =? 0),
            hvf_vcpu_dabt_get_as c,
            negb (Z.land (hvf_vcpu_get_hsr c) ESR_ELx_SSE =? 0),
            hvf_vcpu_dabt_get_rd c)
           (with_env (fun e => set_pc (u64 (pc e + 4)) e) c).
Proof.
  intros Hea Hptw. unfold hvf_decode_hsr. rewrite Hea, Hptw.
  change (negb (0 =? 0)) with false. cbv iota.
  destruct (Z.ltb_spec (hvf_vcpu_dabt_get_as c) 0) as [Hneg|_].
  - exfalso. pose proof (shiftl_1_nonneg
      (Z.shiftr (Z.land (hvf_vcpu_get_hsr c) ESR_ELx_SAS) ESR_ELx_SAS_SHIFT)).
    unfold hvf_vcpu_dabt_get_as in Hneg. lia.
  - reflexivity.
Qed.


End ZeroRegister.

(** ** Concrete vCPU states *)

(** C1 on the code: a two-byte read stores the eight bytes of the scratch
    buffer, of which only two were read from the bus; and a read with the
    sign-extension flag stores the byte zero-extended. *)
Lemma hvf_handle_mmio_read_not_extended :
  let o16 := hvf_handle_mmio (fun _ _ _ => [0x34; 0x12]) (replicate 8 0xAA)
               (sample_cpu esr_read16_x5 0x9000000) in
  let o8 := hvf_handle_mmio (fun _ _ _ => [0x80]) (replicate 8 0)
              (sample_cpu esr_read8_signed_x5 0x9000000) in
  (returned o16 = true
   /\ bus_log (final o16) = [bus_read 0x9000000 2]
   /\ pc (env (final o16)) = 0x40001004
   /\ xreg (env (final o16)) 5 = 0xAAAAAAAAAAAA1234)
  /\ (returned o8 = true
      /\ bus_log (final o8) = [bus_read 0x9000000 1]
      /\ xreg (env (final o8)) 5 = 0x80).
Proof. vm_compute. repeat split; reflexivity. Qed.

(** C2 on the code: push then pull leaves vector register 20 holding what
    register 30 held, because register number 30 is sent to Q20. *)
Lemma hvf_put_get_registers_q20 :
  let c := sample_cpu esr_wfx 0 in
  let o := (hvf_put_registers;; hvf_get_registers) c in
  returned o = true
  /\ qreg (env c) 20 = 20 /\ qreg (env c) 30 = 30
  /\ qreg (env (final o)) 20 = 30 /\ qreg (env (final o)) 30 = 30.
Proof. vm_compute. repeat split; reflexivity. Qed.


(** * Further properties of the slot table *)

Lemma find_overlap_first st g sz :
  slots_fit (slots st) -> 0 <= g -> 0 <= sz -> g + sz < two64 ->
  match hvf_find_overlap_slot st g (u64 (g + sz)) with
  | Some i => exists s, slots st !! i = Some s /\ meets g sz s
                /\ forall j t, (j < i)%nat -> slots st !! j = Some t ->
                               ~ meets g sz t
  | None => forall j t, slots st !! j = Some t -> ~ meets g sz t
  end.
Proof.
  intros Hfit Hg Hsz Hend.
  assert (Htest : forall j t, slots st !! j = Some t ->
            overlap_test g (u64 (g + sz)) t = true <-> meets g sz t).
  { intros j t Ht. apply overlap_test_true; try assumption.
    intros Ha. eapply Hfit; eassumption. }
  destruct (hvf_find_overlap_slot st g (u64 (g + sz))) as [i|] eqn:Hfind.
  - apply hvf_find_overlap_slot_Some in Hfind as (s & Hs & Ht & Hmin).
    exists s. split; [assumption|]. split; [apply (Htest i s Hs); exact Ht|].
    intros j t Hj Hjt Hm. apply (Htest j t Hjt) in Hm.
    rewrite (Hmin j t Hj Hjt) in Hm. discriminate.
  - intros j t Hjt Hm. apply (Htest j t Hjt) in Hm.
    rewrite (hvf_find_overlap_slot_None _ _ _ Hfind j t Hjt) in Hm. discriminate.
Qed.

(** X1: on a table whose active ranges end below 2^64, and for a query
    range [g, g+sz) that itself ends below 2^64, hvf_find_overlap_slot
    returns the lowest index of an active slot that meets [g, g+sz), and
    NULL exactly when no active slot meets it. *)
Theorem hvf_find_overlap_slot_first st g sz :
  slots_fit (slots st) -> 0 <= g -> 0 <= sz -> g + sz < two64 ->
  match hvf_find_overlap_slot st g (u64 (g + sz)) with
  | Some i => exists s, slots st !! i = Some s /\ meets g sz s
                /\ forall j t, (j < i)%nat -> slots st !! j = Some t ->
                               ~ meets g sz t
  | None => forall j t, slots st !! j = Some t -> ~ meets g sz t
  end.
Proof. exact (find_overlap_first st g sz). Qed.

Lemma hvf_find_overlap_slot_first_witness :
  exists s, slots one_mapping !! 0%nat = Some s /\ meets 0x2800 0x1000 s
    /\ forall j t, (j < 0)%nat -> slots one_mapping !! j = Some t ->
                   ~ meets 0x2800 0x1000 t.
Proof.
  exact (hvf_find_overlap_slot_first one_mapping 0x2800 0x1000
           (proj1 (proj1 one_mapping_ok)) ltac:(lia) ltac:(lia)
           ltac:(unfold two64; lia)).
Defined.

Lemma next_free_from_first l : forall x d,
  match next_free_from x l d with
  | Some r =>
      (exists k s, r = (x + k)%nat /\ l !! k = Some s /\ slot_size s = 0
         /\ forall j t, (j < k)%nat -> l !! j = Some t -> slot_size t <> 0)
      \/ ((forall j t, l !! j = Some t -> slot_size t <> 0)
          /\ (l = [] /\ d = Some r \/ l <> [] /\ (r + 1 = x + length l)%nat))
  | None => l = [] /\ d = None
  end.
Proof.
  induction l as [|s l IH]; intros x d; simpl.
  - destruct d as [r|]; [|split; reflexivity].
    right. split; [intros j t Hj; discriminate|left; split; reflexivity].
  - destruct (Z.eqb_spec (slot_size s) 0) as [E|E].
    + left. exists 0%nat, s. repeat split; [lia|assumption|].
      intros j t Hj. lia.
    + specialize (IH (S x) (Some x)).
      destruct (next_free_from (S x) l (Some x)) as [r|].
      * destruct IH as [(k & t & -> & Hk & Hz & Hmin)|(Hall & Hlast)].
        -- left. exists (S k), t. repeat split; [lia|assumption|assumption|].
           intros [|j] u Hj Hu; simpl in Hu; [congruence|].
           apply (Hmin j); [lia|assumption].
        -- right. split.
           ++ intros [|j] u Hu; simpl in Hu; [congruence|]. eapply Hall; eassumption.
           ++ right. split; [discriminate|].
              destruct Hlast as [(-> & Hd)|(_ & Hr)]; simpl.
              ** injection Hd as <-. lia.
              ** lia.
      * destruct IH as [_ Hd]. discriminate.
Qed.

(** X2: hvf_next_free_slot returns the lowest-indexed slot of size 0; when
    every slot is in use it returns the last slot of the table, not NULL;
    NULL only for an empty table. *)
Theorem hvf_next_free_slot_first st :
  match hvf_next_free_slot st with
  | Some i =>
      exists s, slots st !! i = Some s
        /\ ((slot_size s = 0
             /\ forall j t, (j < i)%nat -> slots st !! j = Some t ->
                            slot_size t <> 0)
            \/ ((forall j t, slots st !! j = Some t -> slot_size t <> 0)
                /\ (i + 1 = length (slots st))%nat))
  | None => slots st = []
  end.
Proof.
  unfold hvf_next_free_slot.
  pose proof (next_free_from_first (slots st) 0 None) as H.
  destruct (next_free_from 0 (slots st) None) as [i|]; [|apply H].
  destruct H as [(k & s & -> & Hk & Hz & Hmin)|(Hall & [(_ & Hd)|(Hne & Hlast)])].
  - exists s. split; [exact Hk|]. left. split; assumption.
  - discriminate.
  - assert (Hlt : (i < length (slots st))%nat) by lia.
    apply lookup_lt_is_Some in Hlt as [s Hs]. exists s. split; [exact Hs|].
    right. split; [exact Hall|lia].
Qed.

(** In a table in order, a translation found comes from an active slot
    that covers the address. *)
Lemma gpa2hva_Some_slot st x v :
  table_ok st -> hvf_gpa2hva st x = Some v ->
  exists k t, slots st !! k = Some t /\ active t /\ in_slot x t
    /\ v = u64 (slot_mem t + (x - slot_start t)).
Proof.
  intros ((Hfit & Hdis) & Hid & Hlen & Hmir) H.
  apply gpa2hva_from_Some in H as (k & m & Hk & Hp & Hin & ->).
  pose proof (lookup_lt_Some _ _ _ Hk) as Hlt. rewrite Hlen in Hlt.
  apply lookup_lt_is_Some in Hlt as [t Ht]. exists k, t.
  pose proof (Hmir _ _ _ Ht Hk) as Hmt. unfold mirrors in Hmt.
  destruct (Z.eqb_spec (slot_size t) 0) as [E|E]; [congruence|].
  destruct Hmt as (_ & E1 & E2 & E3). destruct (Hfit _ _ Ht E) as (? & ? & ?).
  rewrite E1, E2, u64_small in Hin by lia.
  unfold in_slot. rewrite E2, E3. repeat split; try assumption; lia.
Qed.

Lemma gpa2hva_None_slot st x :
  table_ok st -> hvf_gpa2hva st x = None ->
  forall k t, slots st !! k = Some t -> active t -> ~ in_slot x t.
Proof.
  intros ((Hfit & Hdis) & Hid & Hlen & Hmir) H k t Ht Ha Hin.
  pose proof (lookup_lt_Some _ _ _ Ht) as Hlt. rewrite <- Hlen in Hlt.
  apply lookup_lt_is_Some in Hlt as [m Hm].
  destruct (mirrors_active _ _ Ha (Hmir _ _ _ Ht Hm)) as (Hp & E1 & E2 & _).
  destruct (Hfit _ _ Ht Ha) as (? & ? & ?).
  apply (gpa2hva_from_None _ _ H k m Hm Hp).
  rewrite E1, E2, u64_small by lia. exact Hin.
Qed.

Lemma gpa2hva_of_slot st x i s :
  table_ok st -> slots st !! i = Some s -> active s -> in_slot x s ->
  hvf_gpa2hva st x = Some (u64 (slot_mem s + (x - slot_start s))).
Proof.
  intros Hok Hs Ha Hin.
  destruct (hvf_gpa2hva st x) as [v|] eqn:Hres.
  - destruct (gpa2hva_Some_slot _ _ _ Hok Hres) as (k & t & Ht & Hta & Htin & ->).
    destruct Hok as ((_ & Hdis) & _).
    assert (k = i) as ->.
    { destruct (decide (k = i)) as [|Hne]; [assumption|exfalso].
      unfold in_slot in *.
      destruct (Hdis k i t s Hne Ht Hs Hta Ha) as [H'|H']; lia. }
    rewrite Hs in Ht. injection Ht as <-. reflexivity.
  - exfalso. exact (gpa2hva_None_slot _ _ Hok Hres i s Hs Ha Hin).
Qed.

Lemma gpa2hva_no_slot st x :
  table_ok st ->
  (forall i s, slots st !! i = Some s -> active s -> ~ in_slot x s) ->
  hvf_gpa2hva st x = None.
Proof.
  intros Hok Hnone. destruct (hvf_gpa2hva st x) as [v|] eqn:Hres; [|reflexivity].
  destruct (gpa2hva_Some_slot _ _ _ Hok Hres) as (k & t & Ht & Hta & Htin & _).
  exfalso. exact (Hnone k t Ht Hta Htin).
Qed.

(** X3: in a table in order (active ranges pairwise disjoint and ending
    below 2^64, every slot carrying its index as id, the mirror array in step
    with the slot table), hvf_gpa2hva(x) is the host pointer of the active
    slot that covers x plus the offset of x in it, and not-found exactly when
    no active slot covers x. *)
Theorem hvf_gpa2hva_agrees_with_slots st x :
  table_ok st ->
  (forall i s, slots st !! i = Some s -> active s -> in_slot x s ->
     hvf_gpa2hva st x = Some (u64 (slot_mem s + (x - slot_start s))))
  /\ (hvf_gpa2hva st x = None <->
      forall i s, slots st !! i = Some s -> active s -> ~ in_slot x s).
Proof.
  intros Hok. split.
  - intros i s. apply gpa2hva_of_slot. exact Hok.
  - split; [apply gpa2hva_None_slot; exact Hok|apply gpa2hva_no_slot; exact Hok].
Qed.

Lemma hvf_gpa2hva_agrees_with_slots_witness :
  hvf_gpa2hva one_mapping 0x2abc = Some 0x7abc
  /\ (hvf_gpa2hva one_mapping 0x2abc = None <->
      forall i s, slots one_mapping !! i = Some s -> active s ->
                  ~ in_slot 0x2abc s).
Proof.
  destruct (hvf_gpa2hva_agrees_with_slots one_mapping 0x2abc one_mapping_ok)
    as [Hsome Hnone].
  split; [|exact Hnone].
  apply (Hsome 0%nat one_mapping_slot).
  - vm_compute. reflexivity.
  - vm_compute. discriminate.
  - unfold in_slot. simpl. lia.
Defined.

Section MoreOperations.

Variable hv_status : list hv_call -> hv_call -> Z.


(** X5: hvf_unmap_safe over a range that meets no active slot returns 0 in
    the state it was called in: no slot, no mirror and no hardware call. *)
Theorem hvf_unmap_safe_no_slot st gpa size :
  slots_fit (slots st) -> 0 <= gpa -> 0 <= size -> gpa + size < two64 ->
  (forall j t, slots st !! j = Some t -> ~ meets gpa size t) ->
  hvf_unmap_safe hv_status gpa size st = Returned 0 st.
Proof.
  intros Hfit Hg Hsz Hend Hnone.
  pose proof (find_overlap_first st gpa size Hfit Hg Hsz Hend) as H.
  unfold hvf_unmap_safe, bind, find_overlap_slot.
  destruct (hvf_find_overlap_slot st gpa (u64 (gpa + size))) as [i|].
  - exfalso. destruct H as (s & Hs & Hm & _). exact (Hnone i s Hs Hm).
  - reflexivity.
Qed.

(** X6: on a table whose active ranges are pairwise disjoint and end below
    2^64, hvf_unmap_safe over a range that ends below 2^64 and meets an active
    slot without having its start and size aborts in the state it was called
    in. *)
Theorem hvf_unmap_safe_partial_overlap st gpa size j t :
  slots_wf (slots st) -> 0 <= gpa -> 0 <= size -> gpa + size < two64 ->
  slots st !! j = Some t -> meets gpa size t ->
  slot_start t <> gpa \/ slot_size t <> size ->
  hvf_unmap_safe hv_status gpa size st = Aborted st.
Proof.
  intros Hwf Hg Hsz Hend Ht Hm Hpart. pose proof Hwf as [Hfit Hdis].
  pose proof (find_overlap_first st gpa size Hfit Hg Hsz Hend) as H.
  unfold hvf_unmap_safe, bind, find_overlap_slot.
  destruct (hvf_find_overlap_slot st gpa (u64 (gpa + size))) as [i|].
  - destruct H as (s & Hs & (Hsa & Hm1 & Hm2) & _).
    unfold read_slot. rewrite (slot_at_lookup _ _ _ Hs).
    destruct (Z.eqb_spec (slot_start s) gpa) as [E1|E1]; [|reflexivity].
    destruct (Z.eqb_spec (slot_size s) size) as [E2|E2]; [|reflexivity].
    exfalso. destruct (decide (i = j)) as [->|Hij].
    + rewrite Hs in Ht. injection Ht as <-. tauto.
    + destruct Hm as (Hta & Hm3 & Hm4).
      destruct (Hdis i j s t Hij Hs Ht Hsa Hta) as [H'|H']; lia.
  - exfalso. exact (H j t Ht Hm).
Qed.

End MoreOperations.


Lemma one_mapping_meets g sz j t :
  slots one_mapping !! j = Some t -> meets g sz t -> j = 0%nat.
Proof.
  intros Hj [Ha _]. destruct j as [|j]; [reflexivity|exfalso].
  assert (E : drop 1 (slots one_mapping) = map free_slot (seq 1 511))
    by (vm_compute; reflexivity).
  change (slots one_mapping !! S j) with (drop 1 (slots one_mapping) !! j) in Hj.
  rewrite E in Hj. pose proof (free_slots_inactive (seq 1 511)) as HF.
  rewrite Forall_lookup in HF. exact (Ha (HF j t Hj)).
Qed.

Lemma hvf_unmap_safe_no_slot_witness :
  hvf_unmap_safe hv_always_ok 0x5000 0x1000 one_mapping = Returned 0 one_mapping.
Proof.
  apply (hvf_unmap_safe_no_slot hv_always_ok one_mapping 0x5000 0x1000).
  - exact (proj1 (proj1 one_mapping_ok)).
  - lia.
  - lia.
  - unfold two64. lia.
  - intros j t Hj Hm. pose proof (one_mapping_meets _ _ _ _ Hj Hm) as ->.
    vm_compute in Hj. injection Hj as <-. destruct Hm as (_ & H1 & H2).
    simpl in H1, H2. lia.
Defined.

Lemma hvf_unmap_safe_partial_overlap_witness :
  hvf_unmap_safe hv_always_ok 0x2000 0x800 one_mapping = Aborted one_mapping.
Proof.
  apply (hvf_unmap_safe_partial_overlap hv_always_ok one_mapping 0x2000 0x800
           0 one_mapping_slot).
  - exact (proj1 one_mapping_ok).
  - lia.
  - lia.
  - unfold two64. lia.
  - vm_compute. reflexivity.
  - unfold meets, active. simpl. lia.
  - right. simpl. lia.
Defined.

(** ** Taking a free slot *)

Lemma next_free_lowest st j sj :
  slots st !! j = Some sj -> slot_size sj = 0 ->
  (forall k t, (k < j)%nat -> slots st !! k = Some t -> slot_size t <> 0) ->
  hvf_next_free_slot st = Some j.
Proof.
  intros Hj Hz Hlow. unfold hvf_next_free_slot.
  pose proof (next_free_from_first (slots st) 0 None) as H.
  destruct (next_free_from 0 (slots st) None) as [r|].
  - destruct H as [(k & s & -> & Hk & Hkz & Hmin)|(Hall & _)].
    + simpl. f_equal. destruct (lt_eq_lt_dec k j) as [[Hlt| ->]|Hgt].
      * exfalso. exact (Hlow k s Hlt Hk Hkz).
      * reflexivity.
      * exfalso. exact (Hmin j sj Hgt Hj Hz).
    + exfalso. exact (Hall j sj Hj Hz).
  - destruct H as [Hnil _]. rewrite Hnil in Hj. discriminate.
Qed.

Lemma next_free_full st :
  (forall k t, slots st !! k = Some t -> slot_size t <> 0) ->
  match hvf_next_free_slot st with
  | Some r => exists s, slots st !! r = Some s /\ slot_size s <> 0
                /\ length (slots st) = S r
  | None => slots st = []
  end.
Proof.
  intros Hall. unfold hvf_next_free_slot.
  pose proof (next_free_from_first (slots st) 0 None) as H.
  destruct (next_free_from 0 (slots st) None) as [r|].
  - destruct H as [(k & s & -> & Hk & Hkz & _)|(_ & [(_ & Hd)|(Hne & Hr)])].
    + exfalso. exact (Hall k s Hk Hkz).
    + discriminate.
    + assert (Hlt : (r < length (slots st))%nat) by lia.
      apply lookup_lt_is_Some in Hlt as [s Hs]. exists s.
      split; [exact Hs|]. split; [exact (Hall r s Hs)|lia].
  - exact (proj1 H).
Qed.

Section FreshRange.

Variable hv_status : list hv_call -> hv_call -> Z.

(** X7: on a table in order that has a free slot, hvf_map_safe of a
    non-empty range that ends below 2^64 and meets no active slot, with a
    hardware layer that accepts the map, takes the lowest free slot, issues
    exactly one hv_vm_map with the caller's flags, keeps the table in order,
    and afterwards translates every address of the range to the host pointer
    plus offset while all other translations stay as they were. *)
Theorem hvf_map_safe_fresh_range st uva gpa size flags j sj :
  table_ok st -> 0 <= gpa -> 0 < size -> gpa + size < two64 ->
  (forall k t, slots st !! k = Some t -> ~ meets gpa size t) ->
  slots st !! j = Some sj -> slot_size sj = 0 ->
  (forall k t, (k < j)%nat -> slots st !! k = Some t -> slot_size t <> 0) ->
  hv_status (hv_log st) (hv_vm_map uva gpa size flags) = HV_SUCCESS ->
  exists st',
    hvf_map_safe hv_status uva gpa size flags st = Returned HV_SUCCESS st'
    /\ slots st' = <[j := fill_slot uva gpa size sj]> (slots st)
    /\ hv_log st' = hv_log st ++ [hv_vm_map uva gpa size flags]
    /\ table_ok st'
    /\ forall x, hvf_gpa2hva st' x =
         if (gpa <=? x) && (x <? gpa + size)
         then Some (u64 (uva + (x - gpa))) else hvf_gpa2hva st x.
Proof.
  intros Hok Hg Hsz Hend Hnone Hj Hz Hlow Hhv.
  pose proof Hok as (Hwf & Hid & Hmok). pose proof Hwf as [Hfit Hdis].
  destruct (mirror_lookup _ _ _ Hmok Hj) as (mj & Hmj & _).
  pose proof (next_free_lowest st j sj Hj Hz Hlow) as Hnext.
  assert (Hsz0 : size <> 0) by lia.
  assert (Hdisj : forall k t, slots st !! k = Some t -> active t ->
            ranges_disjoint gpa size (slot_start t) (slot_size t)).
  { intros k t Hk Ha. apply not_meets_disjoint; [exact Ha|exact (Hfit k t Hk Ha)|
      lia|exact (Hnone k t Hk)]. }
  assert (Hok' : table_ok (fill_slot_state j sj mj uva gpa size flags st)).
  { apply table_ok_fill; try assumption. intros _. lia. }
  exists (fill_slot_state j sj mj uva gpa size flags st).
  assert (Hst' : fill_slot_state j sj mj uva gpa size flags st =
                 committed j (fill_slot uva gpa size sj) mj flags
                   (with_slots <[j := fill_slot uva gpa size sj]> st)).
  { unfold fill_slot_state. destruct (Z.eqb_spec size 0); [contradiction|].
    reflexivity. }
  split; [|split; [|split; [|split; [exact Hok'|]]]].
  - pose proof (find_overlap_first st gpa size Hfit Hg (Z.lt_le_incl _ _ Hsz) Hend)
      as Hfind.
    unfold hvf_map_safe, bind at 1, find_overlap_slot.
    destruct (hvf_find_overlap_slot st gpa (u64 (gpa + size))) as [i|].
    { exfalso. destruct Hfind as (s & Hs & Hm & _). exact (Hnone i s Hs Hm). }
    rewrite (map_into_free_slot_eq hv_status st j sj mj) by assumption.
    unfold hv_accepts. rewrite Hhv, Z.eqb_refl, orb_true_r. reflexivity.
  - rewrite Hst'. reflexivity.
  - rewrite Hst'. reflexivity.
  - intros x.
    assert (Hslots : slots (fill_slot_state j sj mj uva gpa size flags st) =
                     <[j := fill_slot uva gpa size sj]> (slots st))
      by (rewrite Hst'; reflexivity).
    assert (Hjlt : (j < length (slots st))%nat) by (eapply lookup_lt_Some; exact Hj).
    destruct (Z.leb_spec gpa x) as [H1|H1]; destruct (Z.ltb_spec x (gpa + size)) as [H2|H2];
      simpl.
    + rewrite (gpa2hva_of_slot _ x j (fill_slot uva gpa size sj) Hok').
      * reflexivity.
      * rewrite Hslots. apply list_lookup_insert_eq. exact Hjlt.
      * exact Hsz0.
      * unfold in_slot. simpl. lia.
    + destruct (hvf_gpa2hva st x) as [v|] eqn:Hold.
      * destruct (gpa2hva_Some_slot _ _ _ Hok Hold) as (k & t & Hk & Ha & Hin & ->).
        assert (Hkj : k <> j) by (intros ->; rewrite Hj in Hk; injection Hk as <-;
                                  exact (Ha Hz)).
        apply (gpa2hva_of_slot _ x k t Hok'); try assumption.
        rewrite Hslots, list_lookup_insert_ne by (exact (not_eq_sym Hkj)). exact Hk.
      * apply (gpa2hva_no_slot _ x Hok'). intros k t Hk Ha Hin.
        rewrite Hslots in Hk.
        apply lookup_insert_cases in Hk as [(-> & -> & _)|(Hne & Hk)].
        -- unfold in_slot in Hin. simpl in Hin. lia.
        -- exact (gpa2hva_None_slot _ _ Hok Hold k t Hk Ha Hin).
    + destruct (hvf_gpa2hva st x) as [v|] eqn:Hold.
      * destruct (gpa2hva_Some_slot _ _ _ Hok Hold) as (k & t & Hk & Ha & Hin & ->).
        assert (Hkj : k <> j) by (intros ->; rewrite Hj in Hk; injection Hk as <-;
                                  exact (Ha Hz)).
        apply (gpa2hva_of_slot _ x k t Hok'); try assumption.
        rewrite Hslots, list_lookup_insert_ne by (exact (not_eq_sym Hkj)). exact Hk.
      * apply (gpa2hva_no_slot _ x Hok'). intros k t Hk Ha Hin.
        rewrite Hslots in Hk.
        apply lookup_insert_cases in Hk as [(-> & -> & _)|(Hne & Hk)].
        -- unfold in_slot in Hin. simpl in Hin. lia.
        -- exact (gpa2hva_None_slot _ _ Hok Hold k t Hk Ha Hin).
    + lia.
Qed.

(** X8: hvf_map_safe of a range that meets no active slot, on a table with
    no free slot, aborts in the state it was called in: hvf_next_free_slot
    hands back the last slot, still in use, and nothing is written. *)
Theorem hvf_map_safe_table_full st uva gpa size flags :
  slots_fit (slots st) -> 0 <= gpa -> 0 <= size -> gpa + size < two64 ->
  (forall k t, slots st !! k = Some t -> slot_size t <> 0) ->
  (forall k t, slots st !! k = Some t -> ~ meets gpa size t) ->
  hvf_map_safe hv_status uva gpa size flags st = Aborted st.
Proof.
  intros Hfit Hg Hsz Hend Hall Hnone.
  pose proof (find_overlap_first st gpa size Hfit Hg Hsz Hend) as Hfind.
  unfold hvf_map_safe, bind at 1, find_overlap_slot.
  destruct (hvf_find_overlap_slot st gpa (u64 (gpa + size))) as [i|].
  { exfalso. destruct Hfind as (s & Hs & Hm & _). exact (Hnone i s Hs Hm). }
  pose proof (next_free_full st Hall) as Hnext.
  unfold map_into_free_slot, bind at 1, next_free_slot.
  destruct (hvf_next_free_slot st) as [r|]; [|reflexivity].
  destruct Hnext as (s & Hs & Hne & _).
  unfold bind at 1, read_slot. rewrite (slot_at_lookup _ _ _ Hs).
  destruct (Z.eqb_spec (slot_size s) 0); [contradiction|]. reflexivity.
Qed.

End FreshRange.

Section CommitSpec.

Variable hv_status : list hv_call -> hv_call -> Z.

Local Abbreviation set_memory := (__hvf_set_memory_with_flags_locked hv_status).

Lemma set_memory_Returned_spec st i s m flags r st' :
  slots st !! i = Some s -> slot_id s = i -> mac_slots st !! i = Some m ->
  (present m = true -> mac_size m <> 0) ->
  set_memory i flags st = Returned r st' ->
  r = 0 /\ slots st' = slots st
  /\ (exists m', mac_slots st' = <[i := m']> (mac_slots st) /\ mirrors s m')
  /\ hv_log st' = hv_log st ++ commit_calls s m flags.
Proof.
  intros Hs Hid Hm Hpres H.
  pose proof (lookup_lt_Some _ _ _ Hm) as Hlt.
  unfold __hvf_set_memory_with_flags_locked, bind at 1, read_slot in H.
  rewrite (slot_at_lookup _ _ _ Hs), Hid in H.
  unfold bind at 1, read_mac in H. rewrite (mac_at_lookup _ _ _ Hm) in H.
  unfold commit_calls, mirrors.
  destruct (present m) eqn:Hp; simpl in H |- *.
  - destruct (Z.eqb_spec (mac_size m) (slot_size s)) as [E|E]; simpl in H |- *.
    + specialize (Hpres eq_refl).
      destruct (Z.eqb_spec (slot_size s) 0) as [E0|E0]; [congruence|].
      unfold bind, ret, read_mac, write_mac, hv, assert_hvf_ok, abort in H.
      simpl in H. rewrite (mac_at_lookup _ _ _ Hm) in H.
      destruct (_ =? HV_SUCCESS) in H; [|discriminate].
      injection H as <- <-. simpl.
      split; [reflexivity|]. split; [reflexivity|]. split; [|reflexivity].
      eexists. split; [reflexivity|]. simpl. repeat split.
    + unfold bind, ret, read_mac, write_mac, hv, assert_hvf_ok, abort in H.
      simpl in H. destruct (_ =? HV_SUCCESS) in H; [|discriminate].
      destruct (Z.eqb_spec (slot_size s) 0) as [E0|E0].
      * injection H as <- <-. simpl.
        split; [reflexivity|]. split; [reflexivity|].
        split; [|rewrite ?app_nil_r; reflexivity].
        eexists. split; [reflexivity|]. reflexivity.
      * unfold mac_at in H. simpl in H.
        rewrite list_lookup_insert_eq in H by exact Hlt. simpl in H.
        destruct (_ =? HV_SUCCESS) in H; [|discriminate].
        injection H as <- <-. simpl.
        split; [reflexivity|]. split; [reflexivity|].
        split; [|rewrite <- ?app_assoc; reflexivity].
        eexists. split; [apply list_insert_insert_eq|]. simpl. repeat split.
  - unfold bind, ret, read_mac, write_mac, hv, assert_hvf_ok, abort in H.
    simpl in H. destruct (Z.eqb_spec (slot_size s) 0) as [E0|E0].
    + injection H as <- <-.
      split; [reflexivity|]. split; [reflexivity|].
      split; [|rewrite ?app_nil_r; reflexivity].
      exists m. split; [symmetry; apply list_insert_id; exact Hm|exact Hp].
    + rewrite (mac_at_lookup _ _ _ Hm) in H.
      destruct (_ =? HV_SUCCESS) in H; [|discriminate].
      injection H as <- <-. simpl.
      split; [reflexivity|]. split; [reflexivity|]. split; [|reflexivity].
      eexists. split; [reflexivity|]. simpl. repeat split.
Qed.

Lemma set_memory_accepted st i flags :
  (forall l c, hv_status l c = HV_SUCCESS) ->
  exists st', set_memory i flags st = Returned 0 st'.
Proof.
  intros Hhv.
  unfold __hvf_set_memory_with_flags_locked, bind, read_slot, read_mac, write_mac,
    hv, assert_hvf_ok, ret, abort.
  repeat first
    [ rewrite Hhv
    | progress change (HV_SUCCESS =? HV_SUCCESS) with true
    | progress cbv iota
    | match goal with
      | |- context [if ?c then _ else _] => destruct c
      end ];
    eexists; reflexivity.
Qed.

(** X10: the commit of a slot to the hardware layer,
    __hvf_set_memory_with_flags_locked, never changes the slot table; when
    it returns it returns 0, the slot's mirror is in step with the slot
    again, and the calls it has made are an hv_vm_unmap of the mirror's old
    range if the mirror was present with another size, then an hv_vm_map of
    the slot's range if the slot is in use; it returns whenever the hardware
    layer accepts every call. *)
Theorem set_memory_brings_mirror_in_step st i s m flags :
  slots st !! i = Some s -> slot_id s = i -> mac_slots st !! i = Some m ->
  (present m = true -> mac_size m <> 0) ->
  (forall r st', set_memory i flags st = Returned r st' ->
     r = 0 /\ slots st' = slots st
     /\ (exists m', mac_slots st' = <[i := m']> (mac_slots st) /\ mirrors s m')
     /\ hv_log st' = hv_log st ++ commit_calls s m flags)
  /\ ((forall l c, hv_status l c = HV_SUCCESS) ->
      exists st', set_memory i flags st = Returned 0 st').
Proof.
  intros Hs Hid Hm Hpres. split.
  - intros r st'. apply set_memory_Returned_spec; assumption.
  - apply set_memory_accepted.
Qed.

(** The commit of slot [i] puts a table that is in order but for the mirror
    of [i] in order. *)
Lemma commit_restores st i s flags r st' :
  ok_but i st -> slots st !! i = Some s ->
  set_memory i flags st = Returned r st' ->
  r = 0 /\ slots st' = slots st /\ ids_ok (slots st') /\ mirror_ok st'.
Proof.
  intros (Hid & Hlen & Hoth & Hpres) Hs H.
  pose proof (lookup_lt_Some _ _ _ Hs) as Hlt. rewrite <- Hlen in Hlt.
  apply lookup_lt_is_Some in Hlt as [m Hm].
  destruct (set_memory_Returned_spec st i s m flags r st' Hs (Hid i s Hs) Hm
              (Hpres m Hm) H) as (-> & Hsl & (m' & Hmac & Hmir) & _).
  split; [reflexivity|]. split; [exact Hsl|]. rewrite Hsl.
  split; [exact Hid|]. split.
  - rewrite Hmac, length_insert, Hsl. exact Hlen.
  - intros k t n Hk Hn. rewrite Hsl in Hk. rewrite Hmac in Hn.
    apply lookup_insert_cases in Hn as [(-> & -> & _)|(Hne & Hn)].
    + rewrite Hs in Hk. injection Hk as <-. exact Hmir.
    + exact (Hoth k t n (not_eq_sym Hne) Hk Hn).
Qed.

(** Writing the fields of slot [i] of a table in order leaves it in order
    but for the mirror of [i]. *)
Lemma ok_but_write st i s s' :
  table_ok st -> slots st !! i = Some s -> slot_id s' = slot_id s ->
  ok_but i (with_slots <[i := s']> st).
Proof.
  intros (Hwf & Hid & Hlen & Hmir) Hs Heq. split; [|split; [|split]]; simpl.
  - eapply ids_ok_insert; eassumption.
  - rewrite length_insert. exact Hlen.
  - intros k t n Hne Hk Hn. rewrite list_lookup_insert_ne in Hk by (exact (not_eq_sym Hne)).
    exact (Hmir k t n Hk Hn).
  - intros m Hm Hp. pose proof (Hmir i s m Hs Hm) as Hmm. unfold mirrors in Hmm.
    destruct (Z.eqb_spec (slot_size s) 0) as [E|E]; [congruence|].
    destruct Hmm as (_ & -> & _). exact E.
Qed.

End CommitSpec.

Section Regions.

Variable hv_status : list hv_call -> hv_call -> Z.

(** The second half of hvf_set_phys_mem, from [mem = hvf_next_free_slot()]. *)
Local Abbreviation make_new_slot ptr gpa size :=
  (let* mem := next_free_slot in
   match mem with
   | None => abort
   | Some mem =>
       let* s := read_slot mem in
       write_slot mem (fill_slot ptr gpa size s);;
       let* r := __hvf_set_memory hv_status mem in
       if negb (r =? 0) then abort else ret tt
   end).

Lemma make_new_slot_inv st ptr gpa size st' :
  table_ok st -> make_new_slot ptr gpa size st = Returned tt st' ->
  exists j sj mj,
    hvf_next_free_slot st = Some j /\ slots st !! j = Some sj
    /\ mac_slots st !! j = Some mj
    /\ slots st' = <[j := fill_slot ptr gpa size sj]> (slots st)
    /\ hv_log st' = hv_log st
         ++ commit_calls (fill_slot ptr gpa size sj) mj HV_MEMORY_RWX
    /\ ids_ok (slots st') /\ mirror_ok st'.
Proof.
  intros Hok H. pose proof Hok as (Hwf & Hid & Hmok). step_pure H.
  destruct (hvf_next_free_slot st) as [j|] eqn:Hnext; [|discriminate].
  destruct (hvf_next_free_slot_Some _ _ Hnext) as (sj & Hsj & _).
  destruct (mirror_lookup _ _ _ Hmok Hsj) as (mj & Hmj & Hmir).
  step_pure H. step_pure H. rewrite (slot_at_lookup _ _ _ Hsj) in H.
  apply bind_Returned in H as (r & st2 & Hc & H). unfold __hvf_set_memory in Hc.
  pose proof (lookup_lt_Some _ _ _ Hsj) as Hlt.
  assert (Hs1 : slots (with_slots <[j := fill_slot ptr gpa size sj]> st) !! j
                = Some (fill_slot ptr gpa size sj))
    by (simpl; apply list_lookup_insert_eq; exact Hlt).
  pose proof (ok_but_write st j sj (fill_slot ptr gpa size sj) Hok Hsj eq_refl)
    as Hbut.
  destruct (commit_restores hv_status _ j _ _ r st2 Hbut Hs1 Hc)
    as (-> & Hsl & Hid' & Hmir').
  destruct (set_memory_Returned_spec hv_status _ j _ mj _ 0 st2 Hs1
              (Hid j sj Hsj) Hmj (proj2 (proj2 (proj2 Hbut)) mj Hmj) Hc)
    as (_ & _ & _ & Hlog).
  simpl in H. finish H. exists j, sj, mj.
  split; [reflexivity|]. split; [exact Hsj|]. split; [exact Hmj|].
  split; [rewrite Hsl; reflexivity|]. split; [exact Hlog|].
  split; assumption.
Qed.

(** hvf_set_phys_mem keeps the mirror in step with the slot table. *)
Lemma hvf_set_phys_mem_mirror st section add st' :
  table_ok st ->
  hvf_set_phys_mem hv_status section add st = Returned tt st' ->
  (slots_wf (slots st') -> table_ok st').
Proof.
  intros Hok H Hwf'. pose proof Hok as (Hwf & Hid & Hmok).
  unfold hvf_set_phys_mem in H.
  case_if H; [finish H; exact Hok|].
  case_if H; [finish H; exact Hok|].
  set (gpa := offset_within_address_space section) in *.
  set (size := section_size section) in *.
  step_pure H.
  destruct (hvf_find_overlap_slot st gpa (u64 (gpa + size))) as [i|] eqn:Hfind.
  - destruct (hvf_find_overlap_slot_Some _ _ _ _ Hfind) as (s & Hs & _).
    apply bind_Returned in H as (same & st1 & Hsame & H).
    step_pure Hsame. apply ret_Returned in Hsame as [<- <-].
    case_if H; [finish H; exact Hok|].
    apply bind_Returned in H as (u & st2 & Hreset & H).
    step_pure Hreset. step_pure Hreset. rewrite (slot_at_lookup _ _ _ Hs) in Hreset.
    apply bind_Returned in Hreset as (r & st3 & Hc & Hreset).
    unfold __hvf_set_memory in Hc.
    pose proof (lookup_lt_Some _ _ _ Hs) as Hlt.
    assert (Hs1 : slots (with_slots <[i := set_size 0 s]> st) !! i
                  = Some (set_size 0 s))
      by (simpl; apply list_lookup_insert_eq; exact Hlt).
    destruct (commit_restores hv_status _ i _ _ r st3
                (ok_but_write st i s (set_size 0 s) Hok Hs eq_refl) Hs1 Hc)
      as (-> & Hsl & Hid' & Hmir').
    simpl in Hreset. finish Hreset.
    assert (Hok3 : table_ok st3).
    { split; [|split; assumption]. rewrite Hsl. simpl. apply slots_wf_free.
      exact Hwf. }
    destruct add; simpl in H; [|finish H; exact Hok3].
    destruct (make_new_slot_inv _ _ _ _ _ Hok3 H)
      as (j & sj & mj & _ & _ & _ & _ & _ & Hid4 & Hmir4).
    split; [exact Hwf'|split; assumption].
  - apply bind_Returned in H as (same & st1 & Hsame & H).
    apply ret_Returned in Hsame as [<- <-]. simpl in H.
    apply bind_Returned in H as (u & st2 & Hreset & H).
    apply ret_Returned in Hreset as [_ <-].
    destruct add; simpl in H; [|finish H; exact Hok].
    destruct (make_new_slot_inv _ _ _ _ _ Hok H)
      as (j & sj & mj & _ & _ & _ & _ & _ & Hid4 & Hmir4).
    split; [exact Hwf'|split; assumption].
Qed.

Lemma run_op_ok st op st' :
  table_ok st -> op_admissible st op ->
  run_op hv_status op st = Returned tt st' -> table_ok st'.
Proof.
  intros Hok Hop H.
  pose proof (run_op_wf hv_status st op st' (proj1 Hok) Hop H) as Hwf'.
  destruct op as [uva gpa size flags|gpa size|section|section]; simpl in H, Hop.
  - apply bind_Returned in H as (r & st1 & H & Hret).
    apply ret_Returned in Hret as [_ <-]. destruct Hop as (? & ? & ?).
    eapply hvf_map_safe_ok; [exact Hok| | | |exact H]; assumption.
  - apply bind_Returned in H as (r & st1 & H & Hret).
    apply ret_Returned in Hret as [_ <-].
    eapply hvf_unmap_safe_ok; [exact Hok|exact H].
  - unfold hvf_region_add in H.
    exact (hvf_set_phys_mem_mirror st section true st' Hok H Hwf').
  - unfold hvf_region_del in H.
    exact (hvf_set_phys_mem_mirror st section false st' Hok H Hwf').
Qed.

(** X11: in every state reached from the initial table by admissible map,
    unmap, region-add and region-remove operations that return, every slot
    carries its own index as id and the mirror array that hvf_gpa2hva and
    hvf_hva2gpa read is in step with the slot table: slot i in use means
    mirror i present with the same guest start, size and host pointer, and
    slot i free means mirror i absent. *)
Theorem mirror_in_step_reachable st :
  reachable hv_status st -> ids_ok (slots st) /\ mirror_ok st.
Proof.
  intros Hreach.
  assert (Hok : table_ok st).
  { induction Hreach as [|st op st' _ IH Hop Hrun].
    - exact hvf_accel_init_ok.
    - eapply run_op_ok; eassumption. }
  exact (proj2 Hok).
Qed.

(** X12: on a table whose active ranges are pairwise disjoint and end
    below 2^64, hvf_set_phys_mem asked to add the plain RAM region an active
    slot already holds (same guest range, same host pointer) returns in the
    state it was called in: no slot is touched and no hardware call is
    made. *)
Theorem hvf_set_phys_mem_same_region st i s section :
  slots_wf (slots st) -> slots st !! i = Some s -> active s ->
  plain_ram section ->
  offset_within_address_space section = slot_start s ->
  section_size section = slot_size s ->
  section_ptr section = slot_mem s ->
  hvf_set_phys_mem hv_status section true st = Returned tt st.
Proof.
  intros Hwf Hs Ha [Hram Huser] Hg Hsz Hptr.
  unfold hvf_set_phys_mem. rewrite Hram, Huser, Hg, Hsz. simpl.
  unfold bind at 1, find_overlap_slot.
  rewrite (find_overlap_own_range st i s Hwf Hs Ha).
  unfold bind at 1. unfold bind at 1, read_slot.
  rewrite (slot_at_lookup _ _ _ Hs). unfold ret at 1.
  unfold section_ptr in Hptr. rewrite Hptr, !Z.eqb_refl. reflexivity.
Qed.

(** X13: on a table in order, with a hardware layer that accepts the
    unmap, hvf_set_phys_mem asked to remove a plain RAM section whose range
    ends below 2^64 frees the first active slot the section's range meets,
    whole, with one hv_vm_unmap of that slot's range, also when the section
    covers only part of the slot; the table stays in order and no address of
    the slot translates any more. *)
Theorem hvf_set_phys_mem_remove st i s section :
  table_ok st -> plain_ram section ->
  0 <= offset_within_address_space section -> 0 <= section_size section ->
  offset_within_address_space section + section_size section < two64 ->
  slots st !! i = Some s ->
  meets (offset_within_address_space section) (section_size section) s ->
  (forall j t, (j < i)%nat -> slots st !! j = Some t ->
     ~ meets (offset_within_address_space section) (section_size section) t) ->
  hv_status (hv_log st) (hv_vm_unmap (slot_start s) (slot_size s)) = HV_SUCCESS ->
  exists st',
    hvf_set_phys_mem hv_status section false st = Returned tt st'
    /\ slots st' = <[i := set_size 0 s]> (slots st)
    /\ hv_log st' = hv_log st ++ [hv_vm_unmap (slot_start s) (slot_size s)]
    /\ table_ok st'
    /\ forall x, in_slot x s -> hvf_gpa2hva st' x = None.
Proof.
  intros Hok [Hram Huser] Hg Hsz Hend Hs Hm Hfirst Hhv.
  pose proof Hok as (Hwf & Hid & Hmok). pose proof Hwf as [Hfit Hdis].
  pose proof Hm as (Ha & _).
  destruct (mirror_lookup _ _ _ Hmok Hs) as (m & Hmm & Hmir).
  destruct (mirrors_active _ _ Ha Hmir) as (_ & E1 & E2 & _).
  assert (Hfind : hvf_find_overlap_slot st (offset_within_address_space section)
            (u64 (offset_within_address_space section + section_size section))
            = Some i).
  { pose proof (find_overlap_first st _ _ Hfit Hg Hsz Hend) as H.
    destruct (hvf_find_overlap_slot st _ _) as [k|].
    - destruct H as (t & Ht & Htm & Hmin). f_equal.
      destruct (lt_eq_lt_dec k i) as [[Hlt| ->]|Hgt]; [|reflexivity|].
      + exfalso. exact (Hfirst k t Hlt Ht Htm).
      + exfalso. exact (Hmin i s Hgt Hs Hm).
    - exfalso. exact (H i s Hs Hm). }
  exists (free_slot_state i s m st).
  assert (Hok' : table_ok (free_slot_state i s m st))
    by (apply table_ok_free; assumption).
  split; [|split; [reflexivity|split; [|split; [exact Hok'|]]]].
  - unfold hvf_set_phys_mem. rewrite Hram, Huser. simpl.
    unfold bind at 1, find_overlap_slot. rewrite Hfind.
    unfold bind at 1. unfold bind at 1, read_slot. unfold ret at 1. simpl.
    unfold bind at 1. unfold bind at 1. unfold bind at 1, write_slot.
    rewrite (slot_at_lookup _ _ _ Hs). unfold bind at 1, __hvf_set_memory.
    rewrite (free_commit_eq hv_status st i s m HV_MEMORY_RWX Hok Hs Ha Hmm).
    unfold hv_accepts. rewrite Hhv. reflexivity.
  - simpl. rewrite E1, E2. reflexivity.
  - intros x Hin. apply (gpa2hva_no_slot _ x Hok').
    intros k t Hk Hta Htin. simpl in Hk.
    apply lookup_insert_cases in Hk as [(-> & -> & _)|(Hne & Hk)].
    + exact (Hta eq_refl).
    + unfold in_slot in *.
      destruct (Hdis k i t s (not_eq_sym Hne) Hk Hs Hta Ha) as [H'|H']; lia.
Qed.

(** X9: on a table in order with no free slot, with a hardware layer that
    accepts every call, hvf_set_phys_mem asked to add a non-empty plain RAM
    region whose range ends below 2^64 and meets no active slot does not
    abort: hvf_next_free_slot hands back the last slot and the region is
    written over it.  The table stays in order and the slot's old range stops
    translating; the hardware layer is told to unmap it only if its size
    differs from the new region's. *)
Theorem hvf_set_phys_mem_table_full st section n sn :
  table_ok st -> plain_ram section ->
  0 <= offset_within_address_space section -> 0 < section_size section ->
  offset_within_address_space section + section_size section < two64 ->
  (forall k t, slots st !! k = Some t -> slot_size t <> 0) ->
  (forall k t, slots st !! k = Some t ->
     ~ meets (offset_within_address_space section) (section_size section) t) ->
  slots st !! n = Some sn -> length (slots st) = S n ->
  (forall l c, hv_status l c = HV_SUCCESS) ->
  exists st',
    hvf_set_phys_mem hv_status section true st = Returned tt st'
    /\ slots st' = <[n := fill_slot (section_ptr section)
                            (offset_within_address_space section)
                            (section_size section) sn]> (slots st)
    /\ hv_log st' = hv_log st
         ++ (if slot_size sn =? section_size section then []
             else [hv_vm_unmap (slot_start sn) (slot_size sn)])
         ++ [hv_vm_map (section_ptr section)
               (offset_within_address_space section) (section_size section)
               HV_MEMORY_RWX]
    /\ table_ok st'
    /\ forall x, in_slot x sn -> hvf_gpa2hva st' x = None.
Proof.
  intros Hok [Hram Huser] Hg Hsz Hend Hall Hnone Hn Hlen Hhv.
  pose proof Hok as (Hwf & Hid & Hmok). pose proof Hwf as [Hfit Hdis].
  set (gpa := offset_within_address_space section) in *.
  set (size := section_size section) in *.
  destruct (mirror_lookup _ _ _ Hmok Hn) as (mn & Hmn & Hmir).
  pose proof (Hall n sn Hn) as Han.
  destruct (mirrors_active _ _ Han Hmir) as (Hp & E1 & E2 & _).
  assert (Hfind : hvf_find_overlap_slot st gpa (u64 (gpa + size)) = None).
  { pose proof (find_overlap_first st gpa size Hfit Hg (Z.lt_le_incl _ _ Hsz) Hend)
      as H.
    destruct (hvf_find_overlap_slot st gpa (u64 (gpa + size))) as [k|];
      [|reflexivity].
    exfalso. destruct H as (t & Ht & Htm & _). exact (Hnone k t Ht Htm). }
  assert (Hnext : hvf_next_free_slot st = Some n).
  { pose proof (next_free_full st Hall) as H.
    destruct (hvf_next_free_slot st) as [r|].
    - destruct H as (_ & _ & _ & Hr). f_equal. lia.
    - rewrite H in Hn. discriminate. }
  set (new := fill_slot (section_ptr section) gpa size sn).
  set (st1 := with_slots <[n := new]> st).
  pose proof (lookup_lt_Some _ _ _ Hn) as Hlt.
  assert (Hs1 : slots st1 !! n = Some new)
    by (simpl; apply list_lookup_insert_eq; exact Hlt).
  destruct (set_memory_accepted hv_status st1 n HV_MEMORY_RWX Hhv) as [st2 Hc].
  pose proof (ok_but_write st n sn new Hok Hn eq_refl) as Hbut.
  destruct (commit_restores hv_status _ n _ _ 0 st2 Hbut Hs1 Hc)
    as (_ & Hsl & Hid' & Hmir').
  destruct (set_memory_Returned_spec hv_status st1 n new mn _ 0 st2 Hs1
              (Hid n sn Hn) Hmn (proj2 (proj2 (proj2 Hbut)) mn Hmn) Hc)
    as (_ & _ & _ & Hlog).
  assert (Hwf2 : slots_wf (slots st2)).
  { rewrite Hsl. simpl. apply slots_wf_fill; [exact Hwf|intros _; lia|].
    intros k t _ Hk Ha. apply not_meets_disjoint;
      [exact Ha|exact (Hfit k t Hk Ha)|lia|exact (Hnone k t Hk)]. }
  assert (Hok2 : table_ok st2) by (split; [exact Hwf2|split; assumption]).
  exists st2. split; [|split; [exact Hsl|split; [|split; [exact Hok2|]]]].
  - unfold hvf_set_phys_mem. rewrite Hram, Huser. simpl.
    unfold bind at 1, find_overlap_slot. fold gpa size. rewrite Hfind.
    unfold bind at 1. unfold ret at 1. simpl.
    unfold bind at 1. unfold ret at 1.
    unfold bind at 1, next_free_slot. rewrite Hnext.
    unfold bind at 1, read_slot. rewrite (slot_at_lookup _ _ _ Hn).
    unfold bind at 1, write_slot. unfold bind at 1, __hvf_set_memory.
    fold (section_ptr section). fold new. fold st1. rewrite Hc. reflexivity.
  - rewrite Hlog. unfold commit_calls, new. simpl.
    rewrite Hp, E1, E2. simpl.
    destruct (Z.eqb_spec size 0) as [E0|_]; [lia|].
    destruct (slot_size sn =? size); reflexivity.
  - intros x Hin. apply (gpa2hva_no_slot _ x Hok2).
    intros k t Hk Hta Htin. rewrite Hsl in Hk. simpl in Hk.
    apply lookup_insert_cases in Hk as [(_ & -> & _)|(Hne & Hk)].
    + assert (Hnm : ~ meets gpa size sn) by exact (Hnone n sn Hn).
      destruct (Hfit n sn Hn Han) as (? & ? & ?).
      unfold in_slot, meets, new in *. simpl in Htin. apply Hnm.
      split; [exact Han|lia].
    + unfold in_slot in *.
      destruct (Hdis k n t sn (not_eq_sym Hne) Hk Hn Hta Han) as [H'|H']; lia.
Qed.

End Regions.

(** ** From host addresses back to guest addresses *)

Lemma length_omap_le {A B} (f : A -> option B) (l : list A) :
  (length (omap f l) <= length l)%nat.
Proof.
  induction l as [|x l IH]; [simpl; lia|].
  change (omap f (x :: l))
    with (match f x with Some y => y :: omap f l | None => omap f l end).
  destruct (f x); simpl; lia.
Qed.

(** X14: in a table in order, for an address x of an active slot whose host
    range does not wrap, and with result arrays that have room for one
    fragment per mirror slot, hvf_gpa2hva finds a host address h, and
    hvf_hva2gpa of the one byte at h reports the fragment (x, 1) (among the
    fragments of other slots that share the host byte, if any). *)
Theorem hvf_hva2gpa_inverts_gpa2hva st i s x array_size :
  table_ok st -> slots st !! i = Some s -> active s -> in_slot x s ->
  0 <= slot_mem s -> slot_mem s + slot_size s < two64 ->
  (length (mac_slots st) <= array_size)%nat ->
  exists h, hvf_gpa2hva st x = Some h
    /\ (1 <= fst (hvf_hva2gpa st h 1 array_size))%nat
    /\ In (x, 1) (snd (hvf_hva2gpa st h 1 array_size)).
Proof.
  intros Hok Hs Ha Hin Hm0 Hmend Hsize.
  pose proof Hok as ((Hfit & _) & _ & Hmok).
  destruct (mirror_lookup _ _ _ Hmok Hs) as (m & Hm & Hmir).
  destruct (mirrors_active _ _ Ha Hmir) as (Hp & E1 & E2 & E3).
  destruct (Hfit i s Hs Ha) as (Hs0 & Hsz & Hsend).
  unfold in_slot in Hin.
  exists (slot_mem s + (x - slot_start s)).
  assert (Hfrag : hva2gpa_slot (slot_mem s + (x - slot_start s)) 1 m = Some (x, 1)).
  { unfold hva2gpa_slot. rewrite Hp, E1, E2, E3. simpl.
    replace (slot_mem s + (x - slot_start s) - slot_mem s) with (x - slot_start s)
      by lia.
    rewrite (u64_small (slot_mem s + slot_size s)) by lia.
    rewrite (u64_small (x - slot_start s)) by lia.
    rewrite (u64_small (slot_size s - (x - slot_start s))) by lia.
    replace (slot_start s + (x - slot_start s)) with x by lia.
    rewrite (u64_small x) by lia.
    destruct (Z.leb_spec (slot_mem s) (slot_mem s + (x - slot_start s))); [|lia].
    destruct (Z.ltb_spec (slot_mem s + (x - slot_start s))
                (slot_mem s + slot_size s)); [|lia].
    simpl. f_equal. f_equal. lia. }
  assert (Hel : (x, 1) ∈ hva2gpa_from (mac_slots st)
                          (slot_mem s + (x - slot_start s)) 1).
  { rewrite hva2gpa_from_omap. apply list_elem_of_omap. exists m.
    split; [eapply list_elem_of_lookup_2; exact Hm|exact Hfrag]. }
  split; [|split].
  - rewrite (gpa2hva_of_slot st x i s Hok Hs Ha Hin).
    rewrite u64_small by lia. reflexivity.
  - unfold hvf_hva2gpa. simpl.
    destruct (hva2gpa_from _ _ _) as [|f l]; [|simpl; lia].
    apply elem_of_nil in Hel. contradiction.
  - unfold hvf_hva2gpa. simpl. apply list_elem_of_In.
    rewrite take_ge; [exact Hel|].
    rewrite hva2gpa_from_omap.
    pose proof (length_omap_le (hva2gpa_slot (slot_mem s + (x - slot_start s)) 1)
                  (mac_slots st)) as Hle. lia.
Qed.

(** ** The statements at concrete tables *)

Lemma forallb_lookup {A} (f : A -> bool) (l : list A) :
  forallb f l = true -> forall k x, l !! k = Some x -> f x = true.
Proof.
  intros H k x Hk. rewrite forallb_forall in H. apply H.
  apply list_elem_of_In. eapply list_elem_of_lookup_2. exact Hk.
Qed.

Lemma full_table_ok : table_ok full_table.
Proof.
  apply (run_calls_table_ok hv_always_ok full_table_calls).
  - unfold full_table_calls. apply Forall_map, Forall_forall.
    intros i Hi. apply elem_of_seq in Hi. unfold HVF_MAX_SLOTS in Hi.
    simpl. unfold two64. lia.
  - vm_compute. reflexivity.
Qed.

Lemma full_table_in_use k t : slots full_table !! k = Some t -> slot_size t <> 0.
Proof.
  intros Hk.
  assert (H : forallb (fun t => negb (slot_size t =? 0)) (slots full_table) = true)
    by (vm_compute; reflexivity).
  pose proof (forallb_lookup _ _ H k t Hk) as Ht. simpl in Ht.
  destruct (Z.eqb_spec (slot_size t) 0); [discriminate|assumption].
Qed.

Lemma full_table_below k t :
  slots full_table !! k = Some t -> slot_start t + slot_size t <= 0x200000.
Proof.
  intros Hk.
  assert (H : forallb (fun t => slot_start t + slot_size t <=? 0x200000)
                (slots full_table) = true)
    by (vm_compute; reflexivity).
  pose proof (forallb_lookup _ _ H k t Hk) as Ht. simpl in Ht. lia.
Qed.

Lemma hvf_map_safe_fresh_range_witness :
  exists st',
    hvf_map_safe hv_always_ok 0x9000 0x4000 0x1000 7 one_mapping
    = Returned HV_SUCCESS st'
    /\ slots st' = <[1%nat := fill_slot 0x9000 0x4000 0x1000 (free_slot 1)]>
                     (slots one_mapping)
    /\ hv_log st' = hv_log one_mapping ++ [hv_vm_map 0x9000 0x4000 0x1000 7]
    /\ table_ok st'
    /\ forall x, hvf_gpa2hva st' x =
         if (0x4000 <=? x) && (x <? 0x4000 + 0x1000)
         then Some (u64 (0x9000 + (x - 0x4000))) else hvf_gpa2hva one_mapping x.
Proof.
  apply (hvf_map_safe_fresh_range hv_always_ok one_mapping 0x9000 0x4000 0x1000 7
           1 (free_slot 1)).
  - exact one_mapping_ok.
  - lia.
  - lia.
  - unfold two64. lia.
  - intros k t Hk Hm. pose proof (one_mapping_meets _ _ _ _ Hk Hm) as ->.
    vm_compute in Hk. injection Hk as <-. destruct Hm as (_ & H1 & H2).
    simpl in H1, H2. lia.
  - vm_compute. reflexivity.
  - reflexivity.
  - intros k t Hlt Hk. assert (k = 0%nat) as -> by lia.
    vm_compute in Hk. injection Hk as <-. simpl. lia.
  - reflexivity.
Defined.

Lemma hvf_map_safe_table_full_witness :
  hvf_map_safe hv_always_ok 0x7000 0x10000000 0x1000 7 full_table
  = Aborted full_table.
Proof.
  apply (hvf_map_safe_table_full hv_always_ok full_table 0x7000 0x10000000 0x1000 7).
  - exact (proj1 (proj1 full_table_ok)).
  - lia.
  - lia.
  - unfold two64. lia.
  - exact full_table_in_use.
  - intros k t Hk (_ & Hm & _). pose proof (full_table_below k t Hk).
    pose proof (proj1 (proj1 full_table_ok) k t Hk (full_table_in_use k t Hk))
      as (? & ? & ?). lia.
Defined.

Lemma hvf_set_phys_mem_table_full_witness :
  exists st',
    hvf_set_phys_mem hv_always_ok (ram_section 0x10000000 0x2000 0x7000) true
      full_table = Returned tt st'
    /\ slots st' = <[511%nat := fill_slot 0x7000 0x10000000 0x2000 last_slot]>
                     (slots full_table)
    /\ hv_log st' = hv_log full_table
         ++ [hv_vm_unmap 0x1ff000 0x1000]
         ++ [hv_vm_map 0x7000 0x10000000 0x2000 HV_MEMORY_RWX]
    /\ table_ok st'
    /\ forall x, in_slot x last_slot -> hvf_gpa2hva st' x = None.
Proof.
  apply (hvf_set_phys_mem_table_full hv_always_ok full_table
           (ram_section 0x10000000 0x2000 0x7000) 511 last_slot).
  - exact full_table_ok.
  - split; reflexivity.
  - simpl. lia.
  - simpl. lia.
  - simpl. unfold two64. lia.
  - exact full_table_in_use.
  - intros k t Hk (_ & Hm & _). pose proof (full_table_below k t Hk).
    pose proof (proj1 (proj1 full_table_ok) k t Hk (full_table_in_use k t Hk))
      as (? & ? & ?). simpl in Hm. lia.
  - vm_compute. reflexivity.
  - vm_compute. reflexivity.
  - reflexivity.
Defined.

Lemma set_memory_brings_mirror_in_step_witness :
  (forall r st',
     __hvf_set_memory_with_flags_locked hv_always_ok 0 0 one_mapping_freed
     = Returned r st' ->
     r = 0 /\ slots st' = slots one_mapping_freed
     /\ (exists m', mac_slots st' = <[0%nat := m']> (mac_slots one_mapping_freed)
                    /\ mirrors (set_size 0 one_mapping_slot) m')
     /\ hv_log st' = hv_log one_mapping_freed
          ++ commit_calls (set_size 0 one_mapping_slot) one_mapping_mirror 0)
  /\ ((forall l c, hv_always_ok l c = HV_SUCCESS) ->
      exists st',
        __hvf_set_memory_with_flags_locked hv_always_ok 0 0 one_mapping_freed
        = Returned 0 st').
Proof.
  apply (set_memory_brings_mirror_in_step hv_always_ok one_mapping_freed 0
           (set_size 0 one_mapping_slot) one_mapping_mirror 0).
  - vm_compute. reflexivity.
  - reflexivity.
  - vm_compute. reflexivity.
  - intros _. simpl. lia.
Defined.

Lemma mirror_in_step_reachable_witness :
  let st := final (run_ops hv_always_ok
                     [op_region_add (ram_section 0x2000 0x1000 0x9000);
                      op_region_del (ram_section 0x2800 0x100 0)]
                     hvf_accel_init) in
  ids_ok (slots st) /\ mirror_ok st.
Proof.
  apply (mirror_in_step_reachable hv_always_ok).
  apply (reach_step _
           (final (run_op hv_always_ok
                     (op_region_add (ram_section 0x2000 0x1000 0x9000))
                     hvf_accel_init))
           (op_region_del (ram_section 0x2800 0x100 0))).
  - apply (reach_step _ hvf_accel_init
             (op_region_add (ram_section 0x2000 0x1000 0x9000))).
    + apply reach_init.
    + simpl. unfold two64. repeat split; try lia.
      intros i j s t Hi _ [Hs _] _. exfalso.
      exact (Hs (hvf_accel_init_inactive i s Hi)).
    + vm_compute. reflexivity.
  - exact I.
  - vm_compute. reflexivity.
Defined.

Lemma hvf_set_phys_mem_same_region_witness :
  hvf_set_phys_mem hv_always_ok (ram_section 0x2000 0x1000 0x7000) true one_mapping
  = Returned tt one_mapping.
Proof.
  apply (hvf_set_phys_mem_same_region hv_always_ok one_mapping 0 one_mapping_slot).
  - exact (proj1 one_mapping_ok).
  - vm_compute. reflexivity.
  - unfold active. simpl. lia.
  - split; reflexivity.
  - reflexivity.
  - reflexivity.
  - vm_compute. reflexivity.
Defined.

Lemma hvf_set_phys_mem_remove_witness :
  exists st',
    hvf_set_phys_mem hv_always_ok (ram_section 0x2800 0x100 0) false one_mapping
    = Returned tt st'
    /\ slots st' = <[0%nat := set_size 0 one_mapping_slot]> (slots one_mapping)
    /\ hv_log st' = hv_log one_mapping ++ [hv_vm_unmap 0x2000 0x1000]
    /\ table_ok st'
    /\ forall x, in_slot x one_mapping_slot -> hvf_gpa2hva st' x = None.
Proof.
  apply (hvf_set_phys_mem_remove hv_always_ok one_mapping 0 one_mapping_slot
           (ram_section 0x2800 0x100 0)).
  - exact one_mapping_ok.
  - split; reflexivity.
  - simpl. lia.
  - simpl. lia.
  - simpl. unfold two64. lia.
  - vm_compute. reflexivity.
  - unfold meets, active. simpl. lia.
  - intros j t Hlt. lia.
  - reflexivity.
Defined.

Lemma hvf_hva2gpa_inverts_gpa2hva_witness :
  exists h, hvf_gpa2hva one_mapping 0x2abc = Some h
    /\ (1 <= fst (hvf_hva2gpa one_mapping h 1 512))%nat
    /\ In (0x2abc, 1) (snd (hvf_hva2gpa one_mapping h 1 512)).
Proof.
  apply (hvf_hva2gpa_inverts_gpa2hva one_mapping 0 one_mapping_slot).
  - exact one_mapping_ok.
  - vm_compute. reflexivity.
  - unfold active. simpl. lia.
  - unfold in_slot. simpl. lia.
  - simpl. lia.
  - simpl. unfold two64. lia.
  - vm_compute. lia.
Defined.

(** * Further properties of the vCPU *)

Lemma returned_0 {S} (o : outcome S Z) :
  match o with Returned r _ => r =? 0 | Aborted _ => false end = true ->
  o = Returned 0 (final o).
Proof.
  destruct o as [r s|s]; [|discriminate]. intros H. apply Z.eqb_eq in H.
  subst r. reflexivity.
Qed.

Lemma aarch64_save_sp_frame el e :
  xregs (aarch64_save_sp el e) = xregs e /\ pc (aarch64_save_sp el e) = pc e
  /\ pstate (aarch64_save_sp el e) = pstate e
  /\ vfp_zregs (aarch64_save_sp el e) = vfp_zregs e
  /\ fpsr (aarch64_save_sp el e) = fpsr e /\ fpcr (aarch64_save_sp el e) = fpcr e.
Proof.
  unfold aarch64_save_sp. destruct (negb _); repeat split.
Qed.

Lemma qreg_save_sp el e i : qreg (aarch64_save_sp el e) i = qreg e i.
Proof.
  unfold qreg. destruct (aarch64_save_sp_frame el e) as (_ & _ & _ & -> & _).
  reflexivity.
Qed.

Lemma hvf_put_registers_spec c :
  exists c', hvf_put_registers c = Returned 0 c'
    /\ env c' = aarch64_save_sp 1 (env c) /\ same_frame c c'
    /\ pushed (env c) (hvf_fd c) (hvf_fd c').
Proof.
  exists (final (hvf_put_registers c)).
  destruct (aarch64_save_sp_frame 1 (env c)) as (_ & Epc & Eps & _ & Efs & Efc).
  split; [|split; [|split]].
  - destruct (hvf_put_registers_returns c) as [c' E]. rewrite E. reflexivity.
  - vm_compute. reflexivity.
  - repeat split; vm_compute; reflexivity.
  - unfold pushed. split; [|split; [|split; [|split; [|split; [|split; [|split;
      [|split; [|split; [|split; [|split]]]]]]]]]].
    + intros i Hi. do 31 (destruct i as [|i]; [vm_compute; reflexivity|]). lia.
    + rewrite <- Epc. vm_compute. reflexivity.
    + rewrite <- Eps. vm_compute. reflexivity.
    + rewrite <- Efs. vm_compute. reflexivity.
    + rewrite <- Efc. vm_compute. reflexivity.
    + unfold sys_reg_fields. repeat (constructor; [vm_compute; reflexivity|]).
      constructor.
    + vm_compute. reflexivity.
    + intros i Hi H20 H30. rewrite <- (qreg_save_sp 1).
      do 32 (destruct i as [|i]; [first [contradiction|vm_compute; reflexivity]|]).
      lia.
    + rewrite <- (qreg_save_sp 1). vm_compute. reflexivity.
    + vm_compute. reflexivity.
    + vm_compute. reflexivity.
    + vm_compute. reflexivity.
Qed.

Lemma list_32 {A} (l : list A) :
  length l = 32%nat ->
  exists a0 a1 a2 a3 a4 a5 a6 a7 a8 a9 a10 a11 a12 a13 a14 a15 a16 a17 a18 a19
         a20 a21 a22 a23 a24 a25 a26 a27 a28 a29 a30 a31,
    l = [a0; a1; a2; a3; a4; a5; a6; a7; a8; a9; a10; a11; a12; a13; a14; a15;
         a16; a17; a18; a19; a20; a21; a22; a23; a24; a25; a26; a27; a28; a29;
         a30; a31].
Proof.
  intros H.
  do 32 (destruct l as [|? l]; [discriminate|]).
  destruct l; [|discriminate]. repeat eexists.
Qed.

Lemma bind_unit_step {S B} (m : prog S unit) (k : unit -> prog S B) s :
  returned (m s) = true -> bind m k s = k tt (final (m s)).
Proof.
  unfold bind. destruct (m s) as [[] s'|s']; [reflexivity|discriminate].
Qed.

Lemma bind_get_reg {B} r (k : Z -> M B) c :
  bind (hv_vcpu_get_reg r) k c = k (reg (hvf_fd c) r) c.
Proof. reflexivity. Qed.

Lemma bind_ret {S A B} (a : A) (k : A -> prog S B) s : bind (ret a) k s = k a s.
Proof. reflexivity. Qed.

(** One command of type unit that returns: go on in the state it ends in. *)
Ltac run_unit :=
  match goal with
  | |- bind ?m ?k ?s = _ =>
      rewrite (bind_unit_step m k s) by (vm_compute; reflexivity); cbv beta
  end.

(** The pull after the test for AArch32 state has passed: restoring the
    stack pointer in the state [s] whose PSTATE is [v]. *)
Lemma restore_sp_final s v (b : bool) :
  pstate (env s) = v -> negb (Z.land v PSTATE_SP =? 0) = b ->
  final (modify_env (aarch64_restore_sp 1) s)
  = with_env (fun e => set_xregs
                (<[31%nat := field e (if b then sp_el_1 else sp_el_0)]> (xregs e)) e) s.
Proof.
  intros Hv Hb. unfold modify_env, final, with_env, aarch64_restore_sp.
  rewrite Hv, Hb. destruct b; reflexivity.
Qed.

(** PSTATE, FPSR and FPCR are set once in the pull; the commands after
    leave them. *)
Lemma fpsr_get_sys_reg r f s :
  fpsr (env (final (get_sys_reg r f s))) = fpsr (env s).
Proof. reflexivity. Qed.

Lemma fpcr_get_sys_reg r f s :
  fpcr (env (final (get_sys_reg r f s))) = fpcr (env s).
Proof. reflexivity. Qed.

Lemma fpsr_pull_fpcr s :
  fpsr (env (final ((let* v := hv_vcpu_get_reg HV_REG_FPCR in
                     modify_env (vfp_set_fpcr (v mod 2 ^ 32))) s)))
  = fpsr (env s).
Proof. reflexivity. Qed.

Lemma fpsr_pull_fpsr s :
  fpsr (env (final ((let* v := hv_vcpu_get_reg HV_REG_FPSR in
                     modify_env (vfp_set_fpsr (v mod 2 ^ 32))) s)))
  = reg (hvf_fd s) HV_REG_FPSR mod 2 ^ 32.
Proof. reflexivity. Qed.

Lemma fpcr_pull_fpcr s :
  fpcr (env (final ((let* v := hv_vcpu_get_reg HV_REG_FPCR in
                     modify_env (vfp_set_fpcr (v mod 2 ^ 32))) s)))
  = reg (hvf_fd s) HV_REG_FPCR mod 2 ^ 32.
Proof. reflexivity. Qed.

(** The pull, command by command, from a state given field by field; [b]
    tells whether PSTATE selects the stack pointer of EL1. *)
Ltac run_get regf Hn Hsp b :=
  unfold hvf_get_registers; run_unit; run_unit; run_unit;
  rewrite bind_get_reg; cbv beta;
  match goal with
  | |- context [reg (hvf_fd ?s) HV_REG_CPSR] =>
      replace (reg (hvf_fd s) HV_REG_CPSR) with (regf HV_REG_CPSR)
        by (vm_compute; reflexivity)
  end;
  rewrite Hn;
  change (if negb (0 =? 0) then abort else ret tt) with (@ret CPUState unit tt);
  rewrite bind_ret; run_unit;
  match goal with
  | |- bind (modify_env (aarch64_restore_sp 1)) ?k ?s = _ =>
      rewrite (bind_unit_step (modify_env (aarch64_restore_sp 1)) k s)
        by reflexivity;
      rewrite (restore_sp_final s (regf HV_REG_CPSR) b)
        by (first [vm_compute; reflexivity | exact Hsp]);
      cbv beta
  end;
  repeat run_unit; reflexivity.

Ltac check_pulled regf :=
  split; [|split; [|split; [|split; [|split; [|split; [|split; [|split; [|split]]]]]]]];
  [ let i := fresh "i" in let Hi := fresh "Hi" in
    intros i Hi; do 31 (destruct i as [|i]; [vm_compute; reflexivity|]); lia
  | vm_compute; reflexivity
  | vm_compute; reflexivity
  | vm_compute; reflexivity
  | vm_compute; reflexivity
  | rewrite !fpsr_get_sys_reg, fpsr_pull_fpcr, fpsr_pull_fpsr;
    apply (f_equal (fun x => x mod 2 ^ 32)); vm_compute; reflexivity
  | rewrite !fpcr_get_sys_reg, fpcr_pull_fpcr;
    apply (f_equal (fun x => x mod 2 ^ 32)); vm_compute; reflexivity
  | unfold sys_reg_fields; repeat (constructor; [vm_compute; reflexivity|]);
    constructor
  | let i := fresh "i" in let Hi := fresh "Hi" in
    intros i Hi; do 32 (destruct i as [|i]; [vm_compute; reflexivity|]); lia
  | vm_compute; reflexivity ].

Lemma hvf_get_registers_spec c :
  length (xregs (env c)) = 32%nat -> length (vfp_zregs (env c)) = 32%nat ->
  Z.land (reg (hvf_fd c) HV_REG_CPSR) PSTATE_nRW = 0 ->
  exists c', hvf_get_registers c = Returned 0 c'
    /\ hvf_fd c' = hvf_fd c /\ same_frame c c' /\ pulled (hvf_fd c) (env c').
Proof.
  intros Hx Hz Hn.
  destruct c as [[xr pc0 ps zr fs fc fld] [regf sysf simdf pi pf] info d ip fp bl].
  simpl in Hx, Hz, Hn.
  destruct (list_32 xr Hx) as (x0&x1&x2&x3&x4&x5&x6&x7&x8&x9&x10&x11&x12&x13&x14&x15&x16&x17&x18&x19&x20&x21&x22&x23&x24&x25&x26&x27&x28&x29&x30&x31&->).
  destruct (list_32 zr Hz) as (z0&z1&z2&z3&z4&z5&z6&z7&z8&z9&z10&z11&z12&z13&z14&z15&z16&z17&z18&z19&z20&z21&z22&z23&z24&z25&z26&z27&z28&z29&z30&z31&->).
  clear Hx Hz.
  destruct (negb (Z.land (regf HV_REG_CPSR) PSTATE_SP =? 0)) eqn:Hsp.
  - eexists. split; [run_get regf Hn Hsp true|].
    split; [vm_compute; reflexivity|].
    split; [repeat split; vm_compute; reflexivity|].
    unfold pulled. cbn [hvf_fd reg sys_reg simd_fp_reg]. rewrite Hsp.
    check_pulled regf.
  - eexists. split; [run_get regf Hn Hsp false|].
    split; [vm_compute; reflexivity|].
    split; [repeat split; vm_compute; reflexivity|].
    unfold pulled. cbn [hvf_fd reg sys_reg simd_fp_reg]. rewrite Hsp.
    check_pulled regf.
Qed.

(** ** Every register of the hardware context is in the transfer tables *)

Ltac try_index k :=
  lazymatch k with
  | 32%nat => fail
  | _ => first [ exists k; repeat split; first [lia | discriminate | reflexivity]
               | try_index (S k) ]
  end.

Lemma hv_reg_cases r :
  (exists i, (i < 31)%nat /\ r = regno_to_hv_xreg i)
  \/ r = HV_REG_PC \/ r = HV_REG_FPCR \/ r = HV_REG_FPSR \/ r = HV_REG_CPSR.
Proof.
  destruct r;
    first [ left; try_index 0%nat
          | right; left; reflexivity
          | right; right; left; reflexivity
          | right; right; right; left; reflexivity
          | right; right; right; right; reflexivity ].
Qed.

Lemma hv_simd_fp_reg_cases r :
  (exists i, (i < 32)%nat /\ i <> 20%nat /\ i <> 30%nat
             /\ r = regno_to_hv_simd_fp_reg_type i)
  \/ r = HV_SIMD_FP_REG_Q20 \/ r = HV_SIMD_FP_REG_Q30.
Proof.
  destruct r;
    first [ right; left; reflexivity
          | right; right; reflexivity
          | left; try_index 0%nat ].
Qed.

Lemma hv_sys_reg_cases r :
  r = HV_SYS_REG_CNTV_CVAL_EL0 \/ exists f, In (r, f) sys_reg_fields.
Proof.
  destruct r;
    first [ left; reflexivity
          | right; eexists; unfold sys_reg_fields;
            repeat (first [left; reflexivity | right]) ].
Qed.

Lemma env_field_cases f : exists r, In (r, f) sys_reg_fields.
Proof.
  destruct f; eexists; unfold sys_reg_fields;
    repeat (first [left; reflexivity | right]).
Qed.

(** ** Pull and push compose *)

Lemma pulled_field h e r f :
  pulled h e -> In (r, f) sys_reg_fields -> field e f = sys_reg h r.
Proof.
  intros (_ & _ & _ & _ & _ & _ & _ & Hf & _) Hin.
  rewrite Forall_forall in Hf. exact (Hf (r, f) (proj2 (list_elem_of_In _ _) Hin)).
Qed.

Lemma pushed_sys_reg e h h' r f :
  pushed e h h' -> In (r, f) sys_reg_fields ->
  sys_reg h' r = field (aarch64_save_sp 1 e) f.
Proof.
  intros (_ & _ & _ & _ & _ & Hf & _) Hin.
  rewrite Forall_forall in Hf. exact (Hf (r, f) (proj2 (list_elem_of_In _ _) Hin)).
Qed.

Lemma field_save_sp e f :
  field (aarch64_save_sp 1 e) f =
  if negb (Z.land (pstate e) PSTATE_SP =? 0)
  then (if env_field_eq_dec sp_el_1 f then xreg e 31 else field e f)
  else (if env_field_eq_dec sp_el_0 f then xreg e 31 else field e f).
Proof. unfold aarch64_save_sp. destruct (negb _); reflexivity. Qed.

(** Saving the stack pointer of a register file just pulled changes no
    field: the stack pointer in use is the one that was pulled. *)
Lemma field_save_sp_pulled h e f :
  pulled h e -> field (aarch64_save_sp 1 e) f = field e f.
Proof.
  intros Hp. pose proof Hp as (_ & H31 & _ & _ & Hps & _).
  rewrite field_save_sp, Hps, H31.
  destruct (negb (Z.land (reg h HV_REG_CPSR) PSTATE_SP =? 0)).
  - destruct (env_field_eq_dec sp_el_1 f) as [<-|]; [|reflexivity].
    symmetry. apply (pulled_field h e _ _ Hp). unfold sys_reg_fields.
    right; left; reflexivity.
  - destruct (env_field_eq_dec sp_el_0 f) as [<-|]; [|reflexivity].
    symmetry. apply (pulled_field h e _ _ Hp). unfold sys_reg_fields.
    left; reflexivity.
Qed.

Lemma handler_frame_refl e : handler_frame e e.
Proof. repeat split. Qed.

(** Pushing such a file over the context it was pulled from changes at
    most the general registers and the program counter. *)
Lemma push_after_pull h e e' h' :
  pulled h e -> handler_frame e e' -> pushed e' h h' ->
  0 <= reg h HV_REG_FPSR < 2 ^ 32 -> 0 <= reg h HV_REG_FPCR < 2 ^ 32 ->
  (forall i, (i < 31)%nat -> reg h' (regno_to_hv_xreg i) = xreg e' i)
  /\ reg h' HV_REG_PC = pc e'
  /\ reg h' HV_REG_CPSR = reg h HV_REG_CPSR
  /\ reg h' HV_REG_FPSR = reg h HV_REG_FPSR
  /\ reg h' HV_REG_FPCR = reg h HV_REG_FPCR
  /\ (forall r, sys_reg h' r = sys_reg h r)
  /\ (forall r, simd_fp_reg h' r = simd_fp_reg h r)
  /\ pending_irq h' = pending_irq h /\ pending_fiq h' = pending_fiq h.
Proof.
  intros Hpull (F31 & Fps & Ffs & Ffc & Ffld & Fq) Hpush Hfs Hfc.
  pose proof Hpull as (_ & P31 & _ & _ & Pps & Pfs & Pfc & _ & Pq & _).
  pose proof Hpush as (Hx & Hpc & Hcpsr & Hfpsr & Hfpcr & _ & Hcval & Hq & Hq20
                       & Hq30 & Hirq & Hfiq).
  split; [exact Hx|]. split; [exact Hpc|].
  split; [rewrite Hcpsr, Fps; exact Pps|].
  split; [rewrite Hfpsr, Ffs, Pfs; apply Z.mod_small; exact Hfs|].
  split; [rewrite Hfpcr, Ffc, Pfc; apply Z.mod_small; exact Hfc|].
  split; [|split; [|split; assumption]].
  - intros r. destruct (hv_sys_reg_cases r) as [->|[f Hin]]; [exact Hcval|].
    rewrite (pushed_sys_reg _ _ _ _ _ Hpush Hin).
    rewrite <- (pulled_field _ _ _ _ Hpull Hin).
    rewrite <- (field_save_sp_pulled h e f Hpull).
    rewrite !field_save_sp, Fps, F31, !Ffld. reflexivity.
  - intros r.
    destruct (hv_simd_fp_reg_cases r) as [(i & Hi & H20 & H30 & ->)|[->| ->]].
    + rewrite (Hq i Hi H20 H30), Fq. apply Pq. exact Hi.
    + rewrite Hq20, Fq. apply (Pq 30%nat). lia.
    + exact Hq30.
Qed.

(** X15: when the hardware vCPU is in AArch64 state and its FPSR and FPCR
    fit 32 bits, pulling the registers with hvf_get_registers and pushing
    them back with hvf_put_registers returns and leaves every register of
    the hardware context as it was: the general registers, PC, CPSR, FPSR,
    FPCR, every system register and every vector register, Q20 and Q30
    included. *)
Theorem hvf_get_put_registers_hardware c :
  length (xregs (env c)) = 32%nat -> length (vfp_zregs (env c)) = 32%nat ->
  Z.land (reg (hvf_fd c) HV_REG_CPSR) PSTATE_nRW = 0 ->
  0 <= reg (hvf_fd c) HV_REG_FPSR < 2 ^ 32 ->
  0 <= reg (hvf_fd c) HV_REG_FPCR < 2 ^ 32 ->
  exists c', (hvf_get_registers;; hvf_put_registers) c = Returned 0 c'
    /\ (forall r, reg (hvf_fd c') r = reg (hvf_fd c) r)
    /\ (forall r, sys_reg (hvf_fd c') r = sys_reg (hvf_fd c) r)
    /\ (forall r, simd_fp_reg (hvf_fd c') r = simd_fp_reg (hvf_fd c) r)
    /\ pending_irq (hvf_fd c') = pending_irq (hvf_fd c)
    /\ pending_fiq (hvf_fd c') = pending_fiq (hvf_fd c).
Proof.
  intros Hx Hz Hn Hfs Hfc.
  destruct (hvf_get_registers_spec c Hx Hz Hn) as (c1 & Hget & Hfd & _ & Hpull).
  destruct (hvf_put_registers_spec c1) as (c2 & Hput & _ & _ & Hpush).
  rewrite Hfd in Hpush.
  destruct (push_after_pull _ _ _ _ Hpull (handler_frame_refl _) Hpush Hfs Hfc)
    as (Gx & Gpc & Gcpsr & Gfs & Gfc & Gsys & Gsimd & Girq & Gfiq).
  pose proof Hpull as (Px & _ & _ & Ppc & _).
  exists c2. split; [|split; [|split; [|split; [|split]]]]; try assumption.
  - unfold bind. rewrite Hget. exact Hput.
  - intros r.
    destruct (hv_reg_cases r) as [(i & Hi & ->)|[->|[->|[->| ->]]]];
      try assumption.
    + rewrite (Gx i Hi). exact (Px i Hi).
    + rewrite Gpc. exact Ppc.
Qed.

(** Two lists of 32 registers that agree register by register. *)
Lemma regs_eq (l l' : list Z) :
  length l = 32%nat -> length l' = 32%nat ->
  (forall i, (i < 32)%nat -> default 0 (l !! i) = default 0 (l' !! i)) ->
  l = l'.
Proof.
  intros Hl Hl' Heq. apply (list_eq_same_length l l' 32 Hl' Hl).
  intros i x y Hi Hx Hy. specialize (Heq i Hi). rewrite Hx, Hy in Heq. exact Heq.
Qed.

(** X16: for a register file in AArch64 state whose FPSR and FPCR fit 32
    bits, pushing with hvf_put_registers and pulling back with
    hvf_get_registers returns and gives back the general registers, the
    stack pointer, PC, PSTATE, FPSR, FPCR and the system register fields as
    they were after the push saved the stack pointer in use; the vector
    registers come back with register 20 overwritten by register 30. *)
Theorem hvf_put_get_registers_env c :
  length (xregs (env c)) = 32%nat -> length (vfp_zregs (env c)) = 32%nat ->
  Z.land (pstate (env c)) PSTATE_nRW = 0 ->
  0 <= fpsr (env c) < 2 ^ 32 -> 0 <= fpcr (env c) < 2 ^ 32 ->
  exists c', (hvf_put_registers;; hvf_get_registers) c = Returned 0 c'
    /\ xregs (env c') = xregs (env c)
    /\ pc (env c') = pc (env c) /\ pstate (env c') = pstate (env c)
    /\ fpsr (env c') = fpsr (env c) /\ fpcr (env c') = fpcr (env c)
    /\ (forall f, field (env c') f = field (aarch64_save_sp 1 (env c)) f)
    /\ vfp_zregs (env c') = <[20%nat := qreg (env c) 30]> (vfp_zregs (env c)).
Proof.
  intros Hx Hz Hn Hfs Hfc.
  destruct (hvf_put_registers_spec c) as (c1 & Hput & Henv & _ & Hpush).
  pose proof Hpush as (Gx & Gpc & Gcpsr & Gfs & Gfc & _ & _ & Gq & Gq20 & _).
  destruct (aarch64_save_sp_frame 1 (env c)) as (Sx & _ & _ & Sz & _).
  assert (Hx1 : length (xregs (env c1)) = 32%nat) by (rewrite Henv, Sx; exact Hx).
  assert (Hz1 : length (vfp_zregs (env c1)) = 32%nat)
    by (rewrite Henv, Sz; exact Hz).
  assert (Hn1 : Z.land (reg (hvf_fd c1) HV_REG_CPSR) PSTATE_nRW = 0)
    by (rewrite Gcpsr; exact Hn).
  destruct (hvf_get_registers_spec c1 Hx1 Hz1 Hn1) as (c2 & Hget & _ & _ & Hpull).
  pose proof Hpull as (Px & P31 & Plx & Ppc & Pps & Pfs & Pfc & _ & Pq & Plz).
  exists c2. split; [unfold bind; rewrite Hput; exact Hget|].
  split; [|split; [|split; [|split; [|split; [|split]]]]].
  - apply regs_eq; [exact Plx|exact Hx|]. intros i Hi.
    change (xreg (env c2) i = xreg (env c) i).
    destruct (decide (i = 31%nat)) as [->|Hne].
    + rewrite P31, Gcpsr.
      rewrite (pushed_sys_reg _ _ _ HV_SYS_REG_SP_EL1 sp_el_1 Hpush)
        by (unfold sys_reg_fields; right; left; reflexivity).
      rewrite (pushed_sys_reg _ _ _ HV_SYS_REG_SP_EL0 sp_el_0 Hpush)
        by (unfold sys_reg_fields; left; reflexivity).
      rewrite !field_save_sp.
      destruct (negb (Z.land (pstate (env c)) PSTATE_SP =? 0)); reflexivity.
    + assert (Hlt : (i < 31)%nat) by lia. rewrite (Px i Hlt). exact (Gx i Hlt).
  - rewrite Ppc. exact Gpc.
  - rewrite Pps. exact Gcpsr.
  - rewrite Pfs, Gfs. apply Z.mod_small. exact Hfs.
  - rewrite Pfc, Gfc. apply Z.mod_small. exact Hfc.
  - intros f. destruct (env_field_cases f) as [r Hin].
    rewrite (pulled_field _ _ _ _ Hpull Hin).
    exact (pushed_sys_reg _ _ _ _ _ Hpush Hin).
  - apply regs_eq; [exact Plz|rewrite length_insert; exact Hz|]. intros i Hi.
    change (qreg (env c2) i = default 0 (<[20%nat := qreg (env c) 30]>
                                           (vfp_zregs (env c)) !! i)).
    rewrite (Pq i Hi). destruct (decide (i = 20%nat)) as [->|H20].
    + rewrite list_lookup_insert_eq by lia. exact Gq20.
    + rewrite list_lookup_insert_ne by (exact (not_eq_sym H20)).
      destruct (decide (i = 30%nat)) as [->|H30]; [exact Gq20|].
      exact (Gq i Hi H20 H30).
Qed.

(** ** The hardware context across the handlers *)

Lemma keeps_fd_bind {A B} (m : M A) (k : A -> M B) :
  keeps_fd m -> (forall a, keeps_fd (k a)) -> keeps_fd (bind m k).
Proof.
  intros Hm Hk c b c' H. apply bind_Returned in H as (a & c1 & H1 & H2).
  rewrite (Hk a _ _ _ H2). exact (Hm _ _ _ H1).
Qed.

Lemma keeps_fd_pure {A} (f : CPUState -> A) (g : CPUState -> CPUState) :
  (forall c, hvf_fd (g c) = hvf_fd c) ->
  keeps_fd (fun c => Returned (f c) (g c)).
Proof. intros Hg c a c' H. injection H as _ <-. apply Hg. Qed.

Lemma keeps_fd_abort {A} : keeps_fd (@abort CPUState A).
Proof. intros c a c' H. discriminate. Qed.

Lemma keeps_fd_if {A} (b : bool) (m1 m2 : M A) :
  keeps_fd m1 -> keeps_fd m2 -> keeps_fd (if b then m1 else m2).
Proof. destruct b; tauto. Qed.

Lemma keeps_fd_for_each {A} (l : list A) (body : A -> M unit) :
  (forall x, keeps_fd (body x)) -> keeps_fd (for_each l body).
Proof.
  intros Hb. induction l as [|x l IH]; simpl.
  - exact (keeps_fd_pure (fun _ => tt) (fun c => c) (fun _ => eq_refl)).
  - apply keeps_fd_bind; [apply Hb|intros _; exact IH].
Qed.

Lemma keeps_fd_get_sys_reg r f : keeps_fd (get_sys_reg r f).
Proof. intros c a c' H. injection H as _ <-. reflexivity. Qed.

Lemma keeps_fd_hvf_write_rt rt val : keeps_fd (hvf_write_rt rt val).
Proof.
  intros c a c' H. unfold hvf_write_rt in H.
  destruct (negb (rt =? 31)); injection H as _ <-; reflexivity.
Qed.

Ltac keeps :=
  repeat first
    [ apply keeps_fd_bind; [|intros ?]
    | apply keeps_fd_for_each; intros ?
    | apply keeps_fd_get_sys_reg
    | apply keeps_fd_hvf_write_rt
    | apply keeps_fd_abort
    | apply keeps_fd_if
    | (intros ? ? ? ?; discriminate)
    | (intros ? ? ? H; injection H as _ <-; reflexivity) ].

(** The pull reads the hardware context and writes the emulator's file. *)
Lemma hvf_get_registers_keeps_fd : keeps_fd hvf_get_registers.
Proof. unfold hvf_get_registers. keeps. Qed.

(** Saving the stack pointer twice is saving it once. *)
Lemma field_save_sp_twice e f :
  field (aarch64_save_sp 1 (aarch64_save_sp 1 e)) f
  = field (aarch64_save_sp 1 e) f.
Proof.
  destruct (aarch64_save_sp_frame 1 e) as (Ex & _ & Eps & _).
  rewrite (field_save_sp (aarch64_save_sp 1 e)), Eps.
  unfold xreg at 1 2. rewrite Ex. fold (xreg e 31).
  rewrite (field_save_sp e).
  destruct (negb (Z.land (pstate e) PSTATE_SP =? 0)).
  - destruct (env_field_eq_dec sp_el_1 f); reflexivity.
  - destruct (env_field_eq_dec sp_el_0 f); reflexivity.
Qed.

(** A second push, of the register file the first one left, followed by the
    programming of the pending lines: the hardware context holds that file,
    and what the pushes do not write is as it was before the first. *)
Lemma pushed_again e0 e1 h0 h1 h2 irq fiq :
  pushed e0 h0 h1 -> pushed e1 h1 h2 ->
  pushed (aarch64_save_sp 1 e1) (set_pending irq fiq h0) (set_pending irq fiq h2).
Proof.
  intros (_ & _ & _ & _ & _ & _ & Hcv1 & _ & _ & Hq1 & _)
         (Hx & Hpc & Hps & Hfs & Hfc & Hf & Hcv & Hq & Hq20 & Hq30 & _).
  destruct (aarch64_save_sp_frame 1 e1) as (Ex & Epc & Eps & Ez & Efs & Efc).
  unfold pushed.
  split; [|split; [|split; [|split; [|split; [|split; [|split;
    [|split; [|split; [|split; [|split]]]]]]]]]].
  - intros i Hi. unfold xreg. rewrite Ex. exact (Hx i Hi).
  - rewrite Epc. exact Hpc.
  - rewrite Eps. exact Hps.
  - rewrite Efs. exact Hfs.
  - rewrite Efc. exact Hfc.
  - rewrite Forall_forall in Hf |- *. intros rf Hin.
    rewrite field_save_sp_twice. exact (Hf rf Hin).
  - simpl. rewrite Hcv. exact Hcv1.
  - intros i Hi H20 H30. rewrite qreg_save_sp. exact (Hq i Hi H20 H30).
  - rewrite qreg_save_sp. exact Hq20.
  - simpl. rewrite Hq30. exact Hq1.
  - reflexivity.
  - reflexivity.
Qed.

Section Handlers.

Variable bus_data : list bus_event -> Z -> Z -> list Z.
Variable data_buf_uninit : list Z.
Variable arm_is_psci_call : CPUARMState -> bool.
Variable arm_handle_psci_call : CPUARMState -> CPUARMState.
Variable mem : Mem.hvf_mem.

Local Abbreviation handle_exception :=
  (hvf_handle_exception bus_data data_buf_uninit arm_is_psci_call
     arm_handle_psci_call mem).
Local Abbreviation exec_exit :=
  (hvf_vcpu_exec_exit bus_data data_buf_uninit arm_is_psci_call
     arm_handle_psci_call mem).

Lemma hvf_handle_hvc_keeps_fd :
  keeps_fd (hvf_handle_hvc arm_is_psci_call arm_handle_psci_call).
Proof. unfold hvf_handle_hvc. keeps. Qed.

Lemma hvf_handle_sys_reg_keeps_fd : keeps_fd hvf_handle_sys_reg.
Proof. unfold hvf_handle_sys_reg, hvf_skip_instr. keeps. Qed.

Lemma hvf_decode_hsr_keeps_fd : keeps_fd hvf_decode_hsr.
Proof.
  intros c a c' H. unfold hvf_decode_hsr in H.
  destruct (negb (Z.land ESR_ELx_EA (hvf_vcpu_get_hsr c) =? 0)); [discriminate|].
  destruct (negb (Z.land ESR_ELx_S1PTW (hvf_vcpu_get_hsr c) =? 0)); [discriminate|].
  destruct (hvf_vcpu_dabt_get_as c <? 0); [discriminate|].
  injection H as _ <-. reflexivity.
Qed.

Lemma hvf_handle_mmio_keeps_fd :
  keeps_fd (hvf_handle_mmio bus_data data_buf_uninit).
Proof.
  unfold hvf_handle_mmio. apply keeps_fd_bind; [keeps|intros info].
  apply keeps_fd_if; [keeps|].
  apply keeps_fd_bind; [exact hvf_decode_hsr_keeps_fd|].
  intros [[[is_write len] sign_extend] rt].
  apply keeps_fd_if; [keeps|].
  apply keeps_fd_bind; [keeps|intros bytes].
  destruct (len =? 1); [apply keeps_fd_hvf_write_rt|].
  destruct (len =? 2); [apply keeps_fd_hvf_write_rt|].
  destruct (len =? 4); apply keeps_fd_hvf_write_rt.
Qed.

Lemma hvf_handle_guest_abort_keeps_fd ec :
  keeps_fd (hvf_handle_guest_abort bus_data data_buf_uninit mem ec).
Proof.
  unfold hvf_handle_guest_abort. apply keeps_fd_bind; [keeps|intros info].
  apply keeps_fd_if; [keeps|].
  destruct (hvf_find_overlap_slot mem _ _); [keeps|].
  apply keeps_fd_if; [keeps|]. apply keeps_fd_if; [keeps|].
  exact hvf_handle_mmio_keeps_fd.
Qed.

(** A handled exception: the pull and the handler leave the hardware
    context alone, and the push that ends it starts from there. *)
Lemma hvf_handle_exception_handler_then_put c c' :
  handle_exception c = Returned tt c' ->
  exists c2, hvf_fd c2 = hvf_fd c /\ hvf_put_registers c2 = Returned 0 c'.
Proof.
  unfold hvf_handle_exception. intros H.
  apply bind_Returned in H as (r & c1 & Hget & H).
  apply bind_Returned in H as (info & c1' & Hinfo & H).
  injection Hinfo as _ <-.
  apply bind_Returned in H as ([] & c2 & Hh & H).
  apply bind_Returned in H as (r' & c4 & Hput & H).
  unfold ret in H. injection H as Hc. subst c4. exists c2.
  destruct (hvf_put_registers_returns c2) as (c5 & E). rewrite E in Hput.
  injection Hput as _ Hc. subst c5. split; [|exact E].
  rewrite <- (hvf_get_registers_keeps_fd _ _ _ Hget).
  revert Hh. generalize (ESR_ELx_EC (syndrome info mod 2 ^ 32)).
  intros ec Hh.
  assert (Hk : keeps_fd
    (if ec =? ESR_ELx_EC_WFx then hvf_handle_wfx
     else if ec_in ec [ESR_ELx_EC_CP15_32; ESR_ELx_EC_CP15_64; ESR_ELx_EC_CP14_MR;
                       ESR_ELx_EC_CP14_LS; ESR_ELx_EC_CP14_64]
     then hvf_handle_cp
     else if ec_in ec [ESR_ELx_EC_HVC32; ESR_ELx_EC_HVC64]
     then hvf_handle_hvc arm_is_psci_call arm_handle_psci_call
     else if ec_in ec [ESR_ELx_EC_SMC32; ESR_ELx_EC_SMC64] then hvf_handle_smc
     else if ec =? ESR_ELx_EC_SYS64 then hvf_handle_sys_reg
     else if ec_in ec [ESR_ELx_EC_IABT_LOW; ESR_ELx_EC_DABT_LOW]
     then hvf_handle_guest_abort bus_data data_buf_uninit mem ec
     else if ec_in ec [ESR_ELx_EC_SOFTSTP_LOW; ESR_ELx_EC_WATCHPT_LOW;
                       ESR_ELx_EC_BREAKPT_LOW; ESR_ELx_EC_BKPT32; ESR_ELx_EC_BRK64]
     then hvf_handle_guest_debug
     else hvf_get_registers;; hvf_put_registers;; abort)).
  { apply keeps_fd_if; [intros ? ? ? E1; injection E1 as _ <-; reflexivity|].
    apply keeps_fd_if; [apply keeps_fd_abort|].
    apply keeps_fd_if; [exact hvf_handle_hvc_keeps_fd|].
    apply keeps_fd_if; [apply keeps_fd_abort|].
    apply keeps_fd_if; [exact hvf_handle_sys_reg_keeps_fd|].
    apply keeps_fd_if; [apply hvf_handle_guest_abort_keeps_fd|].
    apply keeps_fd_if; [apply keeps_fd_abort|].
    intros s a s' E1.
    apply bind_Returned in E1 as (? & ? & _ & E1).
    apply bind_Returned in E1 as (? & ? & _ & E1). discriminate. }
  exact (Hk _ _ _ Hh).
Qed.

(** C4 on the code: after an exception exit that is handled without
    aborting, the loop enters the hardware again with the dirty flag clear
    and with the emulator's register file pushed, the pending lines
    programmed; but the emulator's vector register 30 has gone to Q20, and
    Q30 holds what the hardware held at the exit: no push writes it. *)
Theorem handled_exception_push_misses_q30 c c' :
  reason (hvf_vcpu_exit_info c) = HV_EXIT_REASON_EXCEPTION ->
  exec_exit c = Returned tt c' ->
  exists c3,
    hvf_vcpu_exec_enter bus_data c' = Returned tt c3
    /\ hvf_vcpu_dirty c3 = false
    /\ pushed (env c3)
         (set_pending (hvf_irq_pending c3) (hvf_fiq_pending c3) (hvf_fd c))
         (hvf_fd c3)
    /\ simd_fp_reg (hvf_fd c3) HV_SIMD_FP_REG_Q20 = qreg (env c3) 30
    /\ simd_fp_reg (hvf_fd c3) HV_SIMD_FP_REG_Q30
       = simd_fp_reg (hvf_fd c) HV_SIMD_FP_REG_Q30.
Proof.
  intros Hreason H.
  rewrite (hvf_vcpu_exec_exit_exception bus_data data_buf_uninit arm_is_psci_call
             arm_handle_psci_call mem c Hreason) in H.
  apply bind_Returned in H as ([] & c1 & Hexc & H). injection H as <-.
  destruct (hvf_handle_exception_handler_then_put _ _ Hexc) as (c2 & Hfd & Hput1).
  destruct (hvf_put_registers_spec c2) as (c1' & Hput1' & _ & _ & Hpush1).
  rewrite Hput1 in Hput1'. injection Hput1' as <-. rewrite Hfd in Hpush1.
  destruct (hvf_put_registers_spec (set_dirty true c1))
    as (c4 & Hput2 & Henv & (_ & _ & Hirq & Hfiq & _) & Hpush2).
  change (env (set_dirty true c1)) with (env c1) in Henv, Hpush2.
  change (hvf_fd (set_dirty true c1)) with (hvf_fd c1) in Hpush2.
  pose proof (pushed_again _ _ _ _ _ (hvf_irq_pending c4) (hvf_fiq_pending c4)
                Hpush1 Hpush2) as Hp.
  rewrite <- Henv in Hp.
  eexists. split;
    [exact (hvf_vcpu_exec_enter_dirty bus_data (set_dirty true c1) c4 eq_refl Hput2)|].
  split; [reflexivity|]. split; [exact Hp|].
  destruct Hp as (_ & _ & _ & _ & _ & _ & _ & _ & Hq20 & Hq30 & _).
  split; [exact Hq20|exact Hq30].
Qed.

End Handlers.

Lemma handled_exception_push_misses_q30_witness :
  let exit := hvf_vcpu_exec_exit (fun _ _ _ => []) [] (fun _ => false)
                (fun e => e) Mem.hvf_accel_init in
  let c3 := final (hvf_vcpu_exec_enter (fun _ _ _ => []) (final (exit q_numbered_cpu))) in
  returned (exit q_numbered_cpu) = true
  /\ hvf_vcpu_dirty c3 = false
  /\ reg (hvf_fd c3) HV_REG_X0 = two64 - 1
  /\ simd_fp_reg (hvf_fd q_numbered_cpu) HV_SIMD_FP_REG_Q30 = 30
  /\ simd_fp_reg (hvf_fd c3) HV_SIMD_FP_REG_Q30 = 30
  /\ qreg (env c3) 30 = 20.
Proof.
  intros exit c3.
  assert (Hrun : exit q_numbered_cpu = Returned tt (final (exit q_numbered_cpu)))
    by (vm_compute; reflexivity).
  destruct (handled_exception_push_misses_q30 (fun _ _ _ => []) []
              (fun _ => false) (fun e => e) Mem.hvf_accel_init q_numbered_cpu
              (final (exit q_numbered_cpu)) eq_refl Hrun)
    as (c3' & Henter & Hclean & Hpush & Hq20 & Hq30).
  assert (Hc3 : c3' = c3) by (unfold c3; rewrite Henter; reflexivity).
  rewrite Hc3 in Hclean, Hq30.
  split; [rewrite Hrun; reflexivity|]. split; [exact Hclean|].
  split; [vm_compute; reflexivity|].
  split; [vm_compute; reflexivity|].
  split; [rewrite Hq30; vm_compute; reflexivity|].
  vm_compute. reflexivity.
Defined.

(** ** Fields of the syndrome *)

Lemma hsr_nonneg c : 0 <= hvf_vcpu_get_hsr c.
Proof. unfold hvf_vcpu_get_hsr. apply Z.mod_pos_bound. reflexivity. Qed.

Lemma esr_field_range esr w k :
  0 <= w -> 0 <= k ->
  0 <= Z.shiftr (Z.land esr (Z.shiftl (Z.ones w) k)) k < 2 ^ w.
Proof.
  intros Hw Hk.
  rewrite Z.shiftr_land, Z.shiftr_shiftl_l, Z.sub_diag, Z.shiftl_0_r, Z.land_ones
    by assumption.
  apply Z.mod_pos_bound. apply Z.pow_pos_nonneg; lia.
Qed.

(** A closed test of the dispatch is replaced by its value. *)
Ltac decide_test :=
  match goal with
  | |- context [if ?b then _ else _] =>
      let v := eval vm_compute in b in
      match v with
      | true => change b with true
      | false => change b with false
      end; cbv iota
  end.

(** The trap is dispatched on the class of the syndrome pulled with the
    exit. *)
Ltac dispatch Hget Hhsr Hec :=
  unfold hvf_handle_exception; unfold bind at 1; rewrite Hget; cbv beta iota;
  unfold bind at 1, get_exit_info; cbv beta iota zeta;
  match goal with
  | |- context [syndrome (hvf_vcpu_exit_info ?c1) mod 2 ^ 32] =>
      change (syndrome (hvf_vcpu_exit_info c1) mod 2 ^ 32)
        with (hvf_vcpu_get_hsr c1)
  end;
  rewrite Hhsr, Hec; repeat decide_test.

Section Exceptions.

Variable bus_data : list bus_event -> Z -> Z -> list Z.
Variable data_buf_uninit : list Z.
Variable arm_is_psci_call : CPUARMState -> bool.
Variable arm_handle_psci_call : CPUARMState -> CPUARMState.
Variable mem : Mem.hvf_mem.

Local Abbreviation handle_exception :=
  (hvf_handle_exception bus_data data_buf_uninit arm_is_psci_call
     arm_handle_psci_call mem).

(** After the handler of a trap has run on the pulled registers, the push
    and what the hardware context then holds. *)
Lemma exception_epilogue c c1 c2 (handler : M unit) :
  hvf_fd c1 = hvf_fd c -> pulled (hvf_fd c) (env c1) ->
  handler c1 = Returned tt c2 ->
  hvf_fd c2 = hvf_fd c1 -> handler_frame (env c1) (env c2) ->
  0 <= reg (hvf_fd c) HV_REG_FPSR < 2 ^ 32 ->
  0 <= reg (hvf_fd c) HV_REG_FPCR < 2 ^ 32 ->
  exists c', (handler;; hvf_put_registers;; ret tt) c1 = Returned tt c'
    /\ bus_log c' = bus_log c2
    /\ (forall i, (i < 31)%nat ->
          reg (hvf_fd c') (regno_to_hv_xreg i) = xreg (env c2) i)
    /\ reg (hvf_fd c') HV_REG_PC = pc (env c2)
    /\ reg (hvf_fd c') HV_REG_CPSR = reg (hvf_fd c) HV_REG_CPSR
    /\ reg (hvf_fd c') HV_REG_FPSR = reg (hvf_fd c) HV_REG_FPSR
    /\ reg (hvf_fd c') HV_REG_FPCR = reg (hvf_fd c) HV_REG_FPCR
    /\ (forall r, sys_reg (hvf_fd c') r = sys_reg (hvf_fd c) r)
    /\ (forall r, simd_fp_reg (hvf_fd c') r = simd_fp_reg (hvf_fd c) r).
Proof.
  intros Hfd Hpull Hh Hfd2 Hfr Hfs Hfc.
  destruct (hvf_put_registers_spec c2) as (c3 & Hput & _ & Hsame & Hpush).
  rewrite Hfd2, Hfd in Hpush.
  destruct (push_after_pull _ _ _ _ Hpull Hfr Hpush Hfs Hfc)
    as (Gx & Gpc & Gcpsr & Gfs & Gfc & Gsys & Gsimd & _).
  exists c3. split.
  - unfold bind. rewrite Hh, Hput. reflexivity.
  - split; [exact (proj2 (proj2 (proj2 (proj2 Hsame))))|].
    repeat (split; [assumption|]). assumption.
Qed.


Lemma get_hsr_frame c c1 : same_frame c c1 -> hvf_vcpu_get_hsr c1 = hvf_vcpu_get_hsr c.
Proof. intros (E & _). unfold hvf_vcpu_get_hsr. rewrite E. reflexivity. Qed.

Lemma xreg_insert e i j v :
  length (xregs e) = 32%nat -> (j < 32)%nat ->
  default 0 (<[j := v]> (xregs e) !! i) = if decide (i = j) then v else xreg e i.
Proof.
  intros Hl Hj. destruct (decide (i = j)) as [->|Hne].
  - rewrite list_lookup_insert_eq by lia. reflexivity.
  - rewrite list_lookup_insert_ne by (exact (not_eq_sym Hne)). reflexivity.
Qed.


Lemma sys64_rt_range esr : 0 <= sys64_rt esr < 32.
Proof. exact (esr_field_range esr 5 5 ltac:(lia) ltac:(lia)). Qed.

(** hvf_handle_sys_reg on an access to an OS lock register. *)
Lemma hvf_handle_sys_reg_os_lock c :
  os_lock_reg (sys64_reg (hvf_vcpu_get_hsr c)) = true ->
  exists c2, hvf_handle_sys_reg c = Returned tt c2
    /\ hvf_fd c2 = hvf_fd c /\ bus_log c2 = bus_log c
    /\ pc (env c2) = u64 (pc (env c) + 4)
    /\ xregs (env c2)
       = (if negb (sys64_is_write (hvf_vcpu_get_hsr c))
             && negb (sys64_rt (hvf_vcpu_get_hsr c) =? 31)
          then <[Z.to_nat (sys64_rt (hvf_vcpu_get_hsr c)) := 0]> (xregs (env c))
          else xregs (env c))
    /\ pstate (env c2) = pstate (env c)
    /\ fpsr (env c2) = fpsr (env c) /\ fpcr (env c2) = fpcr (env c)
    /\ field (env c2) = field (env c)
    /\ vfp_zregs (env c2) = vfp_zregs (env c).
Proof.
  intros Hsys. unfold hvf_handle_sys_reg. unfold bind at 1. cbv beta iota zeta.
  fold (sys64_reg (hvf_vcpu_get_hsr c)).
  fold (os_lock_reg (sys64_reg (hvf_vcpu_get_hsr c))). rewrite Hsys.
  fold (sys64_is_write (hvf_vcpu_get_hsr c)). fold (sys64_rt (hvf_vcpu_get_hsr c)).
  unfold hvf_write_rt.
  destruct (sys64_is_write (hvf_vcpu_get_hsr c));
    destruct (sys64_rt (hvf_vcpu_get_hsr c) =? 31);
    (eexists; split; [reflexivity|repeat split]).
Qed.

(** X18: a trapped access to an OS lock register (OSLAR_EL1, OSDLR_EL1) is
    handled as read-as-zero, write-ignored: hvf_handle_exception returns,
    the hardware PC has moved on by 4, a read has put 0 in its target
    register (nothing for target 31), a write has changed no register, and
    every other register of the hardware context is as it was. *)
Theorem hvf_handle_exception_os_lock c :
  length (xregs (env c)) = 32%nat -> length (vfp_zregs (env c)) = 32%nat ->
  Z.land (reg (hvf_fd c) HV_REG_CPSR) PSTATE_nRW = 0 ->
  0 <= reg (hvf_fd c) HV_REG_FPSR < 2 ^ 32 ->
  0 <= reg (hvf_fd c) HV_REG_FPCR < 2 ^ 32 ->
  ESR_ELx_EC (hvf_vcpu_get_hsr c) = ESR_ELx_EC_SYS64 ->
  os_lock_reg (sys64_reg (hvf_vcpu_get_hsr c)) = true ->
  exists c', handle_exception c = Returned tt c'
    /\ reg (hvf_fd c') HV_REG_PC = u64 (reg (hvf_fd c) HV_REG_PC + 4)
    /\ (forall i, (i < 31)%nat ->
          reg (hvf_fd c') (regno_to_hv_xreg i)
          = if negb (sys64_is_write (hvf_vcpu_get_hsr c))
               && (Z.of_nat i =? sys64_rt (hvf_vcpu_get_hsr c))
            then 0 else reg (hvf_fd c) (regno_to_hv_xreg i))
    /\ reg (hvf_fd c') HV_REG_CPSR = reg (hvf_fd c) HV_REG_CPSR
    /\ reg (hvf_fd c') HV_REG_FPSR = reg (hvf_fd c) HV_REG_FPSR
    /\ reg (hvf_fd c') HV_REG_FPCR = reg (hvf_fd c) HV_REG_FPCR
    /\ (forall r, sys_reg (hvf_fd c') r = sys_reg (hvf_fd c) r)
    /\ (forall r, simd_fp_reg (hvf_fd c') r = simd_fp_reg (hvf_fd c) r)
    /\ bus_log c' = bus_log c.
Proof.
  intros Hx Hz Hn Hfs Hfc Hec Hsys.
  destruct (hvf_get_registers_spec c Hx Hz Hn) as (c1 & Hget & Hfd & Hframe & Hpull).
  pose proof (get_hsr_frame c c1 Hframe) as Hhsr.
  pose proof Hpull as (Px & _ & Plx & Ppc & _).
  rewrite <- Hhsr in Hsys.
  destruct (hvf_handle_sys_reg_os_lock c1 Hsys)
    as (c2 & Hh & Hfd2 & Hlog2 & Epc & Exr & Eps & Efs & Efc & Efld & Ez).
  rewrite Hhsr in Exr.
  pose proof (sys64_rt_range (hvf_vcpu_get_hsr c)) as Hrt.
  set (rt := sys64_rt (hvf_vcpu_get_hsr c)) in *.
  set (w := sys64_is_write (hvf_vcpu_get_hsr c)) in *.
  assert (Hxi : forall i, (i < 32)%nat ->
            xreg (env c2) i
            = if negb w && negb (rt =? 31) && (Z.of_nat i =? rt)
              then 0 else xreg (env c1) i).
  { intros i Hi. unfold xreg at 1. rewrite Exr.
    destruct (negb w); cbn [andb negb]; [|reflexivity].
    destruct (Z.eqb_spec rt 31) as [E|E]; cbn [andb negb]; [reflexivity|].
    rewrite (xreg_insert (env c1) i (Z.to_nat rt) 0 Plx) by lia.
    destruct (decide (i = Z.to_nat rt)) as [->|Hne].
    - rewrite Z2Nat.id, Z.eqb_refl by lia. reflexivity.
    - destruct (Z.eqb_spec (Z.of_nat i) rt) as [E'|_]; [|reflexivity].
      exfalso. apply Hne. rewrite <- E'. rewrite Nat2Z.id. reflexivity. }
  assert (Hfr : handler_frame (env c1) (env c2)).
  { split; [|split; [exact Eps|split; [exact Efs|split; [exact Efc|split]]]].
    - rewrite (Hxi 31%nat) by lia.
      destruct (negb w); cbn [andb negb]; [|reflexivity].
      destruct (Z.eqb_spec rt 31) as [E|E]; cbn [andb negb]; [reflexivity|].
      destruct (Z.eqb_spec (Z.of_nat 31) rt) as [E'|_]; [|reflexivity].
      exfalso. apply E. rewrite <- E'. reflexivity.
    - intros f. rewrite Efld. reflexivity.
    - intros i. unfold qreg. rewrite Ez. reflexivity. }
  destruct (exception_epilogue c c1 c2 _ Hfd Hpull Hh Hfd2 Hfr Hfs Hfc)
    as (c3 & Hrun & Hlog & Gx & Gpc & Gcpsr & Gfs & Gfc & Gsys & Gsimd).
  assert (Hdisp : handle_exception c
                  = (hvf_handle_sys_reg;; hvf_put_registers;; ret tt) c1).
  { dispatch Hget Hhsr Hec. reflexivity. }
  exists c3. split; [rewrite Hdisp; exact Hrun|].
  split; [rewrite Gpc, Epc, Ppc; reflexivity|].
  split; [|repeat (split; [assumption|])].
  - intros i Hi. rewrite (Gx i Hi), (Hxi i) by lia. rewrite (Px i Hi).
    destruct (negb w); cbn [andb negb]; [|reflexivity].
    destruct (Z.eqb_spec rt 31) as [E|E]; cbn [andb negb]; [|reflexivity].
    destruct (Z.eqb_spec (Z.of_nat i) rt) as [E'|_]; [|reflexivity]. lia.
  - rewrite Hlog, Hlog2. exact (proj2 (proj2 (proj2 (proj2 Hframe)))).
Qed.

(** The pull aborts when the hardware reports AArch32 state. *)
Lemma hvf_get_registers_aarch32 c :
  Z.land (reg (hvf_fd c) HV_REG_CPSR) PSTATE_nRW <> 0 ->
  exists c', hvf_get_registers c = Aborted c'.
Proof.
  intros Hn. eexists. unfold hvf_get_registers. run_unit. run_unit. run_unit.
  rewrite bind_get_reg. cbv beta.
  match goal with
  | |- context [reg (hvf_fd ?s) HV_REG_CPSR] =>
      replace (reg (hvf_fd s) HV_REG_CPSR) with (reg (hvf_fd c) HV_REG_CPSR)
        by (vm_compute; reflexivity)
  end.
  destruct (Z.eqb_spec (Z.land (reg (hvf_fd c) HV_REG_CPSR) PSTATE_nRW) 0)
    as [E|_]; [contradiction|].
  reflexivity.
Qed.

(** X19: hvf_handle_exception never returns from a trap whose class has no
    working handler (coprocessor access, secure monitor call, breakpoint,
    watchpoint, single step and every class not listed in the switch), nor
    from a trapped access to a system register other than the OS lock
    registers: the process is aborted. *)
Theorem hvf_handle_exception_unhandled c :
  length (xregs (env c)) = 32%nat -> length (vfp_zregs (env c)) = 32%nat ->
  handled_class (ESR_ELx_EC (hvf_vcpu_get_hsr c)) = false
  \/ (ESR_ELx_EC (hvf_vcpu_get_hsr c) = ESR_ELx_EC_SYS64
      /\ os_lock_reg (sys64_reg (hvf_vcpu_get_hsr c)) = false) ->
  exists c', handle_exception c = Aborted c'.
Proof.
  intros Hx Hz Hcls.
  destruct (Z.eq_dec (Z.land (reg (hvf_fd c) HV_REG_CPSR) PSTATE_nRW) 0)
    as [Hn|Hn].
  2:{ destruct (hvf_get_registers_aarch32 c Hn) as (c' & Hget). exists c'.
      unfold hvf_handle_exception. unfold bind at 1. rewrite Hget. reflexivity. }
  destruct (hvf_get_registers_spec c Hx Hz Hn) as (c1 & Hget & Hfd & Hframe & Hpull).
  pose proof (get_hsr_frame c c1 Hframe) as Hhsr.
  destruct Hcls as [Hcls|[Hec Hsys]].
  - unfold handled_class in Hcls.
    apply orb_false_iff in Hcls as [Hcls H4].
    apply orb_false_iff in Hcls as [Hcls H3].
    apply orb_false_iff in Hcls as [H1 H2].
    set (ec := ESR_ELx_EC (hvf_vcpu_get_hsr c)) in *.
    unfold hvf_handle_exception. unfold bind at 1. rewrite Hget. cbv beta iota.
    unfold bind at 1, get_exit_info. cbv beta iota zeta.
    change (syndrome (hvf_vcpu_exit_info c1) mod 2 ^ 32)
      with (hvf_vcpu_get_hsr c1).
    rewrite Hhsr. fold ec. rewrite H1, H2, H3, H4.
    destruct (ec_in ec [ESR_ELx_EC_CP15_32; ESR_ELx_EC_CP15_64; ESR_ELx_EC_CP14_MR;
                        ESR_ELx_EC_CP14_LS; ESR_ELx_EC_CP14_64]);
      [eexists; reflexivity|].
    destruct (ec_in ec [ESR_ELx_EC_SMC32; ESR_ELx_EC_SMC64]);
      [eexists; reflexivity|].
    destruct (ec_in ec [ESR_ELx_EC_SOFTSTP_LOW; ESR_ELx_EC_WATCHPT_LOW;
                        ESR_ELx_EC_BREAKPT_LOW; ESR_ELx_EC_BKPT32;
                        ESR_ELx_EC_BRK64]);
      [eexists; reflexivity|].
    pose proof Hpull as (_ & _ & Plx & _ & _ & _ & _ & _ & _ & Plz).
    assert (Hn1 : Z.land (reg (hvf_fd c1) HV_REG_CPSR) PSTATE_nRW = 0)
      by (rewrite Hfd; exact Hn).
    destruct (hvf_get_registers_spec c1 Plx Plz Hn1) as (c2 & Hget2 & _).
    destruct (hvf_put_registers_returns c2) as (c3 & Hput).
    exists c3. unfold bind. rewrite Hget2, Hput. reflexivity.
  - unfold hvf_handle_exception. unfold bind at 1. rewrite Hget. cbv beta iota.
    unfold bind at 1, get_exit_info. cbv beta iota zeta.
    change (syndrome (hvf_vcpu_exit_info c1) mod 2 ^ 32)
      with (hvf_vcpu_get_hsr c1).
    rewrite Hhsr, Hec. repeat decide_test.
    unfold bind at 1, hvf_handle_sys_reg. unfold bind at 1. cbv beta iota zeta.
    rewrite Hhsr. fold (sys64_reg (hvf_vcpu_get_hsr c)).
    fold (os_lock_reg (sys64_reg (hvf_vcpu_get_hsr c))). rewrite Hsys.
    eexists. reflexivity.
Qed.

End Exceptions.

(** ** Little-endian bytes *)

Lemma Z_to_le_mod n : forall v, Z_to_le n (v mod 256 ^ Z.of_nat n) = Z_to_le n v.
Proof.
  induction n as [|n IH]; intros v; [reflexivity|].
  rewrite Nat2Z.inj_succ, Z.pow_succ_r by lia.
  assert (Hpos : 0 < 256 ^ Z.of_nat n) by (apply Z.pow_pos_nonneg; lia).
  rewrite Z.rem_mul_r by lia. simpl Z_to_le. f_equal.
  - rewrite Z.mul_comm, Z.mod_add by lia. apply Z.mod_mod. lia.
  - rewrite Z.mul_comm, Z.div_add by lia.
    rewrite (Z.div_small (v mod 256)) by (apply Z.mod_pos_bound; lia).
    rewrite Z.add_0_l. apply IH.
Qed.

Lemma Z_to_le_land n v :
  Z_to_le n (Z.land v (Z.ones (8 * Z.of_nat n))) = Z_to_le n v.
Proof.
  rewrite Z.land_ones by lia. rewrite Z.pow_mul_r by lia.
  change (2 ^ 8) with 256. apply Z_to_le_mod.
Qed.

(** ** Fields of the syndrome of a data abort *)

Lemma hvf_vcpu_dabt_get_as_cases c :
  hvf_vcpu_dabt_get_as c = 1 \/ hvf_vcpu_dabt_get_as c = 2
  \/ hvf_vcpu_dabt_get_as c = 4 \/ hvf_vcpu_dabt_get_as c = 8.
Proof.
  unfold hvf_vcpu_dabt_get_as.
  pose proof (esr_field_range (hvf_vcpu_get_hsr c) 2 22 ltac:(lia) ltac:(lia)) as H.
  change (Z.shiftl (Z.ones 2) 22) with ESR_ELx_SAS in H.
  change 22 with ESR_ELx_SAS_SHIFT in H.
  set (k := Z.shiftr (Z.land (hvf_vcpu_get_hsr c) ESR_ELx_SAS) ESR_ELx_SAS_SHIFT)
    in *.
  change (2 ^ 2) with 4 in H.
  assert (Hk : k = 0 \/ k = 1 \/ k = 2 \/ k = 3) by lia.
  destruct Hk as [->|[->|[->| ->]]]; [left|right; left|right; right; left|
    right; right; right]; reflexivity.
Qed.

Lemma hvf_vcpu_dabt_get_rd_range c : 0 <= hvf_vcpu_dabt_get_rd c < 32.
Proof. exact (esr_field_range (hvf_vcpu_get_hsr c) 5 16 ltac:(lia) ltac:(lia)). Qed.

Section Mmio.

Variable bus_data : list bus_event -> Z -> Z -> list Z.
Variable data_buf_uninit : list Z.
Variable arm_is_psci_call : CPUARMState -> bool.
Variable arm_handle_psci_call : CPUARMState -> CPUARMState.
Variable mem : Mem.hvf_mem.

Local Abbreviation handle_exception :=
  (hvf_handle_exception bus_data data_buf_uninit arm_is_psci_call
     arm_handle_psci_call mem).
Local Abbreviation handle_guest_abort :=
  (hvf_handle_guest_abort bus_data data_buf_uninit mem).
Local Abbreviation handle_mmio := (hvf_handle_mmio bus_data data_buf_uninit).

Local Abbreviation skipped c := (with_env (fun e => set_pc (u64 (pc e + 4)) e) c).

(** A device access is handed to hvf_handle_mmio. *)
Lemma hvf_handle_guest_abort_mmio ec c :
  mmio_abort mem ec c -> handle_guest_abort ec c = handle_mmio c.
Proof.
  intros (Hfsc & Hslot & Hec & Hcm & _).
  unfold hvf_handle_guest_abort. unfold bind at 1, get_exit_info.
  cbv beta iota zeta.
  change (syndrome (hvf_vcpu_exit_info c) mod 2 ^ 32) with (hvf_vcpu_get_hsr c).
  rewrite Hslot, Hcm.
  destruct (Z.eqb_spec ESR_ELx_FSC_ACCESS
              (Z.land (hvf_vcpu_get_hsr c) ESR_ELx_FSC_TYPE)) as [E|_];
    [symmetry in E; contradiction|].
  destruct (Z.eqb_spec ESR_ELx_EC_IABT_LOW ec) as [E|_];
    [symmetry in E; contradiction|].
  reflexivity.
Qed.

(** hvf_handle_mmio after the syndrome has been decoded. *)
Lemma hvf_handle_mmio_decoded c :
  Z.land (hvf_vcpu_get_hsr c) ESR_ELx_ISV <> 0 ->
  Z.land ESR_ELx_EA (hvf_vcpu_get_hsr c) = 0 ->
  Z.land ESR_ELx_S1PTW (hvf_vcpu_get_hsr c) = 0 ->
  handle_mmio c =
  let gpa := physical_address (hvf_vcpu_exit_info c) in
  let len := hvf_vcpu_dabt_get_as c in
  let rt := hvf_vcpu_dabt_get_rd c in
  if negb (Z.land (hvf_vcpu_get_hsr c) ESR_ELx_WNR =? 0)
  then
    let guest_reg_val := hvf_read_rt c rt in
    let data :=
      if len =? 1 then Z.land guest_reg_val 0xff
      else if len =? 2 then Z.land guest_reg_val 0xffff
      else if len =? 4 then Z.land guest_reg_val 0xffffffff
      else guest_reg_val in
    Returned tt (log_bus (bus_write gpa len (Z_to_le (Z.to_nat len) data))
                   (skipped c))
  else
    let bytes := take (Z.to_nat len) (bus_data (bus_log c) gpa len) in
    let val := le_to_Z (take 8 (store_bytes bytes data_buf_uninit)) in
    hvf_write_rt rt (if len =? 1 then Z.land val 0xff else val)
      (log_bus (bus_read gpa len) (skipped c)).
Proof.
  intros Hisv Hea Hptw.
  unfold hvf_handle_mmio, get_exit_info. unfold bind at 1.
  fold (hvf_vcpu_get_hsr c).
  destruct (Z.eqb_spec (Z.land (hvf_vcpu_get_hsr c) ESR_ELx_ISV) 0) as [E|_];
    [contradiction|].
  change (negb (negb false)) with false. cbv iota.
  unfold bind at 1. rewrite (hvf_decode_hsr_ok c Hea Hptw). cbv beta iota zeta.
  destruct (negb (Z.land (hvf_vcpu_get_hsr c) ESR_ELx_WNR =? 0)).
  - reflexivity.
  - unfold bind at 1, address_space_read.
    destruct (hvf_vcpu_dabt_get_as c =? 1);
      [|destruct (hvf_vcpu_dabt_get_as c =? 2);
        [|destruct (hvf_vcpu_dabt_get_as c =? 4)]]; reflexivity.
Qed.


(** X21: a handled device write puts on the bus exactly one write of the
    access size at the faulting address, carrying the low bytes of the
    hardware source register in little-endian order (zeros for register 31);
    afterwards the hardware PC has moved on by 4 and every other register of
    the hardware context is as it was. *)
Theorem hvf_handle_exception_mmio_write c :
  length (xregs (env c)) = 32%nat -> length (vfp_zregs (env c)) = 32%nat ->
  Z.land (reg (hvf_fd c) HV_REG_CPSR) PSTATE_nRW = 0 ->
  0 <= reg (hvf_fd c) HV_REG_FPSR < 2 ^ 32 ->
  0 <= reg (hvf_fd c) HV_REG_FPCR < 2 ^ 32 ->
  ESR_ELx_EC (hvf_vcpu_get_hsr c) = ESR_ELx_EC_DABT_LOW ->
  mmio_abort mem ESR_ELx_EC_DABT_LOW c ->
  Z.land (hvf_vcpu_get_hsr c) ESR_ELx_WNR <> 0 ->
  exists c', handle_exception c = Returned tt c'
    /\ bus_log c' = bus_log c
         ++ [bus_write (physical_address (hvf_vcpu_exit_info c))
               (hvf_vcpu_dabt_get_as c)
               (Z_to_le (Z.to_nat (hvf_vcpu_dabt_get_as c))
                  (if hvf_vcpu_dabt_get_rd c =? 31 then 0
                   else reg (hvf_fd c)
                          (regno_to_hv_xreg (Z.to_nat (hvf_vcpu_dabt_get_rd c)))))]
    /\ reg (hvf_fd c') HV_REG_PC = u64 (reg (hvf_fd c) HV_REG_PC + 4)
    /\ (forall r, r <> HV_REG_PC -> reg (hvf_fd c') r = reg (hvf_fd c) r)
    /\ (forall r, sys_reg (hvf_fd c') r = sys_reg (hvf_fd c) r)
    /\ (forall r, simd_fp_reg (hvf_fd c') r = simd_fp_reg (hvf_fd c) r).
Proof.
  intros Hx Hz Hn Hfs Hfc Hec Hm Hwnr.
  destruct (hvf_get_registers_spec c Hx Hz Hn) as (c1 & Hget & Hfd & Hframe & Hpull).
  pose proof (get_hsr_frame c c1 Hframe) as Hhsr.
  pose proof Hframe as (Hinfo & _ & _ & _ & Hlog1).
  pose proof Hpull as (Px & _ & Plx & Ppc & _).
  assert (Hm1 : mmio_abort mem ESR_ELx_EC_DABT_LOW c1).
  { unfold mmio_abort in *. rewrite Hhsr, Hinfo. exact Hm. }
  pose proof Hm1 as (_ & _ & _ & _ & Hisv & Hea & Hptw).
  assert (Has : hvf_vcpu_dabt_get_as c1 = hvf_vcpu_dabt_get_as c)
    by (unfold hvf_vcpu_dabt_get_as; rewrite Hhsr; reflexivity).
  assert (Hrd : hvf_vcpu_dabt_get_rd c1 = hvf_vcpu_dabt_get_rd c)
    by (unfold hvf_vcpu_dabt_get_rd; rewrite Hhsr; reflexivity).
  pose proof (hvf_vcpu_dabt_get_rd_range c) as Hrt.
  set (rt := hvf_vcpu_dabt_get_rd c) in *.
  set (len := hvf_vcpu_dabt_get_as c) in *.
  set (gpa := physical_address (hvf_vcpu_exit_info c)) in *.
  set (v := if rt =? 31 then 0 else reg (hvf_fd c) (regno_to_hv_xreg (Z.to_nat rt))).
  set (c2 := log_bus (bus_write gpa len (Z_to_le (Z.to_nat len) v)) (skipped c1)).
  assert (Hh : handle_guest_abort ESR_ELx_EC_DABT_LOW c1 = Returned tt c2).
  { rewrite (hvf_handle_guest_abort_mmio _ c1 Hm1).
    rewrite (hvf_handle_mmio_decoded c1 Hisv Hea Hptw). cbv zeta.
    rewrite Hhsr, Has, Hrd, Hinfo. fold len rt gpa.
    destruct (Z.eqb_spec (Z.land (hvf_vcpu_get_hsr c) ESR_ELx_WNR) 0) as [E|_];
      [contradiction|].
    cbn [negb]. unfold c2. do 3 f_equal.
    assert (Hv : hvf_read_rt c1 rt = v).
    { unfold hvf_read_rt, v. destruct (Z.eqb_spec rt 31) as [E|E]; [reflexivity|].
      apply Px. lia. }
    rewrite Hv.
    destruct (hvf_vcpu_dabt_get_as_cases c) as [E|[E|[E|E]]]; fold len in E;
      rewrite E.
    - exact (Z_to_le_land 1 v).
    - exact (Z_to_le_land 2 v).
    - exact (Z_to_le_land 4 v).
    - reflexivity. }
  assert (Hfr : handler_frame (env c1) (env c2)) by (repeat split).
  destruct (exception_epilogue c c1 c2 _ Hfd Hpull Hh eq_refl Hfr Hfs Hfc)
    as (c3 & Hrun & Hlog & Gx & Gpc & Gcpsr & Gfs & Gfc & Gsys & Gsimd).
  assert (Hdisp : handle_exception c
                  = (handle_guest_abort ESR_ELx_EC_DABT_LOW;;
                     hvf_put_registers;; ret tt) c1).
  { dispatch Hget Hhsr Hec. reflexivity. }
  exists c3. split; [rewrite Hdisp; exact Hrun|].
  assert (Hlog2 : bus_log c2
                  = bus_log c1 ++ [bus_write gpa len (Z_to_le (Z.to_nat len) v)])
    by reflexivity.
  assert (Hpc2 : pc (env c2) = u64 (pc (env c1) + 4)) by reflexivity.
  split; [rewrite Hlog, Hlog2, Hlog1; reflexivity|].
  split; [rewrite Gpc, Hpc2, Ppc; reflexivity|].
  split; [|split; assumption].
  intros r Hr.
  destruct (hv_reg_cases r) as [(i & Hi & ->)|[->|[->|[->| ->]]]];
    try assumption.
  - rewrite (Gx i Hi). exact (Px i Hi).
  - contradiction Hr. reflexivity.
Qed.

(** The value a device read of one or eight bytes hands to the register:
    what the bus delivered, whatever the scratch buffer held before. *)
Lemma mmio_read_value len bytes buf :
  len = 1 \/ len = 8 -> length bytes = Z.to_nat len ->
  Forall (fun b => 0 <= b < 256) bytes ->
  (if len =? 1 then Z.land (le_to_Z (take 8 (store_bytes bytes buf))) 0xff
   else le_to_Z (take 8 (store_bytes bytes buf)))
  = le_to_Z bytes.
Proof.
  intros [-> | ->] Hlen Hb.
  - change (Z.to_nat 1) with 1%nat in Hlen.
    destruct bytes as [|b [|]]; try discriminate.
    apply Forall_cons in Hb as [Hb _].
    change (1 =? 1) with true. cbv iota. unfold store_bytes.
    change (take 8 ([b] ++ drop (length [b]) buf))
      with (b :: take 7 (drop 1 buf)).
    change 0xff with (Z.ones 8). rewrite Z.land_ones by lia.
    change (2 ^ 8) with 256.
    change (le_to_Z (b :: take 7 (drop 1 buf)))
      with (b + 256 * le_to_Z (take 7 (drop 1 buf))).
    change (le_to_Z [b]) with (b + 256 * 0).
    rewrite Z.mul_comm, Z.mod_add by lia. rewrite Z.mod_small by exact Hb. lia.
  - change (Z.to_nat 8) with 8%nat in Hlen.
    change (8 =? 1) with false. cbv iota. unfold store_bytes.
    rewrite (take_app_length' bytes _ 8) by (symmetry; exact Hlen). reflexivity.
Qed.

Lemma hvf_write_rt_spec rt val s :
  0 <= rt < 32 -> length (xregs (env s)) = 32%nat ->
  exists s', hvf_write_rt rt val s = Returned tt s'
    /\ hvf_fd s' = hvf_fd s /\ bus_log s' = bus_log s
    /\ pc (env s') = pc (env s) /\ pstate (env s') = pstate (env s)
    /\ fpsr (env s') = fpsr (env s) /\ fpcr (env s') = fpcr (env s)
    /\ field (env s') = field (env s)
    /\ vfp_zregs (env s') = vfp_zregs (env s)
    /\ (forall i, (i < 32)%nat ->
          xreg (env s') i
          = if (Z.of_nat i =? rt) && negb (rt =? 31) then val
            else xreg (env s) i).
Proof.
  intros Hrt Hl. unfold hvf_write_rt.
  destruct (Z.eqb_spec rt 31) as [E|E]; cbn [negb].
  - eexists. split; [reflexivity|]. repeat (split; [reflexivity|]).
    intros i Hi. rewrite andb_false_r. reflexivity.
  - eexists. split; [reflexivity|]. repeat (split; [reflexivity|]).
    intros i Hi. rewrite andb_true_r.
    change (default 0 (<[Z.to_nat rt := val]> (xregs (env s)) !! i)
            = if Z.of_nat i =? rt then val else xreg (env s) i).
    rewrite (xreg_insert (env s) i (Z.to_nat rt) val Hl) by lia.
    destruct (decide (i = Z.to_nat rt)) as [->|Hne].
    + rewrite Z2Nat.id, Z.eqb_refl by lia. reflexivity.
    + destruct (Z.eqb_spec (Z.of_nat i) rt) as [E'|_]; [|reflexivity].
      exfalso. apply Hne. rewrite <- E', Nat2Z.id. reflexivity.
Qed.

(** X22: a handled device read of one or of eight bytes, for which the bus
    delivers that many bytes, leaves in the hardware target register the
    little-endian value of exactly those bytes, zero-extended, whatever the
    scratch buffer held (nothing is written for target 31); the bus has seen
    one read of the access size at the faulting address, the hardware PC has
    moved on by 4, and every other register is as it was. *)
Theorem hvf_handle_exception_mmio_read c :
  length (xregs (env c)) = 32%nat -> length (vfp_zregs (env c)) = 32%nat ->
  Z.land (reg (hvf_fd c) HV_REG_CPSR) PSTATE_nRW = 0 ->
  0 <= reg (hvf_fd c) HV_REG_FPSR < 2 ^ 32 ->
  0 <= reg (hvf_fd c) HV_REG_FPCR < 2 ^ 32 ->
  ESR_ELx_EC (hvf_vcpu_get_hsr c) = ESR_ELx_EC_DABT_LOW ->
  mmio_abort mem ESR_ELx_EC_DABT_LOW c ->
  Z.land (hvf_vcpu_get_hsr c) ESR_ELx_WNR = 0 ->
  hvf_vcpu_dabt_get_as c = 1 \/ hvf_vcpu_dabt_get_as c = 8 ->
  let bytes := take (Z.to_nat (hvf_vcpu_dabt_get_as c))
                 (bus_data (bus_log c) (physical_address (hvf_vcpu_exit_info c))
                    (hvf_vcpu_dabt_get_as c)) in
  length bytes = Z.to_nat (hvf_vcpu_dabt_get_as c) ->
  Forall (fun b => 0 <= b < 256) bytes ->
  exists c', handle_exception c = Returned tt c'
    /\ bus_log c' = bus_log c
         ++ [bus_read (physical_address (hvf_vcpu_exit_info c))
               (hvf_vcpu_dabt_get_as c)]
    /\ reg (hvf_fd c') HV_REG_PC = u64 (reg (hvf_fd c) HV_REG_PC + 4)
    /\ (forall i, (i < 31)%nat ->
          reg (hvf_fd c') (regno_to_hv_xreg i)
          = if Z.of_nat i =? hvf_vcpu_dabt_get_rd c then le_to_Z bytes
            else reg (hvf_fd c) (regno_to_hv_xreg i))
    /\ reg (hvf_fd c') HV_REG_CPSR = reg (hvf_fd c) HV_REG_CPSR
    /\ reg (hvf_fd c') HV_REG_FPSR = reg (hvf_fd c) HV_REG_FPSR
    /\ reg (hvf_fd c') HV_REG_FPCR = reg (hvf_fd c) HV_REG_FPCR
    /\ (forall r, sys_reg (hvf_fd c') r = sys_reg (hvf_fd c) r)
    /\ (forall r, simd_fp_reg (hvf_fd c') r = simd_fp_reg (hvf_fd c) r).
Proof.
  intros Hx Hz Hn Hfs Hfc Hec Hm Hwnr Hsize bytes Hlen Hbytes.
  destruct (hvf_get_registers_spec c Hx Hz Hn) as (c1 & Hget & Hfd & Hframe & Hpull).
  pose proof (get_hsr_frame c c1 Hframe) as Hhsr.
  pose proof Hframe as (Hinfo & _ & _ & _ & Hlog1).
  pose proof Hpull as (Px & _ & Plx & Ppc & _).
  assert (Hm1 : mmio_abort mem ESR_ELx_EC_DABT_LOW c1).
  { unfold mmio_abort in *. rewrite Hhsr, Hinfo. exact Hm. }
  pose proof Hm1 as (_ & _ & _ & _ & Hisv & Hea & Hptw).
  assert (Has : hvf_vcpu_dabt_get_as c1 = hvf_vcpu_dabt_get_as c)
    by (unfold hvf_vcpu_dabt_get_as; rewrite Hhsr; reflexivity).
  assert (Hrd : hvf_vcpu_dabt_get_rd c1 = hvf_vcpu_dabt_get_rd c)
    by (unfold hvf_vcpu_dabt_get_rd; rewrite Hhsr; reflexivity).
  pose proof (hvf_vcpu_dabt_get_rd_range c) as Hrt.
  set (rt := hvf_vcpu_dabt_get_rd c) in *.
  set (len := hvf_vcpu_dabt_get_as c) in *.
  set (gpa := physical_address (hvf_vcpu_exit_info c)) in *.
  set (s := log_bus (bus_read gpa len) (skipped c1)).
  destruct (hvf_write_rt_spec rt (le_to_Z bytes) s Hrt Plx)
    as (c2 & Hw & Hfd2 & Hlog2 & Epc & Eps & Efs & Efc & Efld & Ez & Exi).
  assert (Hh : handle_guest_abort ESR_ELx_EC_DABT_LOW c1 = Returned tt c2).
  { rewrite (hvf_handle_guest_abort_mmio _ c1 Hm1).
    rewrite (hvf_handle_mmio_decoded c1 Hisv Hea Hptw). cbv zeta.
    rewrite Hhsr, Has, Hrd, Hinfo, Hlog1, Hwnr. fold len rt gpa bytes.
    change (negb (0 =? 0)) with false. cbv iota.
    rewrite (mmio_read_value len bytes data_buf_uninit Hsize Hlen Hbytes).
    exact Hw. }
  assert (Hfr : handler_frame (env c1) (env c2)).
  { split; [|split; [exact Eps|split; [exact Efs|split; [exact Efc|split]]]].
    - rewrite (Exi 31%nat) by lia.
      destruct (Z.eqb_spec (Z.of_nat 31) rt) as [E|_]; [|reflexivity].
      destruct (Z.eqb_spec rt 31) as [_|E']; [reflexivity|].
      exfalso. apply E'. rewrite <- E. reflexivity.
    - intros f. rewrite Efld. reflexivity.
    - intros i. unfold qreg. rewrite Ez. reflexivity. }
  destruct (exception_epilogue c c1 c2 _ Hfd Hpull Hh Hfd2 Hfr Hfs Hfc)
    as (c3 & Hrun & Hlog & Gx & Gpc & Gcpsr & Gfs & Gfc & Gsys & Gsimd).
  assert (Hdisp : handle_exception c
                  = (handle_guest_abort ESR_ELx_EC_DABT_LOW;;
                     hvf_put_registers;; ret tt) c1).
  { dispatch Hget Hhsr Hec. reflexivity. }
  assert (Hlogs : bus_log s = bus_log c1 ++ [bus_read gpa len]) by reflexivity.
  assert (Hpcs : pc (env s) = u64 (pc (env c1) + 4)) by reflexivity.
  assert (Hxs : forall i, xreg (env s) i = xreg (env c1) i) by reflexivity.
  exists c3. split; [rewrite Hdisp; exact Hrun|].
  split; [rewrite Hlog, Hlog2, Hlogs, Hlog1; reflexivity|].
  split; [rewrite Gpc, Epc, Hpcs, Ppc; reflexivity|].
  split; [|repeat (split; [assumption|]); assumption].
  intros i Hi. rewrite (Gx i Hi), (Exi i) by lia. rewrite Hxs, (Px i Hi).
  destruct (Z.eqb_spec (Z.of_nat i) rt) as [E|_]; [|reflexivity].
  destruct (Z.eqb_spec rt 31) as [E'|_]; [lia|reflexivity].
Qed.

End Mmio.

Lemma hvf_cpu_synchronize_state_dirty c :
  hvf_vcpu_dirty c = true -> hvf_cpu_synchronize_state c = Returned tt c.
Proof.
  intros Hd. unfold hvf_cpu_synchronize_state, bind. rewrite Hd. reflexivity.
Qed.

Lemma hvf_cpu_synchronize_state_clean c :
  hvf_vcpu_dirty c = false ->
  hvf_cpu_synchronize_state c
  = match hvf_get_registers c with
    | Returned _ c1 => Returned tt (set_dirty true c1)
    | Aborted c1 => Aborted c1
    end.
Proof.
  intros Hd. unfold hvf_cpu_synchronize_state. unfold bind at 1. rewrite Hd.
  cbn [negb]. unfold __hvf_cpu_synchronize_state.
  unfold bind at 1. unfold bind at 1. rewrite Hd. cbn [negb].
  unfold bind at 1. destruct (hvf_get_registers c); reflexivity.
Qed.

(** X23: a second hvf_cpu_synchronize_state never overwrites what the
    emulator changed after the first: for every state and every change [f]
    of the register file, synchronising, changing and synchronising again
    ends exactly like synchronising and changing. *)
Theorem hvf_cpu_synchronize_state_once c (f : CPUARMState -> CPUARMState) :
  (hvf_cpu_synchronize_state;; modify_env f;; hvf_cpu_synchronize_state) c
  = (hvf_cpu_synchronize_state;; modify_env f) c.
Proof.
  unfold bind, modify_env. destruct (hvf_vcpu_dirty c) eqn:Hd.
  - rewrite (hvf_cpu_synchronize_state_dirty c Hd).
    rewrite (hvf_cpu_synchronize_state_dirty (with_env f c) Hd). reflexivity.
  - rewrite (hvf_cpu_synchronize_state_clean c Hd).
    destruct (hvf_get_registers c) as [r c1|c1]; [|reflexivity].
    rewrite (hvf_cpu_synchronize_state_dirty (with_env f (set_dirty true c1))
               eq_refl).
    reflexivity.
Qed.

Section Entry.

Variable bus_data : list bus_event -> Z -> Z -> list Z.

Local Abbreviation exec_enter := (hvf_vcpu_exec_enter bus_data).

(** Entering the hardware with the dirty flag clear: no push. *)
Lemma hvf_vcpu_exec_enter_clean c :
  hvf_vcpu_dirty c = false ->
  exec_enter c
  = Returned tt
      (log_bus (bus_read (reg (hvf_fd c) HV_REG_PC) 8)
         (with_fd (set_pending (hvf_irq_pending c) (hvf_fiq_pending c)) c)).
Proof.
  intros Hd. unfold hvf_vcpu_exec_enter.
  unfold bind at 1. unfold bind at 1. rewrite Hd. reflexivity.
Qed.

(** X24: the dirty-flag protocol carries an edit of the emulator to the
    hardware.  From a clean vCPU in AArch64 state, after
    hvf_cpu_synchronize_state, an edit of general register i and of the
    program counter, and the entry sequence of the run loop, the hardware
    holds the edited values in X_i and PC, every other register of the
    hardware context is as it was, and the flag is clear again. *)
Theorem synchronize_edit_enter c i v p :
  length (xregs (env c)) = 32%nat -> length (vfp_zregs (env c)) = 32%nat ->
  Z.land (reg (hvf_fd c) HV_REG_CPSR) PSTATE_nRW = 0 ->
  0 <= reg (hvf_fd c) HV_REG_FPSR < 2 ^ 32 ->
  0 <= reg (hvf_fd c) HV_REG_FPCR < 2 ^ 32 ->
  hvf_vcpu_dirty c = false -> (i < 31)%nat ->
  exists c',
    (hvf_cpu_synchronize_state;; modify_env (edit_registers i v p);; exec_enter) c
    = Returned tt c'
    /\ hvf_vcpu_dirty c' = false
    /\ reg (hvf_fd c') HV_REG_PC = p
    /\ reg (hvf_fd c') (regno_to_hv_xreg i) = v
    /\ (forall j, (j < 31)%nat -> j <> i ->
          reg (hvf_fd c') (regno_to_hv_xreg j) = reg (hvf_fd c) (regno_to_hv_xreg j))
    /\ reg (hvf_fd c') HV_REG_CPSR = reg (hvf_fd c) HV_REG_CPSR
    /\ reg (hvf_fd c') HV_REG_FPSR = reg (hvf_fd c) HV_REG_FPSR
    /\ reg (hvf_fd c') HV_REG_FPCR = reg (hvf_fd c) HV_REG_FPCR
    /\ (forall r, sys_reg (hvf_fd c') r = sys_reg (hvf_fd c) r)
    /\ (forall r, simd_fp_reg (hvf_fd c') r = simd_fp_reg (hvf_fd c) r).
Proof.
  intros Hx Hz Hn Hfs Hfc Hd Hi.
  destruct (hvf_get_registers_spec c Hx Hz Hn) as (c1 & Hget & Hfd & Hframe & Hpull).
  pose proof Hpull as (Px & _ & Plx & _).
  set (c2 := with_env (edit_registers i v p) (set_dirty true c1)).
  assert (Hxi : forall j, xreg (env c2) j
                          = if decide (j = i) then v else xreg (env c1) j).
  { intros j.
    change (default 0 (<[i := v]> (xregs (env c1)) !! j)
            = if decide (j = i) then v else xreg (env c1) j).
    apply xreg_insert; [exact Plx|lia]. }
  assert (Hfr : handler_frame (env c1) (env c2)).
  { split; [|repeat split]. rewrite Hxi.
    destruct (decide (31%nat = i)) as [E|_]; [lia|reflexivity]. }
  destruct (hvf_put_registers_spec c2) as (c3 & Hput & _ & Hsame & Hpush).
  change (hvf_fd c2) with (hvf_fd c1) in Hpush. rewrite Hfd in Hpush.
  destruct (push_after_pull _ _ _ _ Hpull Hfr Hpush Hfs Hfc)
    as (Gx & Gpc & Gcpsr & Gfs & Gfc & Gsys & Gsimd & _).
  set (c4 := log_bus (bus_read (reg (hvf_fd c3) HV_REG_PC) 8)
               (with_fd (set_pending (hvf_irq_pending c3) (hvf_fiq_pending c3))
                  (set_dirty false c3))).
  assert (Hreg : reg (hvf_fd c4) = reg (hvf_fd c3)) by reflexivity.
  assert (Hsys : sys_reg (hvf_fd c4) = sys_reg (hvf_fd c3)) by reflexivity.
  assert (Hsimd : simd_fp_reg (hvf_fd c4) = simd_fp_reg (hvf_fd c3))
    by reflexivity.
  exists c4. rewrite Hreg, Hsys, Hsimd. split.
  - unfold bind at 1. rewrite (hvf_cpu_synchronize_state_clean c Hd), Hget.
    unfold bind at 1, modify_env. fold c2.
    exact (hvf_vcpu_exec_enter_dirty bus_data c2 c3 eq_refl Hput).
  - split; [reflexivity|]. split; [exact Gpc|].
    split; [rewrite (Gx i Hi), Hxi; destruct (decide (i = i)); [reflexivity|
             contradiction]|].
    split; [|repeat (split; [assumption|]); assumption].
    intros j Hj Hne. rewrite (Gx j Hj), Hxi.
    destruct (decide (j = i)); [contradiction|]. exact (Px j Hj).
Qed.

(** X25: an edit of the emulator's register file that is not announced
    through hvf_cpu_synchronize_state does not reach the hardware: after
    hvf_cpu_synchronize_post_init the flag is clear, and the entry sequence
    of the run loop enters the hardware with the general registers and the
    program counter that were pushed before the edit. *)
Theorem post_init_edit_enter c i v p :
  exists c',
    (hvf_cpu_synchronize_post_init;; modify_env (edit_registers i v p);;
     exec_enter) c = Returned tt c'
    /\ hvf_vcpu_dirty c' = false
    /\ env c' = edit_registers i v p (aarch64_save_sp 1 (env c))
    /\ reg (hvf_fd c') HV_REG_PC = pc (env c)
    /\ (forall j, (j < 31)%nat ->
          reg (hvf_fd c') (regno_to_hv_xreg j) = xreg (env c) j).
Proof.
  destruct (hvf_put_registers_spec c) as (c1 & Hput & Henv & _ & Hpush).
  pose proof Hpush as (Gx & Gpc & _).
  set (c2 := with_env (edit_registers i v p) (set_dirty false c1)).
  set (c3 := log_bus (bus_read (reg (hvf_fd c2) HV_REG_PC) 8)
               (with_fd (set_pending (hvf_irq_pending c2) (hvf_fiq_pending c2))
                  c2)).
  assert (Hreg : reg (hvf_fd c3) = reg (hvf_fd c1)) by reflexivity.
  exists c3. rewrite Hreg. split.
  - unfold hvf_cpu_synchronize_post_init, _hvf_cpu_synchronize_post_init.
    unfold bind at 1. unfold bind at 1. rewrite Hput.
    unfold bind at 1, modify_env. fold c2.
    exact (hvf_vcpu_exec_enter_clean c2 eq_refl).
  - split; [reflexivity|].
    split; [change (edit_registers i v p (env c1)
                    = edit_registers i v p (aarch64_save_sp 1 (env c)));
            rewrite Henv; reflexivity|].
    split; [exact Gpc|exact Gx].
Qed.

Variable ARM_CPU_IRQ ARM_CPU_FIQ : Z.
Variable qemu_cpu_is_self : CPUState -> bool.

(** X26: an interrupt line set with hvf_vcpu_set_irq is what the hardware
    is entered with: after setting the IRQ line to [level], the entry
    sequence of the run loop leaves the hardware's pending IRQ asserted
    exactly when [level] is not 0 and its pending FIQ as the FIQ line was;
    the vCPU is kicked exactly when the line rises and the caller is another
    thread. *)
Theorem hvf_vcpu_set_irq_enter c level :
  exists c1 c2,
    hvf_vcpu_set_irq ARM_CPU_IRQ ARM_CPU_FIQ qemu_cpu_is_self ARM_CPU_IRQ level c
    = Returned (negb (hvf_irq_pending c) && negb (level =? 0)
                && negb (qemu_cpu_is_self c)) c1
    /\ hvf_vcpu_exec_enter bus_data c1 = Returned tt c2
    /\ pending_irq (hvf_fd c2) = negb (level =? 0)
    /\ pending_fiq (hvf_fd c2) = hvf_fiq_pending c
    /\ hvf_vcpu_dirty c2 = false.
Proof.
  set (c1 := set_irq_pending (negb (level =? 0)) (hvf_fiq_pending c) c).
  exists c1, (final (exec_enter c1)). split.
  - unfold hvf_vcpu_set_irq. rewrite Z.eqb_refl. reflexivity.
  - destruct (hvf_vcpu_dirty c1) eqn:Hd.
    + destruct (hvf_put_registers_spec c1) as (c2 & Hput & _ & Hsame & _).
      destruct Hsame as (_ & _ & Hirq & Hfiq & _).
      rewrite (hvf_vcpu_exec_enter_dirty bus_data c1 c2 Hd Hput). cbv [final].
      split; [reflexivity|].
      split; [exact Hirq|]. split; [exact Hfiq|reflexivity].
    + rewrite (hvf_vcpu_exec_enter_clean c1 Hd). cbv [final].
      split; [reflexivity|]. split; [reflexivity|]. split; [reflexivity|exact Hd].
Qed.

End Entry.

(** ** The statements at concrete vCPU states *)

Lemma hvf_get_put_registers_hardware_witness :
  let c := sample_cpu esr_wfx 0 in
  exists c', (hvf_get_registers;; hvf_put_registers) c = Returned 0 c'
    /\ (forall r, reg (hvf_fd c') r = reg (hvf_fd c) r)
    /\ (forall r, sys_reg (hvf_fd c') r = sys_reg (hvf_fd c) r)
    /\ (forall r, simd_fp_reg (hvf_fd c') r = simd_fp_reg (hvf_fd c) r)
    /\ pending_irq (hvf_fd c') = pending_irq (hvf_fd c)
    /\ pending_fiq (hvf_fd c') = pending_fiq (hvf_fd c).
Proof.
  apply (hvf_get_put_registers_hardware (sample_cpu esr_wfx 0)).
  - reflexivity.
  - reflexivity.
  - reflexivity.
  - simpl. lia.
  - simpl. lia.
Defined.

Lemma hvf_put_get_registers_env_witness :
  let c := sample_cpu esr_wfx 0 in
  exists c', (hvf_put_registers;; hvf_get_registers) c = Returned 0 c'
    /\ xregs (env c') = xregs (env c)
    /\ pc (env c') = pc (env c) /\ pstate (env c') = pstate (env c)
    /\ fpsr (env c') = fpsr (env c) /\ fpcr (env c') = fpcr (env c)
    /\ (forall f, field (env c') f = field (aarch64_save_sp 1 (env c)) f)
    /\ vfp_zregs (env c') = <[20%nat := qreg (env c) 30]> (vfp_zregs (env c)).
Proof.
  apply (hvf_put_get_registers_env (sample_cpu esr_wfx 0)).
  - reflexivity.
  - reflexivity.
  - reflexivity.
  - simpl. lia.
  - simpl. lia.
Defined.


Lemma hvf_handle_exception_os_lock_witness :
  let c := sample_cpu esr_oslar_read_x3 0 in
  exists c',
    hvf_handle_exception (fun _ _ _ => []) [] (fun _ => false) (fun e => e)
      Mem.hvf_accel_init c = Returned tt c'
    /\ reg (hvf_fd c') HV_REG_PC = u64 (reg (hvf_fd c) HV_REG_PC + 4)
    /\ (forall i, (i < 31)%nat ->
          reg (hvf_fd c') (regno_to_hv_xreg i)
          = if negb (sys64_is_write (hvf_vcpu_get_hsr c))
               && (Z.of_nat i =? sys64_rt (hvf_vcpu_get_hsr c))
            then 0 else reg (hvf_fd c) (regno_to_hv_xreg i))
    /\ reg (hvf_fd c') HV_REG_CPSR = reg (hvf_fd c) HV_REG_CPSR
    /\ reg (hvf_fd c') HV_REG_FPSR = reg (hvf_fd c) HV_REG_FPSR
    /\ reg (hvf_fd c') HV_REG_FPCR = reg (hvf_fd c) HV_REG_FPCR
    /\ (forall r, sys_reg (hvf_fd c') r = sys_reg (hvf_fd c) r)
    /\ (forall r, simd_fp_reg (hvf_fd c') r = simd_fp_reg (hvf_fd c) r)
    /\ bus_log c' = bus_log c.
Proof.
  apply (hvf_handle_exception_os_lock (fun _ _ _ => []) [] (fun _ => false)
           (fun e => e) Mem.hvf_accel_init (sample_cpu esr_oslar_read_x3 0)).
  - reflexivity.
  - reflexivity.
  - reflexivity.
  - simpl. lia.
  - simpl. lia.
  - vm_compute. reflexivity.
  - vm_compute. reflexivity.
Defined.

Lemma hvf_handle_exception_unhandled_witness :
  exists c',
    hvf_handle_exception (fun _ _ _ => []) [] (fun _ => false) (fun e => e)
      Mem.hvf_accel_init (sample_cpu esr_smc 0) = Aborted c'.
Proof.
  apply (hvf_handle_exception_unhandled (fun _ _ _ => []) [] (fun _ => false)
           (fun e => e) Mem.hvf_accel_init (sample_cpu esr_smc 0)).
  - reflexivity.
  - reflexivity.
  - left. vm_compute. reflexivity.
Defined.

Lemma sample_mmio_abort esr :
  Z.land esr ESR_ELx_FSC_TYPE <> ESR_ELx_FSC_ACCESS ->
  Z.land esr ESR_ELx_CM = 0 -> Z.land esr ESR_ELx_ISV <> 0 ->
  Z.land ESR_ELx_EA esr = 0 -> Z.land ESR_ELx_S1PTW esr = 0 ->
  esr mod 2 ^ 32 = esr ->
  mmio_abort Mem.hvf_accel_init ESR_ELx_EC_DABT_LOW (sample_cpu esr 0x9000000).
Proof.
  intros Hfsc Hcm Hisv Hea Hptw Hesr. unfold mmio_abort.
  change (hvf_vcpu_get_hsr (sample_cpu esr 0x9000000)) with (esr mod 2 ^ 32).
  rewrite Hesr. cbv zeta.
  split; [exact Hfsc|]. split; [vm_compute; reflexivity|].
  split; [vm_compute; discriminate|].
  repeat (split; [assumption|]). assumption.
Qed.

Lemma hvf_handle_exception_mmio_write_witness :
  let c := sample_cpu esr_write16_x5 0x9000000 in
  exists c',
    hvf_handle_exception (fun _ _ _ => []) [] (fun _ => false) (fun e => e)
      Mem.hvf_accel_init c = Returned tt c'
    /\ bus_log c' = bus_log c
         ++ [bus_write (physical_address (hvf_vcpu_exit_info c))
               (hvf_vcpu_dabt_get_as c)
               (Z_to_le (Z.to_nat (hvf_vcpu_dabt_get_as c))
                  (if hvf_vcpu_dabt_get_rd c =? 31 then 0
                   else reg (hvf_fd c)
                          (regno_to_hv_xreg (Z.to_nat (hvf_vcpu_dabt_get_rd c)))))]
    /\ reg (hvf_fd c') HV_REG_PC = u64 (reg (hvf_fd c) HV_REG_PC + 4)
    /\ (forall r, r <> HV_REG_PC -> reg (hvf_fd c') r = reg (hvf_fd c) r)
    /\ (forall r, sys_reg (hvf_fd c') r = sys_reg (hvf_fd c) r)
    /\ (forall r, simd_fp_reg (hvf_fd c') r = simd_fp_reg (hvf_fd c) r).
Proof.
  apply (hvf_handle_exception_mmio_write (fun _ _ _ => []) [] (fun _ => false)
           (fun e => e) Mem.hvf_accel_init (sample_cpu esr_write16_x5 0x9000000)).
  - reflexivity.
  - reflexivity.
  - reflexivity.
  - simpl. lia.
  - simpl. lia.
  - vm_compute. reflexivity.
  - apply sample_mmio_abort; vm_compute; first [reflexivity|discriminate].
  - vm_compute. discriminate.
Defined.

Lemma hvf_handle_exception_mmio_read_witness :
  let c := sample_cpu esr_read8_signed_x5 0x9000000 in
  exists c',
    hvf_handle_exception (fun _ _ _ => [0x80]) (replicate 8 0xAA) (fun _ => false)
      (fun e => e) Mem.hvf_accel_init c = Returned tt c'
    /\ bus_log c' = bus_log c
         ++ [bus_read (physical_address (hvf_vcpu_exit_info c))
               (hvf_vcpu_dabt_get_as c)]
    /\ reg (hvf_fd c') HV_REG_PC = u64 (reg (hvf_fd c) HV_REG_PC + 4)
    /\ (forall i, (i < 31)%nat ->
          reg (hvf_fd c') (regno_to_hv_xreg i)
          = if Z.of_nat i =? hvf_vcpu_dabt_get_rd c then le_to_Z [0x80]
            else reg (hvf_fd c) (regno_to_hv_xreg i))
    /\ reg (hvf_fd c') HV_REG_CPSR = reg (hvf_fd c) HV_REG_CPSR
    /\ reg (hvf_fd c') HV_REG_FPSR = reg (hvf_fd c) HV_REG_FPSR
    /\ reg (hvf_fd c') HV_REG_FPCR = reg (hvf_fd c) HV_REG_FPCR
    /\ (forall r, sys_reg (hvf_fd c') r = sys_reg (hvf_fd c) r)
    /\ (forall r, simd_fp_reg (hvf_fd c') r = simd_fp_reg (hvf_fd c) r).
Proof.
  apply (hvf_handle_exception_mmio_read (fun _ _ _ => [0x80]) (replicate 8 0xAA)
           (fun _ => false) (fun e => e) Mem.hvf_accel_init
           (sample_cpu esr_read8_signed_x5 0x9000000)).
  - reflexivity.
  - reflexivity.
  - reflexivity.
  - simpl. lia.
  - simpl. lia.
  - vm_compute. reflexivity.
  - apply sample_mmio_abort; vm_compute; first [reflexivity|discriminate].
  - vm_compute. reflexivity.
  - left. vm_compute. reflexivity.
  - vm_compute. reflexivity.
  - repeat constructor; lia.
Defined.

Lemma synchronize_edit_enter_witness :
  let c := sample_cpu esr_wfx 0 in
  exists c',
    (hvf_cpu_synchronize_state;; modify_env (edit_registers 7 0x55 0x40002000);;
     hvf_vcpu_exec_enter (fun _ _ _ => [])) c = Returned tt c'
    /\ hvf_vcpu_dirty c' = false
    /\ reg (hvf_fd c') HV_REG_PC = 0x40002000
    /\ reg (hvf_fd c') (regno_to_hv_xreg 7) = 0x55
    /\ (forall j, (j < 31)%nat -> j <> 7%nat ->
          reg (hvf_fd c') (regno_to_hv_xreg j) = reg (hvf_fd c) (regno_to_hv_xreg j))
    /\ reg (hvf_fd c') HV_REG_CPSR = reg (hvf_fd c) HV_REG_CPSR
    /\ reg (hvf_fd c') HV_REG_FPSR = reg (hvf_fd c) HV_REG_FPSR
    /\ reg (hvf_fd c') HV_REG_FPCR = reg (hvf_fd c) HV_REG_FPCR
    /\ (forall r, sys_reg (hvf_fd c') r = sys_reg (hvf_fd c) r)
    /\ (forall r, simd_fp_reg (hvf_fd c') r = simd_fp_reg (hvf_fd c) r).
Proof.
  apply (synchronize_edit_enter (fun _ _ _ => []) (sample_cpu esr_wfx 0) 7 0x55
           0x40002000).
  - reflexivity.
  - reflexivity.
  - reflexivity.
  - simpl. lia.
  - simpl. lia.
  - reflexivity.
  - lia.
Defined.
